(** * COSMEON FS-Lite: chunk placement and reconstruction (server.js)

    A shallow embedding of the storage core of [server.js]: the node
    registry ([getNodeStatus], [updateNodeStatus]), the catalog
    ([readMetadata], [writeMetadata]), the upload handler
    ([POST /api/upload]), the reconstruction handler
    ([POST /api/reconstruct/:fileId]) and the node toggle
    ([POST /api/nodes/:nodeId/toggle]).

    The handlers are asynchronous JavaScript functions over the file
    system.  They are embedded as computations in a state-and-exception
    monad over a record [Disk] that holds the four families of files the
    program touches.  The embedding rests on these conventions:

    - a handler is embedded as one uninterrupted computation.  The
      upload handler is embedded a second time cut at its awaits
      ([upload_async]), with other requests served while it waits and
      with the staged file it reads and removes; run on its own it is the
      uninterrupted one ([upload_among_alone]);
    - [fs.writeFile] succeeds; reads fail as the state of the file says;
    - [JSON.stringify] followed by [JSON.parse] gives back the value, so
      a file that was written holds the value itself; a status file that
      parses holds a record of the shape the program writes;
    - a file of the uploads directory is kept under its name; the name
      stands for [path.join(UPLOADS_DIR, name)], which it determines when
      it has no path separator ([plain_name]);
    - [new Date().toISOString()] is a parameter [now] of the handler;
    - [generateHash] (SHA-256) and [CHUNK_SIZE] are parameters;
    - the calls of [logEvent] inside the handlers are left out; the
      function is embedded on its own. *)

From Stdlib Require Import Strings.Ascii Strings.String Strings.Byte.
From stdpp Require Import gmap strings list fin_maps.

Local Open Scope string_scope.
Local Open Scope list_scope.
Local Open Scope nat_scope.

(** ** Values *)

Definition bytes : Type := list byte.

(** The record kept in [nodes/<node>/status.json].  [status] is an
    arbitrary string: the toggle route stores whatever the request body
    carries; a node is online exactly when it is the string "online".
    A status file that parses is taken to hold a record of this shape,
    the one the program writes. *)
Record NodeState : Type := mkNodeState {
  nodeId : string;
  status : string;
  chunkCount : nat;
  lastSeen : option string
}.

(** A chunk file is located by a triple (node, fileId, index), standing
    for [path.join(NODES_DIR, node, `${fileId}_chunk${i}`)]: the triple
    determines the path and the path determines the triple (the digits
    after the last "_chunk" are the index). *)

Record ChunkRecord : Type := mkChunkRecord {
  chunkId : nat;
  node : string;
  hash : string;
  size : nat;
  path : string * string * nat
}.

(** An entry of [metadata.files]; [fileSize] is the property [size] (the
    name is taken by the chunk record). *)
Record FileManifest : Type := mkFileManifest {
  fileId : string;
  originalName : string;
  fileSize : nat;
  totalChunks : nat;
  uploadedAt : string;
  fileHash : string;
  chunks : gmap nat ChunkRecord
}.

(** The values of [JSON.parse] on the metadata file that are told apart:
    the literal [null], or an object whose [files] property is a map from
    fileId to manifest, or is missing.  Other JSON values (numbers,
    strings, arrays, a [files] property of another shape) are not
    modelled. *)
Inductive Metadata : Type :=
  | JNull
  | JObject (files : option (gmap string FileManifest)).

(** A file that is present on disk: it cannot be read, or its text is not
    JSON, or it parses to a value. An absent file is a missing key. *)
Inductive JsonFile (A : Type) : Type :=
  | Unreadable
  | NotJson (text : string)
  | Json (v : A).
Arguments Unreadable {A}.
Arguments NotJson {A} text.
Arguments Json {A} v.

Record Disk : Type := mkDisk {
  metadata_json : option (JsonFile Metadata);      (* METADATA_FILE *)
  status_json : gmap string (JsonFile NodeState);  (* nodes/<node>/status.json *)
  node_files : gmap (string * string * nat) bytes;
                                       (* nodes/<node>/<fileId>_chunk<i> *)
  upload_files : gmap string bytes                 (* uploads/<name> *)
}.

(** ** Errors and the handler monad *)

Inductive Error : Type :=
  | ENOENT                        (* fs: no such file *)
  | EACCES                        (* fs: the file cannot be read *)
  | SyntaxError                   (* JSON.parse *)
  | TypeError                     (* property access on null or undefined *)
  | NoOnlineNodes                 (* 'No online nodes available' *)
  | FileNotFound                  (* 'File not found' *)
  | ChunkHashMismatch (i : nat)   (* `Chunk ${i} hash mismatch` *)
  | NodeOffline                   (* 'Node offline', only ever reported *)
  | FileHashMismatch              (* 'File hash mismatch - data corrupted' *)
  | InvalidNodeId.                (* 'Invalid node ID' *)

Inductive result (A : Type) : Type :=
  | Ok (a : A)
  | Throw (e : Error).
Arguments Ok {A} a.
Arguments Throw {A} e.

(** A computation reads and writes the disk and either returns or throws;
    what it wrote before throwing stays written. *)
Definition M (A : Type) : Type := Disk → result A * Disk.

Definition ret {A} (a : A) : M A := λ d, (Ok a, d).
Definition throw {A} (e : Error) : M A := λ d, (Throw e, d).
Definition bind {A B} (m : M A) (k : A → M B) : M B :=
  λ d, match m d with
       | (Ok a, d') => k a d'
       | (Throw e, d') => (Throw e, d')
       end.
Definition try_catch {A} (m : M A) (handler : Error → M A) : M A :=
  λ d, match m d with
       | (Ok a, d') => (Ok a, d')
       | (Throw e, d') => handler e d'
       end.

Declare Scope js_scope.
Delimit Scope js_scope with js.
Notation "'let*' x := m 'in' k" := (bind m (λ x, k))
  (at level 10, x pattern, m at level 100, k at level 200) : js_scope.
Notation "m ;;; k" := (bind m (λ _, k))
  (at level 100, k at level 200, right associativity) : js_scope.
Local Open Scope js_scope.

(** ** File-system primitives *)

(** [JSON.parse(await fs.readFile(file, 'utf8'))] on a file slot. *)
Definition read_json {A} (slot : option (JsonFile A)) : M A :=
  match slot with
  | None => throw ENOENT
  | Some Unreadable => throw EACCES
  | Some (NotJson _) => throw SyntaxError
  | Some (Json v) => ret v
  end.

Definition write_metadata_file (v : Metadata) : M unit :=
  λ d, (Ok tt, mkDisk (Some (Json v)) (status_json d) (node_files d) (upload_files d)).

Definition write_status_file (n : string) (v : NodeState) : M unit :=
  λ d, (Ok tt, mkDisk (metadata_json d) (<[n := Json v]> (status_json d))
                     (node_files d) (upload_files d)).

Definition write_node_file (p : string * string * nat) (b : bytes) : M unit :=
  λ d, (Ok tt, mkDisk (metadata_json d) (status_json d)
                     (<[p := b]> (node_files d)) (upload_files d)).

Definition read_node_file (p : string * string * nat) : M bytes :=
  λ d, match node_files d !! p with
       | Some b => (Ok b, d)
       | None => (Throw ENOENT, d)
       end.

(** [fs.writeFile(path.join(UPLOADS_DIR, name), b)]. *)
Definition write_upload_file (name : string) (b : bytes) : M unit :=
  λ d, (Ok tt, mkDisk (metadata_json d) (status_json d) (node_files d)
                     (<[name := b]> (upload_files d))).

(** ** Configuration *)

Definition NODES : list string := ["node1"; "node2"; "node3"; "node4"].

(** ** JavaScript helpers *)

(** [Math.ceil(a / b)] for non-negative integers [a] and positive [b]. *)
Definition Math_ceil_div (a b : nat) : nat :=
  a / b + (if a mod b =? 0 then 0 else 1).

(** [buf.slice(start, end)] for [start <= end <= buf.length]. *)
Definition slice (buf : bytes) (start end_ : nat) : bytes :=
  take (end_ - start) (drop start buf).

(** [arr[i] = x] on a JavaScript array: an index past the end extends the
    array, leaving holes in between. *)
Definition array_set {A} (arr : list (option A)) (i : nat) (x : A) : list (option A) :=
  if decide (i < length arr) then <[i := Some x]> arr
  else arr ++ replicate (i - length arr) None ++ [Some x].

(** [arr.filter(c => c !== undefined).length]: holes are skipped. *)
Definition count_defined {A} (arr : list (option A)) : nat :=
  length (omap id arr).

(** [Buffer.concat(arr)]: throws on an element that is not a buffer. *)
Fixpoint Buffer_concat (arr : list (option bytes)) : M bytes :=
  match arr with
  | [] => ret []
  | None :: _ => throw TypeError
  | Some b :: rest => let* r := Buffer_concat rest in ret (b ++ r)
  end.

(** The property names every plain object inherits from
    [Object.prototype]: a lookup of one of them on an object that has no
    own property of that name yields the inherited (truthy) value. *)
Definition Object_prototype_keys : list string :=
  ["constructor"; "__proto__"; "hasOwnProperty"; "isPrototypeOf";
   "propertyIsEnumerable"; "toLocaleString"; "toString"; "valueOf";
   "__defineGetter__"; "__defineSetter__"; "__lookupGetter__";
   "__lookupSetter__"].

Inductive Property (A : Type) : Type :=
  | Undefined
  | Inherited
  | Own (v : A).
Arguments Undefined {A}.
Arguments Inherited {A}.
Arguments Own {A} v.

(** [obj[key]] on a plain object. *)
Definition js_get {A} (obj : gmap string A) (key : string) : Property A :=
  match obj !! key with
  | Some v => Own v
  | None => if decide (key ∈ Object_prototype_keys) then Inherited else Undefined
  end.

(** [obj[key] = v] with [v] an object: an own property is created or
    overwritten, except that assigning to "__proto__" on an object with
    no own property of that name replaces the prototype instead (nothing
    that [JSON.stringify] would write). *)
Definition js_set {A} (obj : gmap string A) (key : string) (v : A) : gmap string A :=
  if decide (key = "__proto__" ∧ obj !! key = None) then obj else <[key := v]> obj.

(** [metadata.files] as the target of an indexing: reading [files] of
    [null] throws, and so does indexing [undefined]. *)
Definition metadata_files (metadata : Metadata) : M (gmap string FileManifest) :=
  match metadata with
  | JNull => throw TypeError
  | JObject None => throw TypeError
  | JObject (Some files) => ret files
  end.

(** ** Requests and responses *)

(** [req.file] as the upload handler sees it. The intake layer (multer)
    has staged the bytes under [uploads/<filename>] before the handler
    runs; [up_fileId] is [path.basename(filename, path.extname(filename))]
    and [up_fileBuffer] is what [fs.readFile(filePath)] returns.  The
    staged file, its read and its final [fs.unlink] are left out here;
    [upload_async] has them. *)
Record UploadRequest : Type := mkUploadRequest {
  up_originalname : string;
  up_fileId : string;
  up_size : nat;
  up_fileBuffer : bytes
}.

Record UploadOk : Type := mkUploadOk {
  uo_fileId : string;
  uo_originalName : string;
  uo_totalChunks : nat
}.

Record MissingChunk : Type := mkMissingChunk {
  mc_chunkId : nat;
  mc_node : string;
  mc_error : Error
}.

Inductive ReconstructionStatus : Type := success | partial | failed.

(** The JSON body of a reconstruction answer.  The body for 'success'
    carries the file id and name (the download handle is derived from the
    id); the body of the other branch carries the status, the counts and
    the missing list.  A property the looked-up value does not have
    ([originalName], [totalChunks]) is [None]. *)
Inductive ReconstructBody : Type :=
  | Reconstructed (fileId originalName : string)
  | Incomplete (status : ReconstructionStatus) (fileId : string)
      (originalName : option string) (availableChunks : nat)
      (totalChunks : option nat) (missingChunks : list MissingChunk).

Record ToggleOk : Type := mkToggleOk {
  to_nodeId : string;
  to_status : string
}.

(** What a handler sends: [res.json(body)] or, from its [catch],
    [res.status(500).json({success: false, error: error.message})]. *)
Inductive Response (A : Type) : Type :=
  | Json200 (body : A)
  | Error500 (e : Error).
Arguments Json200 {A} body.
Arguments Error500 {A} e.

Definition respond {A} (m : M A) : Disk → Response A * Disk :=
  λ d, match m d with
       | (Ok a, d') => (Json200 a, d')
       | (Throw e, d') => (Error500 e, d')
       end.

Section Server.

(** [generateHash]: SHA-256 in hexadecimal, kept abstract. *)
Variable generateHash : bytes → string.

(** [CHUNK_SIZE], a positive number: 1024 * 1024 in the source. *)
Variable CHUNK_SIZE : nat.

(** *** Catalog *)

Definition readMetadata : M Metadata :=
  try_catch
    (λ d, read_json (metadata_json d) d)
    (λ _, ret (JObject (Some ∅))).

Definition writeMetadata (metadata : Metadata) : M unit :=
  write_metadata_file metadata.

(** *** Node registry *)

Definition getNodeStatus (id : string) : M NodeState :=
  try_catch
    (λ d, read_json (status_json d !! id) d)
    (λ _, ret (mkNodeState id "offline" 0 None)).

(** [now] is [new Date().toISOString()]. *)
Definition updateNodeStatus (now : string) (id : string) (status' : string)
  : M NodeState :=
  let* nodeStatus := getNodeStatus id in
  let nodeStatus := mkNodeState (nodeId nodeStatus) status'
                                (chunkCount nodeStatus) (Some now) in
  write_status_file id nodeStatus ;;;
  ret nodeStatus.

(** *** Upload *)

(** The inner loop of the upload handler,
    [for (attempt = 0; attempt < NODES.length; attempt++)], with
    [attempts] iterations left: the assigned node (or [None] for the
    initial [null]) and the value of [nodeIndex] afterwards. *)
Fixpoint find_node (attempts : nat) (nodeIndex : nat) : M (option string * nat) :=
  match attempts with
  | 0 => ret (None, nodeIndex)
  | S attempts' =>
      let id := nth (nodeIndex mod length NODES) NODES "" in
      let* nodeStatus := getNodeStatus id in
      if decide (status nodeStatus = "online")
      then ret (Some id, S nodeIndex)
      else find_node attempts' (S nodeIndex)
  end.

(** The chunk of index [i]: [fileBuffer.slice(start, end)]. *)
Definition chunkBuffer (fileBuffer : bytes) (i : nat) : bytes :=
  let start := i * CHUNK_SIZE in
  let end_ := (start + CHUNK_SIZE) `min` length fileBuffer in
  slice fileBuffer start end_.

(** The outer loop, [for (i = ...; i < totalChunks; i++)], with [todo]
    iterations left; [chunks] is [metadata.files[fileId].chunks]. *)
Fixpoint place_chunks (now : string) (req : UploadRequest)
    (todo : nat) (i : nat) (nodeIndex : nat) (chunks : gmap nat ChunkRecord)
  : M (gmap nat ChunkRecord) :=
  match todo with
  | 0 => ret chunks
  | S todo' =>
      let chunk := chunkBuffer (up_fileBuffer req) i in
      let chunkHash := generateHash chunk in
      let* (assignedNode, nodeIndex) := find_node (length NODES) nodeIndex in
      match assignedNode with
      | None => throw NoOnlineNodes
      | Some assignedNode =>
          let chunkPath := (assignedNode, up_fileId req, i) in
          write_node_file chunkPath chunk ;;;
          let* nodeStatus := getNodeStatus assignedNode in
          (* nodeStatus.chunkCount++ : on this object only *)
          let nodeStatus := mkNodeState (nodeId nodeStatus) (status nodeStatus)
                                        (S (chunkCount nodeStatus))
                                        (lastSeen nodeStatus) in
          let* _ := updateNodeStatus now assignedNode (status nodeStatus) in
          let chunks := <[i := mkChunkRecord i assignedNode chunkHash
                                             (length chunk) chunkPath]> chunks in
          place_chunks now req todo' (S i) nodeIndex chunks
      end
  end.

Definition upload_body (now : string) (req : UploadRequest) : M UploadOk :=
  let fileId := up_fileId req in
  let fileBuffer := up_fileBuffer req in
  let totalChunks := Math_ceil_div (length fileBuffer) CHUNK_SIZE in
  let* metadata := readMetadata in
  let* files := metadata_files metadata in
  let manifest := mkFileManifest fileId (up_originalname req) (up_size req)
                                 totalChunks now (generateHash fileBuffer) in
  let* chunks := place_chunks now req totalChunks 0 0 ∅ in
  writeMetadata (JObject (Some (js_set files fileId (manifest chunks)))) ;;;
  ret (mkUploadOk fileId (up_originalname req) totalChunks).

Definition upload (now : string) (req : UploadRequest)
  : Disk → Response UploadOk * Disk :=
  respond (upload_body now req).

(** *** Reconstruction *)

(** The collecting loop, [for (i = ...; i < totalChunks; i++)], with
    [todo] iterations left; [got] is the array [chunks] and [missing] the
    array [missingChunks]. *)
Fixpoint collect (fileId : string) (fileInfo : FileManifest) (todo : nat)
    (i : nat) (got : list (option bytes)) (missing : list MissingChunk)
  : M (list (option bytes) * list MissingChunk) :=
  match todo with
  | 0 => ret (got, missing)
  | S todo' =>
      match chunks fileInfo !! i with
      | None => throw TypeError (* chunkInfo.node with chunkInfo undefined *)
      | Some chunkInfo =>
          let* nodeStatus := getNodeStatus (node chunkInfo) in
          let* (got, missing) :=
            if decide (status nodeStatus = "online") then
              try_catch
                (let chunkPath := (node chunkInfo, fileId, i) in
                 let* chunk := read_node_file chunkPath in
                 let chunkHash := generateHash chunk in
                 if decide (chunkHash ≠ hash chunkInfo)
                 then throw (ChunkHashMismatch i)
                 else ret (array_set got i chunk, missing))
                (λ error,
                   ret (got, missing ++ [mkMissingChunk i (node chunkInfo) error]))
            else
              ret (got, missing ++ [mkMissingChunk i (node chunkInfo) NodeOffline])
          in
          collect fileId fileInfo todo' (S i) got missing
      end
  end.

Definition classify (availableChunks totalChunks : nat) : ReconstructionStatus :=
  if decide (availableChunks = totalChunks) then success
  else if decide (0 < availableChunks) then partial
  else failed.

Definition reconstruct_body (fileId : string) : M ReconstructBody :=
  let* metadata := readMetadata in
  let* files := metadata_files metadata in
  match js_get files fileId with
  | Undefined => throw FileNotFound
  | Inherited =>
      (* a function or Object.prototype: truthy, and [totalChunks] is
         undefined, so the loop does not run ([0 < undefined] is false),
         [0 === undefined] is false and [0 > 0] is false *)
      ret (Incomplete failed fileId None 0 None [])
  | Own fileInfo =>
      let totalChunks := totalChunks fileInfo in
      let* (got, missingChunks) := collect fileId fileInfo totalChunks 0 [] [] in
      let availableChunks := count_defined got in
      let reconstructionStatus := classify availableChunks totalChunks in
      match reconstructionStatus with
      | success =>
          let* reconstructedBuffer := Buffer_concat got in
          let reconstructedHash := generateHash reconstructedBuffer in
          if decide (reconstructedHash ≠ fileHash fileInfo)
          then throw FileHashMismatch
          else
            write_upload_file ("reconstructed_" +:+ originalName fileInfo)
                              reconstructedBuffer ;;;
            ret (Reconstructed fileId (originalName fileInfo))
      | _ =>
          ret (Incomplete reconstructionStatus fileId
                 (Some (originalName fileInfo)) availableChunks
                 (Some totalChunks) missingChunks)
      end
  end.

Definition reconstruct (fileId : string) : Disk → Response ReconstructBody * Disk :=
  respond (reconstruct_body fileId).

(** *** Toggle node status *)

(** [req_status] is [req.body.status]: [None] when the body has none; the
    empty string is falsy like [undefined]. *)
Definition toggle_body (now : string) (id : string) (req_status : option string)
  : M ToggleOk :=
  if decide (id ∈ NODES) then
    let* currentStatus := getNodeStatus id in
    let flipped := if decide (status currentStatus = "online")
                   then "offline" else "online" in
    let newStatus := match req_status with
                     | Some s => if decide (s = "") then flipped else s
                     | None => flipped
                     end in
    let* updatedStatus := updateNodeStatus now id newStatus in
    ret (mkToggleOk id (status updatedStatus))
  else throw InvalidNodeId.

Definition toggle (now : string) (id : string) (req_status : option string)
  : Disk → Response ToggleOk * Disk :=
  respond (toggle_body now id req_status).

End Server.

(** * Specification-level views of the disk *)

(** The state [getNodeStatus] reports for a node. *)
Definition node_state (d : Disk) (id : string) : NodeState :=
  match status_json d !! id with
  | Some (Json v) => v
  | _ => mkNodeState id "offline" 0 None
  end.

Definition is_online (d : Disk) (id : string) : Prop :=
  status (node_state d id) = "online".

#[global] Instance is_online_dec (d : Disk) (id : string) : Decision (is_online d id).
Proof. unfold is_online. apply _. Defined.

(** The catalog [readMetadata] reports. *)
Definition metadata_of (d : Disk) : Metadata :=
  match metadata_json d with
  | Some (Json v) => v
  | _ => JObject (Some ∅)
  end.

(** The manifest a reader finds under [fileId], if the catalog has one. *)
Definition manifest_of (d : Disk) (fileId : string) : option FileManifest :=
  match metadata_of d with
  | JObject (Some files) => files !! fileId
  | _ => None
  end.

(** The result of the node scan as a function of the disk. *)
Fixpoint scan (d : Disk) (attempts : nat) (nodeIndex : nat) : option string * nat :=
  match attempts with
  | 0 => (None, nodeIndex)
  | S attempts' =>
      let id := nth (nodeIndex mod length NODES) NODES "" in
      if decide (is_online d id) then (Some id, S nodeIndex)
      else scan d attempts' (S nodeIndex)
  end.

(** The nodes the placement loop assigns to [todo] consecutive chunks when
    it starts with the cursor at [nodeIndex]. *)
Fixpoint assignment (d : Disk) (todo : nat) (nodeIndex : nat) : list string :=
  match todo with
  | 0 => []
  | S todo' =>
      match scan d (length NODES) nodeIndex with
      | (Some id, nodeIndex') => id :: assignment d todo' nodeIndex'
      | (None, _) => []
      end
  end.

(** What the collecting loop makes of chunk [i] recorded as [r]. *)
Definition chunk_outcome (generateHash : bytes → string) (d : Disk)
    (fileId : string) (i : nat) (r : ChunkRecord) : result bytes :=
  if decide (is_online d (node r)) then
    match node_files d !! (node r, fileId, i) with
    | None => Throw ENOENT
    | Some b => if decide (generateHash b ≠ hash r)
                then Throw (ChunkHashMismatch i) else Ok b
    end
  else Throw NodeOffline.

(** The disk after one round of the placement loop: the chunk file is
    written under [p] and the status record of node [id] is rewritten by
    [updateNodeStatus] with the status it was read with. *)
Definition placed (now : string) (d : Disk) (id : string) (p : string * string * nat)
    (chunk : bytes) : Disk :=
  let st := node_state d id in
  mkDisk (metadata_json d)
         (<[id := Json (mkNodeState (nodeId st) (status st) (chunkCount st) (Some now))]>
            (status_json d))
         (<[p := chunk]> (node_files d))
         (upload_files d).

(** [d'] differs from [d] at most in chunk files and in what the status
    records hold besides the status and the chunk count. *)
Definition same_registry (d d' : Disk) : Prop :=
  metadata_json d' = metadata_json d ∧
  upload_files d' = upload_files d ∧
  ∀ id, status (node_state d' id) = status (node_state d id) ∧
        chunkCount (node_state d' id) = chunkCount (node_state d id).

(** The record the upload handler stores for chunk [i] of [req] once it
    has assigned node [id] to it. *)
Definition chunk_record (generateHash : bytes → string) (CHUNK_SIZE : nat)
    (req : UploadRequest) (i : nat) (id : string) : ChunkRecord :=
  let chunk := chunkBuffer CHUNK_SIZE (up_fileBuffer req) i in
  mkChunkRecord i id (generateHash chunk) (length chunk) (id, up_fileId req, i).

(** The number of chunks the upload handler computes for [req]. *)
Definition total_chunks (CHUNK_SIZE : nat) (req : UploadRequest) : nat :=
  Math_ceil_div (length (up_fileBuffer req)) CHUNK_SIZE.

(** The file of [req] is stored on [d] under manifest [m] with its chunks
    on [nodes]: the catalog has [m] for it, [m] records every chunk with
    its digest on the node of the same position in [nodes], and that node
    holds the chunk's bytes. *)
Definition stored (generateHash : bytes → string) (CHUNK_SIZE : nat)
    (req : UploadRequest) (d : Disk) (nodes : list string) (m : FileManifest)
  : Prop :=
  manifest_of d (up_fileId req) = Some m ∧
  totalChunks m = total_chunks CHUNK_SIZE req ∧
  fileHash m = generateHash (up_fileBuffer req) ∧
  originalName m = up_originalname req ∧
  length nodes = totalChunks m ∧
  (∀ j, totalChunks m ≤ j → chunks m !! j = None) ∧
  ∀ k id, nodes !! k = Some id →
    chunks m !! k = Some (chunk_record generateHash CHUNK_SIZE req k id) ∧
    node_files d !! (id, up_fileId req, k)
    = Some (chunkBuffer CHUNK_SIZE (up_fileBuffer req) k).

(** The bytes the collecting loop retrieves for chunk [j] of manifest [m]:
    present when the recording node is online, its chunk file can be read
    and the digest of what is read is the recorded one. *)
Definition retrieve (generateHash : bytes → string) (d : Disk) (fileId : string)
    (m : FileManifest) (j : nat) : option bytes :=
  match chunks m !! j with
  | Some r => match chunk_outcome generateHash d fileId j r with
              | Ok b => Some b
              | Throw _ => None
              end
  | None => None
  end.

(** The entry the loop reports for chunk [j] when it does not retrieve
    it. *)
Definition report (generateHash : bytes → string) (d : Disk) (fileId : string)
    (m : FileManifest) (j : nat) : option MissingChunk :=
  match chunks m !! j with
  | Some r => match chunk_outcome generateHash d fileId j r with
              | Ok _ => None
              | Throw e => Some (mkMissingChunk j (node r) e)
              end
  | None => None
  end.

(** The chunks retrieved, and the entries reported, over the indices
    [i, i + todo), in index order. *)
Definition retrieved_of (generateHash : bytes → string) (d : Disk)
    (fileId : string) (m : FileManifest) (i todo : nat) : list bytes :=
  omap (retrieve generateHash d fileId m) (seq i todo).

Definition missing_of (generateHash : bytes → string) (d : Disk)
    (fileId : string) (m : FileManifest) (i todo : nat) : list MissingChunk :=
  omap (report generateHash d fileId m) (seq i todo).

(** A manifest that records every chunk index below its [totalChunks]. *)
Definition complete_manifest (m : FileManifest) : Prop :=
  ∀ j, j < totalChunks m → is_Some (chunks m !! j).

(** The missing list of a reconstruction answer (empty when the answer
    has none). *)
Definition missing_list (r : Response ReconstructBody) : list MissingChunk :=
  match r with
  | Json200 (Incomplete _ _ _ _ _ missingChunks) => missingChunks
  | _ => []
  end.

(** * Concrete disks and requests *)

(** A stand-in digest for running the handlers on concrete inputs: the
    bytes themselves, read as a string (one character per byte), so that
    different byte sequences have different digests. *)
Definition demo_hash (b : bytes) : string := string_of_list_byte b.

(** The disk [initializeSystem] leaves on a first start at time [now]. *)
Definition initial_disk (now : string) : Disk :=
  mkDisk (Some (Json (JObject (Some ∅))))
         (list_to_map
            (map (λ n, (n, Json (mkNodeState n "online" 0 (Some now)))) NODES))
         ∅ ∅.

(** A disk on which nothing exists. *)
Definition empty_disk : Disk := mkDisk None ∅ ∅ ∅.

(** The initial disk with every node switched off. *)
Definition dark_disk : Disk :=
  mkDisk (Some (Json (JObject (Some ∅))))
         (list_to_map
            (map (λ n, (n, Json (mkNodeState n "offline" 0 (Some "t0")))) NODES))
         ∅ ∅.

(** The initial disk with the metadata file overwritten by the JSON text
    [null]. *)
Definition null_metadata_disk : Disk :=
  mkDisk (Some (Json JNull)) (status_json (initial_disk "t0")) ∅ ∅.

Definition hello : bytes := ["h"; "e"; "l"; "l"; "o"]%byte.

Definition hello_request : UploadRequest :=
  mkUploadRequest "hello.txt" "1700000000000-k3j9x2q1z" 5 hello.

Definition one_byte_request (id : string) : UploadRequest :=
  mkUploadRequest "a.bin" id 1 ["a"%byte].

Definition empty_request : UploadRequest :=
  mkUploadRequest "empty.bin" "1700000000001-e0e0e0e0e" 0 [].

(** The initial disk after the upload of [hello] in chunks of two bytes:
    chunks 0, 1, 2 on node1, node2, node3. *)
Definition hello_disk : Disk :=
  (upload demo_hash 2 "t1" hello_request (initial_disk "t0")).2.

Definition hello_manifest : FileManifest :=
  mkFileManifest "1700000000000-k3j9x2q1z" "hello.txt" 5 3 "t1" "hello"
    (list_to_map
       [(0, mkChunkRecord 0 "node1" "he" 2 ("node1", "1700000000000-k3j9x2q1z", 0));
        (1, mkChunkRecord 1 "node2" "ll" 2 ("node2", "1700000000000-k3j9x2q1z", 1));
        (2, mkChunkRecord 2 "node3" "o" 1 ("node3", "1700000000000-k3j9x2q1z", 2))]).

(** [hello_disk] after node2 has been toggled off. *)
Definition hello_disk_node2_off : Disk :=
  (toggle "t2" "node2" None hello_disk).2.

(** The initial disk after node1 has been toggled off. *)
Definition node1_off_disk : Disk :=
  (toggle "t1" "node1" None (initial_disk "t0")).2.

(** [hello_disk_node2_off] after a reconstruction attempt and after node2
    has been toggled on again. *)
Definition hello_disk_node2_back : Disk :=
  (toggle "t3" "node2" None
     (reconstruct demo_hash "1700000000000-k3j9x2q1z" hello_disk_node2_off).2).2.

(** * The rest of the server *)

(** ** Event log ([logEvent], [GET /api/logs]) *)

Record LogEntry : Type := mkLogEntry {
  log_timestamp : string;
  log_type : string;
  log_message : string
}.

(** [logEvent(message, type = 'info')] on [global.systemLogs], which is
    [None] while it is undefined: the entry is put in front ([unshift])
    and, when the array has grown past 100 entries, the last one is
    removed ([pop]).  The line written to the console is left out. *)
Definition logEvent (now : string) (message : string) (type : option string)
    (systemLogs : option (list LogEntry)) : option (list LogEntry) :=
  let type := default "info" type in
  let logs := default [] systemLogs in
  let logs := mkLogEntry now type message :: logs in
  Some (if decide (100 < length logs) then removelast logs else logs).

(** [GET /api/logs]: [global.systemLogs || []]. *)
Definition api_logs (systemLogs : option (list LogEntry)) : list LogEntry :=
  default [] systemLogs.

(** A run of [logEvent] calls, oldest call first; a call is the time, the
    message and the type argument. *)
Definition log_events (calls : list (string * string * option string))
    (systemLogs : option (list LogEntry)) : option (list LogEntry) :=
  foldl (λ logs call, logEvent call.1.1 call.1.2 call.2 logs) systemLogs calls.

(** The entry a call writes. *)
Definition entry_of (call : string * string * option string) : LogEntry :=
  mkLogEntry call.1.1 (default "info" call.2) call.1.2.

(** ** Start-up ([initializeSystem], [fileExists]) *)

(** [fileExists(path)]: [fs.access] succeeds on any file that is there,
    readable or not. *)
Definition fileExists {A} (slot : Disk → option A) : M bool :=
  λ d, (Ok (if slot d is Some _ then true else false), d).

(** The loop [for (const node of NODES)] of [initializeSystem]; creating
    the directories changes nothing in [Disk]. *)
Fixpoint init_nodes (now : string) (nodes : list string) : M unit :=
  match nodes with
  | [] => ret tt
  | node :: rest =>
      let* present := fileExists (λ d, status_json d !! node) in
      (if present then ret tt
       else write_status_file node (mkNodeState node "online" 0 (Some now))) ;;;
      init_nodes now rest
  end.

Definition initializeSystem (now : string) : M unit :=
  try_catch
    (init_nodes now NODES ;;;
     let* present := fileExists metadata_json in
     if present then ret tt else write_metadata_file (JObject (Some ∅)))
    (λ _, ret tt).

(** ** Download ([GET /api/download/:fileId]) *)

(** What the download route sends: the reconstructed file under the
    original name ([res.download(filePath, fileInfo.originalName)], the
    name being [None] when the looked-up value has no [originalName]), or
    a 404 with the message of what was thrown: 'File not reconstructed
    yet', or the message of an error of the catalog lookup. *)
Inductive DownloadResponse : Type :=
  | Sent (name : option string) (content : bytes)
  | NotReconstructedYet
  | Error404 (e : Error).

Definition download (fileId : string) : Disk → DownloadResponse * Disk :=
  λ d,
    match (let* metadata := readMetadata in
           let* files := metadata_files metadata in
           match js_get files fileId with
           | Undefined => throw FileNotFound
           | Inherited => ret None
           | Own fileInfo => ret (Some (originalName fileInfo))
           end) d with
    | (Throw e, d') => (Error404 e, d')
    | (Ok name, d') =>
        (* `reconstructed_${fileInfo.originalName}` *)
        let filePath := "reconstructed_" +:+ default "undefined" name in
        match upload_files d' !! filePath with
        | None => (NotReconstructedYet, d')
        | Some content => (Sent name content, d')
        end
    end.

(** ** Node list and dashboard ([getAllNodesStatus], [GET /api/nodes],
       [GET /api/dashboard]) *)

Fixpoint getAllNodesStatus_from (nodes : list string) (statuses : list NodeState)
  : M (list NodeState) :=
  match nodes with
  | [] => ret statuses
  | node :: rest =>
      let* st := getNodeStatus node in
      getAllNodesStatus_from rest (statuses ++ [st])
  end.

Definition getAllNodesStatus : M (list NodeState) :=
  getAllNodesStatus_from NODES [].

(** A value of [chunkDistribution]: a number, or the string that [+ 1]
    makes of a value that is not a number. *)
Inductive JsCount : Type :=
  | Num (n : nat)
  | Text.

(** [chunkDistribution[k] = (chunkDistribution[k] || 0) + 1].  A number
    is incremented ([0 || 0] is [0]); a string stays a string; a missing
    key starts at 1, unless the name is inherited from [Object.prototype]:
    the inherited value is truthy and [+ 1] turns it into a string, which
    is stored, except under "__proto__", where the assignment of a string
    does nothing. *)
Definition count_chunk (dist : gmap string JsCount) (k : string)
  : gmap string JsCount :=
  match dist !! k with
  | Some (Num n) => <[k := Num (n + 1)]> dist
  | Some Text => <[k := Text]> dist
  | None =>
      if decide (k ∈ Object_prototype_keys)
      then (if decide (k = "__proto__") then dist else <[k := Text]> dist)
      else <[k := Num 1]> dist
  end.

(** The node names of all chunk records of all manifests, in the order
    [Object.values] lists them. *)
Definition chunk_nodes (files : gmap string FileManifest) : list string :=
  (map_to_list files).*2 ≫= λ file, node <$> (map_to_list (chunks file)).*2.

Record Dashboard : Type := mkDashboard {
  db_nodes : list NodeState;
  db_totalFiles : nat;
  db_totalChunks : nat;
  db_chunkDistribution : gmap string JsCount
}.

(** The dashboard body without [systemUptime]. *)
Definition dashboard_body : M Dashboard :=
  let* nodes := getAllNodesStatus in
  let* metadata := readMetadata in
  let* files := metadata_files metadata in
  let totalFiles := base.size files in
  let totalChunks := foldl (λ sum file, sum + totalChunks file) 0
                           (map_to_list files).*2 in
  let chunkDistribution :=
    foldl count_chunk (foldl (λ dist node, <[node := Num 0]> dist) ∅ NODES)
          (chunk_nodes files) in
  ret (mkDashboard nodes totalFiles totalChunks chunkDistribution).

Definition dashboard : Disk → Response Dashboard * Disk :=
  respond dashboard_body.

(** ** Runs of requests *)

Inductive Request : Type :=
  | ReqRestart (now : string)
  | ReqUpload (now : string) (req : UploadRequest)
  | ReqReconstruct (fileId : string)
  | ReqToggle (now : string) (id : string) (req_status : option string)
  | ReqDownload (fileId : string)
  | ReqDashboard.

(** The disk a request leaves. *)
Definition handle (generateHash : bytes → string) (CHUNK_SIZE : nat)
    (r : Request) (d : Disk) : Disk :=
  match r with
  | ReqRestart now => (initializeSystem now d).2
  | ReqUpload now req => (upload generateHash CHUNK_SIZE now req d).2
  | ReqReconstruct fileId => (reconstruct generateHash fileId d).2
  | ReqToggle now id req_status => (toggle now id req_status d).2
  | ReqDownload fileId => (download fileId d).2
  | ReqDashboard => (dashboard d).2
  end.

Definition run (generateHash : bytes → string) (CHUNK_SIZE : nat)
    (rs : list Request) (d : Disk) : Disk :=
  foldl (λ d r, handle generateHash CHUNK_SIZE r d) d rs.

(** The disks the server can be on: it was first started in an empty
    directory and has since served requests one at a time. *)
Definition reachable (generateHash : bytes → string) (CHUNK_SIZE : nat)
    (d : Disk) : Prop :=
  ∃ now rs, d = run generateHash CHUNK_SIZE rs (initializeSystem now empty_disk).2.

(** ** File names *)


(** ** More concrete disks *)

(** The initial disk with the metadata file overwritten by text that is
    not JSON. *)
Definition garbled_metadata_disk : Disk :=
  mkDisk (Some (NotJson "{files:")) (status_json (initial_disk "t0")) ∅ ∅.

Definition one_byte_id : string := "1700000000003-bbbbbbbbb".

(** [hello_disk] after a second upload, of one byte. *)
Definition two_files_disk : Disk :=
  (upload demo_hash 2 "t2" (one_byte_request one_byte_id) hello_disk).2.

(** A manifest that announces two chunks and records one, and a disk
    whose catalog holds it. *)
Definition truncated_manifest : FileManifest :=
  mkFileManifest "1700000000004-ccccccccc" "c.bin" 3 2 "t1" "abc"
    {[ 0 := mkChunkRecord 0 "node1" "ab" 2
              ("node1", "1700000000004-ccccccccc", 0) ]}.

Definition truncated_manifest_disk : Disk :=
  mkDisk (Some (Json (JObject (Some
            {[ "1700000000004-ccccccccc" := truncated_manifest ]}))))
         (status_json (initial_disk "t0"))
         {[ ("node1", "1700000000004-ccccccccc", 0) := ["a"; "b"]%byte ]}
         ∅.

(** [hello_disk] after the chunk file of chunk 1 has been deleted from
    node2. *)
Definition hello_disk_chunk1_lost : Disk :=
  mkDisk (metadata_json hello_disk) (status_json hello_disk)
         (delete ("node2", "1700000000000-k3j9x2q1z", 1) (node_files hello_disk))
         (upload_files hello_disk).

(** [hello_disk] after every node has been toggled off. *)
Definition hello_disk_all_off : Disk :=
  foldl (λ d id, (toggle "t2" id None d).2) hello_disk NODES.

(** A second file with the original name of [hello_request]. *)
Definition hello_twin_request : UploadRequest :=
  mkUploadRequest "hello.txt" "1700000000005-ddddddddd" 3 ["b"; "y"; "e"]%byte.



(** ** Invariants of the disk *)

(** The manifest [m] catalogued under [fileId] is intact on [d]: there
    are byte sequences, one per chunk index below [totalChunks], whose
    join has the recorded file digest, and each of them is the content of
    the chunk file of its index on the recorded node, which is a node of
    the population, and has the recorded chunk digest; the manifest
    records no other index. *)
Definition intact (generateHash : bytes → string) (d : Disk)
    (fileId : string) (m : FileManifest) : Prop :=
  ∃ bs : list bytes,
    length bs = totalChunks m ∧
    generateHash (concat bs) = fileHash m ∧
    (∀ j, totalChunks m ≤ j → chunks m !! j = None) ∧
    ∀ j b, bs !! j = Some b →
      ∃ r, chunks m !! j = Some r ∧ node r ∈ NODES ∧
           hash r = generateHash b ∧
           node_files d !! (node r, fileId, j) = Some b.

(** The catalog reads as a catalog, every catalogued manifest is intact,
    and every node reports a chunk count of 0. *)
Definition healthy (generateHash : bytes → string) (d : Disk) : Prop :=
  (∃ files, metadata_of d = JObject (Some files)) ∧
  manifest_of d "__proto__" = None ∧
  (∀ fileId m, manifest_of d fileId = Some m → intact generateHash d fileId m) ∧
  ∀ id, chunkCount (node_state d id) = 0.

(** The number of chunks the dashboard shows for node [k]. *)
Definition shown_count (db : Dashboard) (k : string) : nat :=
  match db_chunkDistribution db !! k with
  | Some (Num n) => n
  | _ => 0
  end.

(** A disk the server reaches: first start, the upload of [hello], node2
    toggled off, a reconstruction attempt. *)
Definition served_requests : list Request :=
  [ReqUpload "t1" hello_request; ReqToggle "t2" "node2" None;
   ReqReconstruct "1700000000000-k3j9x2q1z"].

Definition served_disk : Disk :=
  run demo_hash 2 served_requests (initializeSystem "t0" empty_disk).2.


(** * The upload handler between its awaits *)

(** An asynchronous function cut at its awaits.  [Await op k] issues the
    file-system operation [op] and goes on with [k] on its result; an
    operation that fails makes the function throw at that point.  While
    the function waits the server goes on serving other requests. *)
Inductive Async (A : Type) : Type :=
  | Done (a : A)
  | Fail (e : Error)
  | Await {X : Type} (op : M X) (k : X → Async A).
Arguments Done {A} a.
Arguments Fail {A} e.
Arguments Await {A X} op k.

Fixpoint abind {A B} (p : Async A) (k : A → Async B) : Async B :=
  match p with
  | Done a => k a
  | Fail e => Fail e
  | Await op k' => Await op (λ x, abind (k' x) k)
  end.

Declare Scope async_scope.
Delimit Scope async_scope with async.
Notation "'await*' x := op 'in' k" := (Await op (λ x, k))
  (at level 10, x pattern, op at level 100, k at level 200) : async_scope.
Notation "'call*' x := p 'in' k" := (abind p (λ x, k))
  (at level 10, x pattern, p at level 100, k at level 200) : async_scope.

(** What the other requests in flight do to the disk while a call waits:
    the entry of position [n] is applied just before the operation of
    the call's [n]-th await takes effect; past the end of the list
    nothing else happens. *)
Definition Others : Type := list (Disk → Disk).

(** The run of an asynchronous function among other requests: its
    outcome, the disk it leaves, and what is left of the schedule. *)
Fixpoint exec {A} (p : Async A) (others : Others) (d : Disk)
  : result A * Disk * Others :=
  match p with
  | Done a => (Ok a, d, others)
  | Fail e => (Throw e, d, others)
  | Await op k =>
      match op (hd id others d) with
      | (Ok x, d') => exec (k x) (tl others) d'
      | (Throw e, d') => (Throw e, d', tl others)
      end
  end.

(** [fs.readFile] and [fs.unlink] on a file of the uploads directory. *)
Definition read_upload_file (name : string) : M bytes :=
  λ d, match upload_files d !! name with
       | Some b => (Ok b, d)
       | None => (Throw ENOENT, d)
       end.

Definition unlink_upload_file (name : string) : M unit :=
  λ d, match upload_files d !! name with
       | Some _ => (Ok tt, mkDisk (metadata_json d) (status_json d) (node_files d)
                                 (delete name (upload_files d)))
       | None => (Throw ENOENT, d)
       end.

(** [req.file] as the intake layer (multer) hands it to the upload
    handler, after it has written the uploaded bytes to
    [uploads/<filename>]; [sf_fileId] is
    [path.basename(filename, path.extname(filename))]. *)
Record StagedFile : Type := mkStagedFile {
  sf_originalname : string;
  sf_filename : string;
  sf_fileId : string;
  sf_size : nat
}.

(** The request the handler works on once it has read the staged
    bytes. *)
Definition request_of (file : StagedFile) (fileBuffer : bytes) : UploadRequest :=
  mkUploadRequest (sf_originalname file) (sf_fileId file) (sf_size file) fileBuffer.

Section ServerAsync.

Variable generateHash : bytes → string.
Variable CHUNK_SIZE : nat.

Local Open Scope async_scope.

(** [updateNodeStatus]: two awaits, the read and the write. *)
Definition updateNodeStatus_async (now : string) (id : string) (status' : string)
  : Async NodeState :=
  await* nodeStatus := getNodeStatus id in
  let nodeStatus := mkNodeState (nodeId nodeStatus) status'
                                (chunkCount nodeStatus) (Some now) in
  await* _ := write_status_file id nodeStatus in
  Done nodeStatus.

(** The node scan: one await per candidate. *)
Fixpoint find_node_async (attempts : nat) (nodeIndex : nat)
  : Async (option string * nat) :=
  match attempts with
  | 0 => Done (None, nodeIndex)
  | S attempts' =>
      let id := nth (nodeIndex mod length NODES) NODES "" in
      await* nodeStatus := getNodeStatus id in
      if decide (status nodeStatus = "online")
      then Done (Some id, S nodeIndex)
      else find_node_async attempts' (S nodeIndex)
  end.

(** The placement loop. *)
Fixpoint place_chunks_async (now : string) (req : UploadRequest)
    (todo : nat) (i : nat) (nodeIndex : nat) (chunks : gmap nat ChunkRecord)
  : Async (gmap nat ChunkRecord) :=
  match todo with
  | 0 => Done chunks
  | S todo' =>
      let chunk := chunkBuffer CHUNK_SIZE (up_fileBuffer req) i in
      let chunkHash := generateHash chunk in
      call* (assignedNode, nodeIndex) := find_node_async (length NODES) nodeIndex in
      match assignedNode with
      | None => Fail NoOnlineNodes
      | Some assignedNode =>
          let chunkPath := (assignedNode, up_fileId req, i) in
          await* _ := write_node_file chunkPath chunk in
          await* nodeStatus := getNodeStatus assignedNode in
          (* nodeStatus.chunkCount++ : on this object only *)
          call* _ := updateNodeStatus_async now assignedNode (status nodeStatus) in
          let chunks := <[i := mkChunkRecord i assignedNode chunkHash
                                             (length chunk) chunkPath]> chunks in
          place_chunks_async now req todo' (S i) nodeIndex chunks
      end
  end.

(** The handler of [POST /api/upload]; [file] is [req.file], [None] when
    the request carries no file part.  On success the staged file is
    removed; no path removes it, or anything else, on failure. *)
Definition upload_async (now : string) (file : option StagedFile) : Async UploadOk :=
  match file with
  | None => Fail TypeError (* destructuring [req.file] that is undefined *)
  | Some file =>
      let fileId := sf_fileId file in
      await* fileBuffer := read_upload_file (sf_filename file) in
      let req := request_of file fileBuffer in
      let totalChunks := Math_ceil_div (length fileBuffer) CHUNK_SIZE in
      await* metadata := readMetadata in
      match metadata with
      | JNull | JObject None => Fail TypeError
      | JObject (Some files) =>
          let manifest := mkFileManifest fileId (sf_originalname file) (sf_size file)
                                         totalChunks now (generateHash fileBuffer) in
          call* chunks := place_chunks_async now req totalChunks 0 0 ∅ in
          await* _ := writeMetadata (JObject (Some (js_set files fileId (manifest chunks)))) in
          await* _ := unlink_upload_file (sf_filename file) in
          Done (mkUploadOk fileId (sf_originalname file) totalChunks)
      end
  end.

(** The answer of the handler and the disk it leaves when the other
    requests in flight act as [others] says. *)
Definition upload_among (now : string) (file : option StagedFile)
    (others : Others) (d : Disk) : Response UploadOk * Disk :=
  match exec (upload_async now file) others d with
  | (Ok a, d', _) => (Json200 a, d')
  | (Throw e, d', _) => (Error500 e, d')
  end.

End ServerAsync.

(** The disk once the staged file has been removed. *)
Definition unstaged (file : StagedFile) (d : Disk) : Disk :=
  mkDisk (metadata_json d) (status_json d) (node_files d)
         (delete (sf_filename file) (upload_files d)).

(** [d'] has the catalog file and the uploads directory of [d]. *)
Definition same_catalog (d d' : Disk) : Prop :=
  metadata_json d' = metadata_json d ∧ upload_files d' = upload_files d.

(** [d'] has the catalog file and the uploads directory of [d], and its
    chunk files are those of [d] but for chunk files of file [fileId],
    which hold the chunk [chunk j] of their index. *)
Definition chunks_added (fileId : string) (chunk : nat → bytes) (d d' : Disk)
  : Prop :=
  same_catalog d d' ∧
  ∀ x f j, node_files d' !! (x, f, j) = node_files d !! (x, f, j) ∨
           (f = fileId ∧ node_files d' !! (x, f, j) = Some (chunk j)).

(** A request that takes every disk to one related to it by [R]. *)
Definition keeps (R : Disk → Disk → Prop) (f : Disk → Disk) : Prop :=
  ∀ d, R d (f d).

(** A request that writes neither the catalog file nor the uploads
    directory. *)
Definition keeps_catalog : (Disk → Disk) → Prop := keeps same_catalog.

(** A request that writes status files only, as a toggle does. *)
Definition writes_status_only (f : Disk → Disk) : Prop :=
  ∀ d, same_catalog d (f d) ∧ node_files (f d) = node_files d.

(** Every operation of the function takes a disk to one related to it by
    [R]. *)
Inductive within (R : Disk → Disk → Prop) {A : Type} : Async A → Prop :=
  | within_Done (a : A) : within R (Done a)
  | within_Fail (e : Error) : within R (Fail e)
  | within_Await {X : Type} (op : M X) (k : X → Async A) :
      (∀ d, R d (op d).2) → (∀ x, within R (k x)) → within R (Await op k).

(** ** Concrete runs *)

(** The file of [hello_request] as the intake layer stages it. *)
Definition hello_file : StagedFile :=
  mkStagedFile "hello.txt" "1700000000000-k3j9x2q1z.txt" "1700000000000-k3j9x2q1z" 5.

(** A disk with the bytes of [hello] staged for upload. *)
Definition staged (d : Disk) : Disk :=
  mkDisk (metadata_json d) (status_json d) (node_files d)
         (<["1700000000000-k3j9x2q1z.txt" := hello]> (upload_files d)).

(** The initial disk with node1 the only node online. *)
Definition only_node1_disk : Disk :=
  foldl (λ d id, (toggle "t1" id None d).2) (initial_disk "t0")
        ["node2"; "node3"; "node4"].

(** While the upload of [hello] waits for the scan of its second chunk, a
    toggle request takes node1 offline.  The first seven operations of
    the upload are the read of the staged file, the read of the catalog,
    the scan that finds node1, the write of chunk 0 and the three
    operations on the status record of node1. *)
Definition node1_goes_offline : Others :=
  replicate 7 id ++ [λ d, (toggle "t2" "node1" None d).2].
(** * The node registry *)

Lemma getNodeStatus_run (id : string) (d : Disk) :
  getNodeStatus id d = (Ok (node_state d id), d).
Proof.
  unfold getNodeStatus, try_catch, node_state.
  destruct (status_json d !! id) as [[| |v]|]; reflexivity.
Qed.

(** C7: [getNodeStatus] returns on every disk and for every node id,
    leaving the disk as it was; when the node has no status record (no
    file, an unreadable one, or one that is not JSON) the value is the
    synthesized state: status offline, chunk count 0, no lastSeen. *)
Theorem getNodeStatus_never_fails (d : Disk) (id : string) :
  (∃ st, getNodeStatus id d = (Ok st, d)) ∧
  ((∀ v, status_json d !! id ≠ Some (Json v)) →
   getNodeStatus id d = (Ok (mkNodeState id "offline" 0 None), d)).
Proof.
  split.
  - exists (node_state d id). apply getNodeStatus_run.
  - intros Hno. rewrite getNodeStatus_run. unfold node_state.
    destruct (status_json d !! id) as [[| |v]|]; try reflexivity.
    exfalso. by apply (Hno v).
Qed.

Lemma getNodeStatus_never_fails_witness :
  getNodeStatus "node1" empty_disk
  = (Ok (mkNodeState "node1" "offline" 0 None), empty_disk).
Proof.
  apply (proj2 (getNodeStatus_never_fails empty_disk "node1")).
  intros v. simpl. rewrite lookup_empty. discriminate.
Defined.

Lemma updateNodeStatus_run (now id s : string) (d : Disk) :
  updateNodeStatus now id s d
  = let st := mkNodeState (nodeId (node_state d id)) s
                          (chunkCount (node_state d id)) (Some now) in
    (Ok st, mkDisk (metadata_json d) (<[id := Json st]> (status_json d))
                   (node_files d) (upload_files d)).
Proof.
  unfold updateNodeStatus, bind. rewrite getNodeStatus_run. reflexivity.
Qed.

Lemma node_state_insert (d : Disk) (id id' : string) (st : NodeState) mj nf uf :
  node_state (mkDisk mj (<[id := Json st]> (status_json d)) nf uf) id'
  = if decide (id = id') then st else node_state d id'.
Proof.
  unfold node_state. simpl. rewrite lookup_insert.
  destruct (decide (id = id')); reflexivity.
Qed.

(** * The catalog *)

Lemma readMetadata_run (d : Disk) : readMetadata d = (Ok (metadata_of d), d).
Proof.
  unfold readMetadata, try_catch, metadata_of.
  destruct (metadata_json d) as [[| |v]|]; reflexivity.
Qed.

(** * The node scan *)

Lemma length_NODES : length NODES = 4.
Proof. reflexivity. Qed.

Lemma NODES_nonempty : length NODES ≠ 0.
Proof. discriminate. Qed.

(** The proofs below use [NODES] through these two facts only. *)
#[local] Opaque NODES.

Lemma find_node_run (attempts nodeIndex : nat) (d : Disk) :
  find_node attempts nodeIndex d = (Ok (scan d attempts nodeIndex), d).
Proof.
  revert nodeIndex. induction attempts as [|a IH]; intros c; simpl; [reflexivity|].
  unfold bind. rewrite getNodeStatus_run.
  unfold is_online.
  destruct (decide (status (node_state d (nth (c mod length NODES) NODES "")) = "online"));
    [reflexivity | apply IH].
Qed.

Lemma scan_ext (d d' : Disk) (attempts nodeIndex : nat) :
  (∀ id, is_online d' id ↔ is_online d id) →
  scan d' attempts nodeIndex = scan d attempts nodeIndex.
Proof.
  intros Hsame. revert nodeIndex.
  induction attempts as [|a IH]; intros c; simpl; [reflexivity|].
  destruct (decide (is_online d' _)) as [H'|H'], (decide (is_online d _)) as [H|H];
    try reflexivity; try apply IH; exfalso.
  - apply H, Hsame, H'.
  - apply H', Hsame, H.
Qed.

Lemma NODES_nth_elem (k : nat) : nth (k mod length NODES) NODES "" ∈ NODES.
Proof.
  apply list_elem_of_In, nth_In, Nat.mod_upper_bound, NODES_nonempty.
Qed.

(** A node the scan returns is an online member of the population, and
    the cursor has moved past it. *)
Lemma scan_Some (d : Disk) (attempts c : nat) (id : string) (c' : nat) :
  scan d attempts c = (Some id, c') →
  id ∈ NODES ∧ is_online d id ∧ c < c' ∧ c' ≤ c + attempts ∧
  id = nth ((c' - 1) mod length NODES) NODES "".
Proof.
  revert c. induction attempts as [|a IH]; intros c; simpl; [discriminate|].
  destruct (decide (is_online d _)) as [H|H].
  - intros [= <- <-]. replace (S c - 1) with c by lia.
    repeat split; [apply NODES_nth_elem | exact H | lia | lia].
  - intros Hs. destruct (IH _ Hs) as (? & ? & ? & ? & ?).
    repeat split; [done | done | lia | lia | done].
Qed.

(** A scan that gives up has seen every visited candidate offline. *)
Lemma scan_None (d : Disk) (attempts c c' : nat) :
  scan d attempts c = (None, c') →
  c' = c + attempts ∧
  ∀ k, k < attempts → ¬ is_online d (nth ((c + k) mod length NODES) NODES "").
Proof.
  revert c. induction attempts as [|a IH]; intros c; simpl.
  - intros [= <-]. split; [lia | intros k Hk; lia].
  - destruct (decide (is_online d _)) as [H|H]; [discriminate|].
    intros Hs. destruct (IH _ Hs) as [-> Hall]. split; [lia|].
    intros [|k] Hk.
    + by rewrite Nat.add_0_r.
    + replace (c + S k) with (S c + k) by lia. apply Hall. lia.
Qed.

(** Starting anywhere, [length NODES] consecutive cursor positions visit
    every node of the population. *)
Lemma cursor_reaches (c j : nat) :
  j < length NODES →
  ∃ k, k < length NODES ∧ (c + k) mod length NODES = j.
Proof.
  set (n := length NODES). intros Hj.
  assert (Hn : n ≠ 0) by apply NODES_nonempty.
  pose proof (Nat.mod_upper_bound c n Hn) as Hc.
  exists ((j + n - c mod n) mod n). split.
  - by apply Nat.mod_upper_bound.
  - rewrite Nat.Div0.add_mod_idemp_r.
    rewrite (Nat.div_mod_eq c n) at 1.
    replace (n * (c / n) + c mod n + (j + n - c mod n))
      with (j + (1 + c / n) * n) by lia.
    rewrite Nat.Div0.mod_add. by apply Nat.mod_small.
Qed.

Lemma scan_finds_online (d : Disk) (c : nat) (id : string) :
  id ∈ NODES → is_online d id →
  ∃ id' c', scan d (length NODES) c = (Some id', c').
Proof.
  intros Hin Hon.
  destruct (scan d (length NODES) c) as [[id'|] c'] eqn:Hs; [by eauto|].
  exfalso. apply scan_None in Hs as [_ Hall].
  apply list_elem_of_lookup in Hin as [j Hj].
  pose proof (lookup_lt_Some _ _ _ Hj) as Hlt.
  destruct (cursor_reaches c j Hlt) as (k & Hk & Hmod).
  apply (Hall k Hk). rewrite Hmod.
  rewrite (nth_lookup_Some _ _ _ _ Hj). exact Hon.
Qed.

Lemma scan_all_offline (d : Disk) (attempts c : nat) :
  (∀ id, id ∈ NODES → ¬ is_online d id) →
  scan d attempts c = (None, c + attempts).
Proof.
  intros Hoff. revert c. induction attempts as [|a IH]; intros c; simpl.
  - f_equal. lia.
  - destruct (decide (is_online d _)) as [H|H].
    + exfalso. exact (Hoff _ (NODES_nth_elem c) H).
    + rewrite IH. f_equal. lia.
Qed.

Lemma scan_all_online (d : Disk) (attempts c : nat) :
  (∀ id, id ∈ NODES → is_online d id) →
  scan d (S attempts) c = (Some (nth (c mod length NODES) NODES ""), S c).
Proof.
  intros Hon. simpl.
  destruct (decide (is_online d _)) as [H|H]; [reflexivity|].
  exfalso. exact (H (Hon _ (NODES_nth_elem c))).
Qed.

(** From cursor 0 the scan returns the first online node in population
    order. *)
Lemma scan_from_zero (d : Disk) (attempts : nat) (id : string) (c' : nat) :
  attempts ≤ length NODES →
  scan d attempts (length NODES - attempts) = (Some id, c') →
  ∃ j, NODES !! j = Some id ∧ length NODES - attempts ≤ j ∧ c' = S j ∧
       ∀ k id', length NODES - attempts ≤ k → k < j → NODES !! k = Some id' →
                ¬ is_online d id'.
Proof.
  revert c'. induction attempts as [|a IH]; intros c' Hle; simpl; [discriminate|].
  assert (Hlt : length NODES - S a < length NODES)
    by (pose proof NODES_nonempty; lia).
  rewrite (Nat.mod_small _ _ Hlt).
  destruct (lookup_lt_is_Some_2 NODES _ Hlt) as [x Hx].
  rewrite (nth_lookup_Some _ _ "" _ Hx).
  destruct (decide (is_online d x)) as [H|H].
  - intros [= <- <-]. exists (length NODES - S a).
    split; [done|]. split; [lia|]. split; [done|]. intros; lia.
  - replace (S (length NODES - S a)) with (length NODES - a) by lia.
    intros Hs. destruct (IH c' ltac:(lia) Hs) as (j & Hj & Hge & -> & Hoff).
    exists j. split; [done|]. split; [lia|]. split; [done|].
    intros k id' Hk1 Hk2 Hk.
    destruct (decide (k = length NODES - S a)) as [->|Hne].
    + rewrite Hx in Hk. by injection Hk as <-.
    + apply (Hoff k); [lia | done | done].
Qed.

Lemma scan_first_online (d : Disk) (id : string) (c' : nat) :
  scan d (length NODES) 0 = (Some id, c') →
  ∃ j, NODES !! j = Some id ∧ c' = S j ∧
       ∀ k id', k < j → NODES !! k = Some id' → ¬ is_online d id'.
Proof.
  intros Hs.
  destruct (scan_from_zero d (length NODES) id c') as (j & Hj & _ & Hc & Hoff).
  - done.
  - by rewrite Nat.sub_diag.
  - exists j. split; [done|]. split; [done|].
    intros k id' Hk. apply Hoff; [lia | done].
Qed.

Lemma scan_population_all_online (d : Disk) (c : nat) :
  (∀ id, id ∈ NODES → is_online d id) →
  scan d (length NODES) c = (Some (nth (c mod length NODES) NODES ""), S c).
Proof.
  intros Hon. pose proof (scan_all_online d (length NODES - 1) c Hon) as Hs.
  replace (S (length NODES - 1)) with (length NODES) in Hs
    by (pose proof NODES_nonempty; lia).
  exact Hs.
Qed.

Lemma NODES_NoDup : NoDup NODES.
Proof. apply (bool_decide_unpack _). vm_compute. exact I. Qed.

(** Positions of the population are told apart by the node found there. *)
Lemma NODES_nth_inj (i j : nat) :
  nth (i mod length NODES) NODES "" = nth (j mod length NODES) NODES "" ↔
  i mod length NODES = j mod length NODES.
Proof.
  split; [|by intros ->].
  pose proof (Nat.mod_upper_bound i _ NODES_nonempty) as Hi.
  pose proof (Nat.mod_upper_bound j _ NODES_nonempty) as Hj.
  destruct (lookup_lt_is_Some_2 NODES _ Hi) as [x Hx].
  destruct (lookup_lt_is_Some_2 NODES _ Hj) as [y Hy].
  rewrite (nth_lookup_Some _ _ "" _ Hx), (nth_lookup_Some _ _ "" _ Hy).
  intros <-. by eapply NoDup_lookup; [apply NODES_NoDup | |].
Qed.

(** A successful scan from cursor [c] has skipped [k] offline candidates
    and returned the next one, leaving the cursor just past it. *)
Lemma scan_skips (d : Disk) (attempts c : nat) (x : string) (c' : nat) :
  scan d attempts c = (Some x, c') →
  ∃ k, k < attempts ∧ c' = S (c + k) ∧
       x = nth ((c + k) mod length NODES) NODES "" ∧ is_online d x ∧
       ∀ k', k' < k → ¬ is_online d (nth ((c + k') mod length NODES) NODES "").
Proof.
  revert c. induction attempts as [|a IH]; intros c; simpl; [discriminate|].
  destruct (decide (is_online d _)) as [H|H].
  - intros [= <- <-]. exists 0. rewrite Nat.add_0_r.
    split; [lia|]. split; [done|]. split; [done|]. split; [done|]. intros; lia.
  - intros Hs. destruct (IH _ Hs) as (k & Hk & -> & -> & Hon & Hoff).
    exists (S k). replace (c + S k) with (S c + k) by lia.
    split; [lia|]. split; [done|]. split; [done|]. split; [done|].
    intros [|k'] Hk'.
    + by rewrite Nat.add_0_r.
    + replace (c + S k') with (S c + k') by lia. apply Hoff. lia.
Qed.

(** The node at a cursor position, as an entry of the population. *)
Lemma NODES_lookup_nth (c : nat) :
  NODES !! (c mod length NODES) = Some (nth (c mod length NODES) NODES "").
Proof.
  pose proof (Nat.mod_upper_bound c _ NODES_nonempty) as Hc.
  destruct (lookup_lt_is_Some_2 NODES _ Hc) as [x Hx].
  by rewrite (nth_lookup_Some _ _ "" _ Hx).
Qed.

(** The position of a node in the population is the cursor position it
    was found at. *)
Lemma position_of_cursor (c p : nat) (x : string) :
  x = nth (c mod length NODES) NODES "" → NODES !! p = Some x →
  c mod length NODES = p.
Proof.
  intros Hx Hp. pose proof (lookup_lt_Some _ _ _ Hp) as Hlt.
  rewrite <- (Nat.mod_small p (length NODES) Hlt). apply NODES_nth_inj.
  rewrite <- Hx, (Nat.mod_small p _ Hlt). symmetry.
  by apply nth_lookup_Some.
Qed.

(** * Chunking *)

Section Chunking.

Variable CHUNK_SIZE : nat.
Hypothesis CHUNK_SIZE_pos : 0 < CHUNK_SIZE.

(** [Math_ceil_div] is the ceiling of the quotient. *)
Lemma Math_ceil_div_spec (L : nat) :
  L ≤ Math_ceil_div L CHUNK_SIZE * CHUNK_SIZE ∧
  Math_ceil_div L CHUNK_SIZE * CHUNK_SIZE < L + CHUNK_SIZE.
Proof.
  unfold Math_ceil_div.
  pose proof (Nat.div_mod_eq L CHUNK_SIZE) as Hdiv.
  pose proof (Nat.mod_upper_bound L CHUNK_SIZE ltac:(lia)) as Hmod.
  destruct (Nat.eqb_spec (L mod CHUNK_SIZE) 0) as [Hz|Hnz]; nia.
Qed.

Lemma Math_ceil_div_unique (L n : nat) :
  L ≤ n * CHUNK_SIZE → n * CHUNK_SIZE < L + CHUNK_SIZE →
  n = Math_ceil_div L CHUNK_SIZE.
Proof.
  intros H1 H2. destruct (Math_ceil_div_spec L) as [H3 H4]. nia.
Qed.

Lemma chunkBuffer_take (b : bytes) (i : nat) :
  chunkBuffer CHUNK_SIZE b i = take CHUNK_SIZE (drop (i * CHUNK_SIZE) b).
Proof.
  unfold chunkBuffer, slice.
  destruct (decide (i * CHUNK_SIZE + CHUNK_SIZE ≤ length b)) as [Hle|Hgt].
  - f_equal. lia.
  - rewrite !take_ge; [done | | ]; rewrite length_drop; lia.
Qed.

Lemma length_chunkBuffer (b : bytes) (i : nat) :
  length (chunkBuffer CHUNK_SIZE b i) = CHUNK_SIZE `min` (length b - i * CHUNK_SIZE).
Proof. by rewrite chunkBuffer_take, length_take, length_drop. Qed.

(** Every chunk but the last is full. *)
Lemma length_chunkBuffer_full (b : bytes) (i : nat) :
  S i < Math_ceil_div (length b) CHUNK_SIZE →
  length (chunkBuffer CHUNK_SIZE b i) = CHUNK_SIZE.
Proof.
  intros Hi. rewrite length_chunkBuffer.
  destruct (Math_ceil_div_spec (length b)) as [H1 H2]. nia.
Qed.

(** The last chunk holds the remainder, or a full chunk when there is
    none. *)
Lemma length_chunkBuffer_last (b : bytes) (i : nat) :
  S i = Math_ceil_div (length b) CHUNK_SIZE →
  length (chunkBuffer CHUNK_SIZE b i)
  = if length b mod CHUNK_SIZE =? 0 then CHUNK_SIZE else length b mod CHUNK_SIZE.
Proof.
  intros Hi. rewrite length_chunkBuffer. revert Hi. unfold Math_ceil_div.
  pose proof (Nat.div_mod_eq (length b) CHUNK_SIZE) as Hdiv.
  pose proof (Nat.mod_upper_bound (length b) CHUNK_SIZE ltac:(lia)) as Hmod.
  destruct (Nat.eqb_spec (length b mod CHUNK_SIZE) 0) as [Hz|Hnz]; intros Hi; nia.
Qed.

(** The first [n] chunks, joined in index order, are the first
    [n * CHUNK_SIZE] bytes. *)
Lemma concat_chunkBuffer (b : bytes) (n : nat) :
  concat (map (chunkBuffer CHUNK_SIZE b) (seq 0 n)) = take (n * CHUNK_SIZE) b.
Proof.
  induction n as [|n IH]; [done|].
  rewrite seq_S, map_app, concat_app, IH. simpl.
  rewrite app_nil_r, chunkBuffer_take, take_take_drop. f_equal. lia.
Qed.

Lemma concat_all_chunks (b : bytes) :
  concat (map (chunkBuffer CHUNK_SIZE b)
              (seq 0 (Math_ceil_div (length b) CHUNK_SIZE))) = b.
Proof.
  rewrite concat_chunkBuffer. apply take_ge.
  by destruct (Math_ceil_div_spec (length b)).
Qed.

End Chunking.

(** * The placement loop *)

Lemma same_registry_refl (d : Disk) : same_registry d d.
Proof. by repeat split. Qed.

Lemma same_registry_trans (d1 d2 d3 : Disk) :
  same_registry d1 d2 → same_registry d2 d3 → same_registry d1 d3.
Proof.
  intros (Hm & Hu & Hs) (Hm' & Hu' & Hs'). split; [congruence|].
  split; [congruence|]. intros id.
  destruct (Hs id), (Hs' id). split; congruence.
Qed.

Lemma same_registry_online (d d' : Disk) (id : string) :
  same_registry d d' → is_online d' id ↔ is_online d id.
Proof. intros (_ & _ & Hs). unfold is_online. by destruct (Hs id) as [-> _]. Qed.

Lemma placed_same_registry (now : string) (d : Disk) (id : string)
    (p : string * string * nat) (chunk : bytes) :
  same_registry d (placed now d id p chunk).
Proof.
  split; [done|]. split; [done|]. intros id'.
  unfold placed. rewrite node_state_insert.
  by destruct (decide (id = id')) as [->|].
Qed.

Lemma assignment_ext (d d' : Disk) (todo c : nat) :
  same_registry d d' → assignment d' todo c = assignment d todo c.
Proof.
  intros Hsame. revert c. induction todo as [|t IH]; intros c; simpl; [done|].
  rewrite (scan_ext d d') by (intros; by apply same_registry_online).
  destruct (scan d (length NODES) c) as [[x|] c']; [|done]. by rewrite IH.
Qed.

Lemma assignment_elem (d : Disk) (todo c : nat) (x : string) :
  x ∈ assignment d todo c → x ∈ NODES ∧ is_online d x.
Proof.
  revert c. induction todo as [|t IH]; intros c; simpl.
  - by intros ?%elem_of_nil.
  - destruct (scan d (length NODES) c) as [[y|] c'] eqn:Hs;
      [|by intros ?%elem_of_nil].
    intros [->|Hin]%elem_of_cons; [|by eapply IH].
    by destruct (scan_Some _ _ _ _ _ Hs) as (? & ? & _).
Qed.

Section Placement.

Variable generateHash : bytes → string.
Variable CHUNK_SIZE : nat.
Variable now : string.
Variable req : UploadRequest.


(** One round of the loop. *)
Lemma place_chunks_S (todo i c : nat) (chunks : gmap nat ChunkRecord) (d : Disk) :
  place_chunks generateHash CHUNK_SIZE now req (S todo) i c chunks d
  = match scan d (length NODES) c with
    | (Some x, c') =>
        place_chunks generateHash CHUNK_SIZE now req todo (S i) c'
          (<[i := chunk_record generateHash CHUNK_SIZE req i x]> chunks)
          (placed now d x (x, up_fileId req, i)
                  (chunkBuffer CHUNK_SIZE (up_fileBuffer req) i))
    | (None, _) => (Throw NoOnlineNodes, d)
    end.
Proof.
  simpl. unfold bind at 1. rewrite find_node_run.
  destruct (scan d (length NODES) c) as [[x|] c']; [|done].
  unfold bind at 1, write_node_file at 1.
  unfold bind at 1. rewrite getNodeStatus_run.
  unfold bind at 1. rewrite updateNodeStatus_run. reflexivity.
Qed.

(** With no node online the first round throws, and nothing has been
    written. *)
Lemma place_chunks_no_online (todo i c : nat) (chunks : gmap nat ChunkRecord)
    (d : Disk) :
  (∀ id, id ∈ NODES → ¬ is_online d id) →
  place_chunks generateHash CHUNK_SIZE now req (S todo) i c chunks d
  = (Throw NoOnlineNodes, d).
Proof. intros Hoff. by rewrite place_chunks_S, scan_all_offline. Qed.

(** With some node online the loop runs to its end. *)
Lemma place_chunks_spec (todo : nat) :
  ∀ (i c : nat) (chunks : gmap nat ChunkRecord) (d : Disk),
  (∃ id, id ∈ NODES ∧ is_online d id) →
  ∃ chunks' d',
    place_chunks generateHash CHUNK_SIZE now req todo i c chunks d
    = (Ok chunks', d') ∧
    same_registry d d' ∧
    length (assignment d todo c) = todo ∧
    (∀ j, j < i ∨ i + todo ≤ j → chunks' !! j = chunks !! j) ∧
    (∀ k x, assignment d todo c !! k = Some x →
       chunks' !! (i + k)
       = Some (chunk_record generateHash CHUNK_SIZE req (i + k) x) ∧
       node_files d' !! (x, up_fileId req, i + k)
       = Some (chunkBuffer CHUNK_SIZE (up_fileBuffer req) (i + k))) ∧
    (∀ x f j, f ≠ up_fileId req ∨ j < i ∨ i + todo ≤ j →
       node_files d' !! (x, f, j) = node_files d !! (x, f, j)).
Proof.
  induction todo as [|t IH]; intros i c chunks d Hex.
  - exists chunks, d. simpl. split; [done|]. split; [apply same_registry_refl|].
    split; [done|]. split; [done|]. split; [|done].
    intros k x Hk. by rewrite lookup_nil in Hk.
  - rewrite place_chunks_S. simpl assignment.
    destruct Hex as (id & Hin & Hon).
    destruct (scan_finds_online d c id Hin Hon) as (x & c' & Hs). rewrite Hs.
    set (chunk := chunkBuffer CHUNK_SIZE (up_fileBuffer req) i).
    set (d1 := placed now d x (x, up_fileId req, i) chunk).
    pose proof (placed_same_registry now d x (x, up_fileId req, i) chunk) as Hd1.
    fold d1 in Hd1.
    destruct (IH (S i) c'
                (<[i := chunk_record generateHash CHUNK_SIZE req i x]> chunks) d1)
      as (chunks' & d' & Hrun & Hreg & Hlen & Hold & Hnew & Hframe).
    { exists id. split; [done|]. by apply (same_registry_online d d1). }
    rewrite (assignment_ext d d1) in Hlen, Hnew by done.
    exists chunks', d'. split; [done|].
    split; [by eapply same_registry_trans|].
    split; [simpl; by rewrite Hlen|].
    split; [|split].
    + intros j Hj. rewrite Hold by lia. apply lookup_insert_ne. lia.
    + intros [|k] y Hk.
      * injection Hk as <-. rewrite Nat.add_0_r. split.
        -- rewrite Hold by lia. apply lookup_insert_eq.
        -- rewrite Hframe by lia. unfold d1, placed. simpl.
           apply lookup_insert_eq.
      * simpl in Hk. replace (i + S k) with (S i + k) by lia. by apply Hnew.
    + intros y f j Hj.
      rewrite Hframe by (destruct Hj as [?|?]; [by left | right; lia]).
      unfold d1, placed. simpl. apply lookup_insert_ne.
      intros [= ? ? ?]; subst. destruct Hj as [?|?]; [done | lia].
Qed.

End Placement.

(** The first assigned node is the one the scan returns. *)
Lemma assignment_head (d : Disk) (todo c : nat) (x : string) :
  assignment d todo c !! 0 = Some x →
  ∃ c', scan d (length NODES) c = (Some x, c').
Proof.
  destruct todo as [|t]; [done|]. simpl.
  destruct (scan d (length NODES) c) as [[y|] c']; [|done].
  intros [= ->]. by eauto.
Qed.

(** With every node online the assignment is the plain rotation. *)
Lemma assignment_all_online (d : Disk) (todo : nat) :
  (∀ id, id ∈ NODES → is_online d id) →
  ∀ c k x, assignment d todo c !! k = Some x →
           x = nth ((c + k) mod length NODES) NODES "".
Proof.
  intros Hon. induction todo as [|t IH]; intros c k x; [done|].
  simpl. rewrite scan_population_all_online by done.
  destruct k as [|k]; simpl.
  - intros [= <-]. by rewrite Nat.add_0_r.
  - intros Hk. rewrite (IH _ _ _ Hk). f_equal. f_equal. lia.
Qed.

(** Two consecutive chunks: the second scan starts at the cursor position
    just past the one where the first chunk's node was found. *)
Lemma assignment_consecutive (d : Disk) (todo : nat) :
  ∀ c j x y,
  assignment d todo c !! j = Some x →
  assignment d todo c !! S j = Some y →
  ∃ c1 c2, x = nth (c1 mod length NODES) NODES "" ∧
           scan d (length NODES) (S c1) = (Some y, c2).
Proof.
  induction todo as [|t IH]; intros c j x y; [done|].
  simpl. destruct (scan d (length NODES) c) as [[x0|] c0] eqn:Hs; [|done].
  destruct j as [|j]; simpl.
  - intros [= <-] Hy.
    destruct (scan_Some _ _ _ _ _ Hs) as (_ & _ & Hlt & _ & Hx).
    destruct (assignment_head _ _ _ _ Hy) as [c2 Hs2].
    exists (c0 - 1), c2. split; [done|].
    by replace (S (c0 - 1)) with c0 by lia.
  - apply IH.
Qed.

(** * The upload handler *)

Section Upload.

Variable generateHash : bytes → string.
Variable CHUNK_SIZE : nat.
Variable now : string.
Variable req : UploadRequest.

(** The handler in terms of its loop. *)
Lemma upload_unfold (d : Disk) :
  upload generateHash CHUNK_SIZE now req d
  = match metadata_of d with
    | JObject (Some files) =>
        match place_chunks generateHash CHUNK_SIZE now req
                (total_chunks CHUNK_SIZE req) 0 0 ∅ d with
        | (Ok chunks', d1) =>
            (Json200 (mkUploadOk (up_fileId req) (up_originalname req)
                        (total_chunks CHUNK_SIZE req)),
             mkDisk (Some (Json (JObject (Some
                       (js_set files (up_fileId req)
                          (mkFileManifest (up_fileId req) (up_originalname req)
                             (up_size req) (total_chunks CHUNK_SIZE req) now
                             (generateHash (up_fileBuffer req)) chunks'))))))
                    (status_json d1) (node_files d1) (upload_files d1))
        | (Throw e, d1) => (Error500 e, d1)
        end
    | _ => (Error500 TypeError, d)
    end.
Proof.
  unfold upload, respond, upload_body. unfold bind at 1.
  rewrite readMetadata_run. unfold bind at 1.
  destruct (metadata_of d) as [|[files|]]; [done | | done].
  unfold metadata_files, ret. unfold bind at 1.
  destruct (place_chunks _ _ _ _ _ _ _ _ _) as [[chunks'|e] d1]; done.
Qed.

(** An upload answers with success only on a well-formed catalog, and,
    when there is at least one chunk, only with some node online. *)
Lemma upload_Json200_inv (d d2 : Disk) (ok : UploadOk) :
  upload generateHash CHUNK_SIZE now req d = (Json200 ok, d2) →
  (∃ files, metadata_of d = JObject (Some files)) ∧
  (total_chunks CHUNK_SIZE req = 0 ∨ ∃ id, id ∈ NODES ∧ is_online d id).
Proof.
  rewrite upload_unfold.
  destruct (metadata_of d) as [|[files|]]; [done | | done].
  intros Hrun. split; [by eauto|].
  destruct (total_chunks CHUNK_SIZE req) as [|t]; [by left | right].
  rewrite place_chunks_S in Hrun.
  destruct (scan d (length NODES) 0) as [[x|] c'] eqn:Hs; [|done].
  exists x. by destruct (scan_Some _ _ _ _ _ Hs) as (? & ? & _).
Qed.

(** On a well-formed catalog, with a node online (or nothing to place),
    the upload succeeds and the file is stored on the assigned nodes;
    statuses, chunk counts and reconstructed files are as before. *)
Lemma upload_spec (d : Disk) (files : gmap string FileManifest) :
  metadata_of d = JObject (Some files) →
  up_fileId req ≠ "__proto__" →
  (total_chunks CHUNK_SIZE req = 0 ∨ ∃ id, id ∈ NODES ∧ is_online d id) →
  ∃ d2,
    upload generateHash CHUNK_SIZE now req d
    = (Json200 (mkUploadOk (up_fileId req) (up_originalname req)
                  (total_chunks CHUNK_SIZE req)), d2) ∧
    (∃ m, stored generateHash CHUNK_SIZE req d2
            (assignment d (total_chunks CHUNK_SIZE req) 0) m) ∧
    (∀ id, status (node_state d2 id) = status (node_state d id) ∧
           chunkCount (node_state d2 id) = chunkCount (node_state d id)) ∧
    (∀ f, f ≠ up_fileId req → manifest_of d2 f = manifest_of d f) ∧
    (∀ x f j, f ≠ up_fileId req →
       node_files d2 !! (x, f, j) = node_files d !! (x, f, j)) ∧
    upload_files d2 = upload_files d.
Proof.
  intros Hmeta Hproto Hcan. rewrite upload_unfold, Hmeta.
  assert (∃ chunks' d1,
    place_chunks generateHash CHUNK_SIZE now req (total_chunks CHUNK_SIZE req) 0 0 ∅ d
    = (Ok chunks', d1) ∧
    same_registry d d1 ∧
    length (assignment d (total_chunks CHUNK_SIZE req) 0)
    = total_chunks CHUNK_SIZE req ∧
    (∀ j, total_chunks CHUNK_SIZE req ≤ j → chunks' !! j = None) ∧
    (∀ k x, assignment d (total_chunks CHUNK_SIZE req) 0 !! k = Some x →
       chunks' !! k = Some (chunk_record generateHash CHUNK_SIZE req k x) ∧
       node_files d1 !! (x, up_fileId req, k)
       = Some (chunkBuffer CHUNK_SIZE (up_fileBuffer req) k)) ∧
    (∀ x f j, f ≠ up_fileId req →
       node_files d1 !! (x, f, j) = node_files d !! (x, f, j)))
    as (chunks' & d1 & -> & Hreg & Hlen & Hnone & Hrec & Hframe).
  { destruct Hcan as [Hz|Hex].
    - rewrite Hz. exists ∅, d. simpl.
      split; [done|]. split; [apply same_registry_refl|]. split; [done|].
      split; [done|]. split; [|done]. intros k x Hk. by rewrite lookup_nil in Hk.
    - destruct (place_chunks_spec generateHash CHUNK_SIZE now req
                  (total_chunks CHUNK_SIZE req) 0 0 ∅ d Hex)
        as (chunks' & d1 & Hrun & Hreg & Hlen & Hold & Hnew & Hframe).
      exists chunks', d1. split; [done|]. split; [done|]. split; [done|].
      split; [|split].
      + intros j Hj. rewrite Hold by lia. done.
      + intros k x Hk. by apply (Hnew k x).
      + intros x f j Hf. apply Hframe. by left. }
  eexists. split; [reflexivity|].
  destruct Hreg as (Hm & Hu & Hs).
  assert (Hset : ∀ m, js_set files (up_fileId req) m = <[up_fileId req := m]> files).
  { intros m. unfold js_set. destruct (decide _) as [[? _]|_]; done. }
  split; [|split; [|split; [|split]]].
  - eexists. unfold stored, manifest_of, metadata_of. simpl. rewrite Hset.
    split; [apply lookup_insert_eq|]. simpl.
    split; [done|]. split; [done|]. split; [done|]. split; [done|].
    split; [done|]. done.
  - intros id. apply Hs.
  - intros f Hf. unfold manifest_of at 1, metadata_of at 1. simpl.
    rewrite Hset, lookup_insert_ne by done.
    unfold manifest_of. by rewrite Hmeta.
  - intros x f j Hf. simpl. by apply Hframe.
  - done.
Qed.

End Upload.

(** An uninterrupted upload that answers 'No online nodes available' has
    found no node of the population online, at its first chunk, and has
    written nothing. *)
Lemma upload_NoOnlineNodes_inv (generateHash : bytes → string)
    (CHUNK_SIZE : nat) (now : string) (req : UploadRequest) (d d' : Disk) :
  upload generateHash CHUNK_SIZE now req d = (Error500 NoOnlineNodes, d') →
  d' = d ∧ ∀ id, id ∈ NODES → ¬ is_online d id.
Proof.
  rewrite upload_unfold.
  destruct (metadata_of d) as [|[files|]]; [done | | done].
  destruct (total_chunks CHUNK_SIZE req) as [|t]; [done|].
  destruct (scan d (length NODES) 0) as [[x|] c'] eqn:Hs.
  - destruct (scan_Some _ _ _ _ _ Hs) as (Hin & Hon & _).
    destruct (place_chunks_spec generateHash CHUNK_SIZE now req (S t) 0 0 ∅ d)
      as (chunks' & d1 & -> & _); [by eauto|]. done.
  - rewrite place_chunks_S, Hs. intros [= <-]. split; [done|].
    intros id Hin Hon.
    destruct (scan_finds_online d 0 id Hin Hon) as (? & ? & Hs').
    by rewrite Hs' in Hs.
Qed.

(** * The collecting loop *)

Lemma omap_cons_match {A B} (f : A → option B) (x : A) (l : list A) :
  omap f (x :: l) = match f x with Some y => y :: omap f l | None => omap f l end.
Proof. reflexivity. Qed.

Lemma omap_replicate_None {A} (n : nat) :
  omap id (replicate n (@None A)) = [].
Proof. induction n; [done | by simpl]. Qed.

Lemma array_set_past_end {A} (arr : list (option A)) (i : nat) (x : A) :
  length arr ≤ i →
  omap id (array_set arr i x) = omap id arr ++ [x] ∧
  length (array_set arr i x) = S i.
Proof.
  intros Hle. unfold array_set.
  destruct (decide (i < length arr)) as [?|_]; [lia|].
  split.
  - by rewrite !omap_app, omap_replicate_None.
  - rewrite !length_app, length_replicate. simpl. lia.
Qed.

Lemma omap_id_Some {A} (x : A) (arr : list (option A)) :
  omap id (Some x :: arr) = x :: omap id arr.
Proof. reflexivity. Qed.

Lemma count_defined_Some {A} (x : A) (arr : list (option A)) :
  count_defined (Some x :: arr) = S (count_defined arr).
Proof. reflexivity. Qed.

Lemma count_defined_None {A} (arr : list (option A)) :
  count_defined (None :: arr) = count_defined arr.
Proof. reflexivity. Qed.

Lemma count_defined_le {A} (arr : list (option A)) :
  count_defined arr ≤ length arr.
Proof.
  induction arr as [|[x|] arr IH].
  - done.
  - rewrite count_defined_Some. simpl. lia.
  - rewrite count_defined_None. simpl. lia.
Qed.

(** An array with as many defined elements as its length has no hole. *)
Lemma count_defined_full {A} (arr : list (option A)) :
  count_defined arr = length arr → arr = Some <$> omap id arr.
Proof.
  induction arr as [|[x|] arr IH].
  - done.
  - rewrite count_defined_Some, omap_id_Some, fmap_cons. intros Hc.
    f_equal. apply IH. simpl in Hc. lia.
  - rewrite count_defined_None. intros Hc.
    pose proof (count_defined_le arr). simpl in Hc. lia.
Qed.

Lemma Buffer_concat_full (bs : list bytes) (d : Disk) :
  Buffer_concat (Some <$> bs) d = (Ok (concat bs), d).
Proof.
  induction bs as [|b bs IH]; [done|].
  rewrite fmap_cons. change (Buffer_concat (Some b :: (Some <$> bs)) d)
    with (bind (Buffer_concat (Some <$> bs)) (λ r, ret (b ++ r)) d).
  unfold bind. by rewrite IH.
Qed.

Section Collect.

Variable generateHash : bytes → string.
Variable fileId : string.
Variable m : FileManifest.

(** One round of the loop. *)
Lemma collect_S (todo i : nat) (got : list (option bytes))
    (missing : list MissingChunk) (d : Disk) (r : ChunkRecord) :
  chunks m !! i = Some r →
  collect generateHash fileId m (S todo) i got missing d
  = match chunk_outcome generateHash d fileId i r with
    | Ok b => collect generateHash fileId m todo (S i) (array_set got i b) missing d
    | Throw e => collect generateHash fileId m todo (S i) got
                   (missing ++ [mkMissingChunk i (node r) e]) d
    end.
Proof.
  intros Hr. cbn [collect]. rewrite Hr. unfold bind at 1. rewrite getNodeStatus_run.
  unfold chunk_outcome, is_online.
  destruct (decide (status (node_state d (node r)) = "online")) as [Hon|Hoff].
  - unfold bind at 1, try_catch, bind at 1, read_node_file.
    destruct (node_files d !! (node r, fileId, i)) as [b|]; [|done].
    destruct (decide (generateHash b ≠ hash r)); done.
  - unfold bind at 1. done.
Qed.

(** The loop never throws on a manifest that records the indices it
    visits, never writes, and sorts the visited chunks into retrieved
    ones and reported ones. *)
Lemma collect_spec (d : Disk) (todo : nat) :
  ∀ (i : nat) (got : list (option bytes)) (missing : list MissingChunk),
  (∀ j, i ≤ j → j < i + todo → is_Some (chunks m !! j)) →
  length got ≤ i →
  ∃ got',
    collect generateHash fileId m todo i got missing d
    = (Ok (got', missing ++ missing_of generateHash d fileId m i todo), d) ∧
    omap id got' = omap id got ++ retrieved_of generateHash d fileId m i todo ∧
    length got' ≤ i + todo.
Proof.
  unfold missing_of, retrieved_of.
  induction todo as [|t IH]; intros i got missing Hdef Hlen.
  - exists got. simpl. rewrite !app_nil_r. split; [done|]. split; [done|lia].
  - destruct (Hdef i ltac:(lia) ltac:(lia)) as [r Hr].
    rewrite (collect_S _ _ _ _ _ _ Hr). simpl seq. rewrite !omap_cons_match.
    unfold retrieve at 1, report at 1. rewrite Hr.
    destruct (chunk_outcome generateHash d fileId i r) as [b|e].
    + destruct (array_set_past_end got i b Hlen) as [Hom Hl].
      destruct (IH (S i) (array_set got i b) missing) as (got' & Hrun & Hgot & Hlen').
      { intros j ? ?. apply Hdef; lia. }
      { lia. }
      exists got'. split; [done|]. split; [|lia].
      rewrite Hgot, Hom, <- app_assoc. done.
    + destruct (IH (S i) got (missing ++ [mkMissingChunk i (node r) e]))
        as (got' & Hrun & Hgot & Hlen').
      { intros j ? ?. apply Hdef; lia. }
      { lia. }
      exists got'. split; [|split; [done|lia]].
      rewrite Hrun, <- app_assoc. done.
Qed.

(** Every visited index is either retrieved or reported. *)
Lemma retrieved_missing_length (d : Disk) (todo i : nat) :
  (∀ j, i ≤ j → j < i + todo → is_Some (chunks m !! j)) →
  length (retrieved_of generateHash d fileId m i todo)
  + length (missing_of generateHash d fileId m i todo) = todo.
Proof.
  unfold retrieved_of, missing_of. revert i.
  induction todo as [|t IH]; intros i Hdef; [done|].
  simpl seq. rewrite !omap_cons_match.
  destruct (Hdef i ltac:(lia) ltac:(lia)) as [r Hr].
  specialize (IH (S i) ltac:(intros j ? ?; apply Hdef; lia)).
  unfold retrieve at 1, report at 1. rewrite Hr.
  destruct (chunk_outcome generateHash d fileId i r); cbn [length]; lia.
Qed.

End Collect.

(** * The reconstruction handler *)

Lemma manifest_of_Some (d : Disk) (fileId : string) (m : FileManifest) :
  manifest_of d fileId = Some m ↔
  ∃ files, metadata_of d = JObject (Some files) ∧ files !! fileId = Some m.
Proof.
  unfold manifest_of. split.
  - destruct (metadata_of d) as [|[files|]]; [done| |done]. by eauto.
  - by intros (files & -> & ?).
Qed.

Lemma classify_spec (k n : nat) :
  k ≤ n →
  (classify k n = success ↔ k = n) ∧
  (classify k n = partial ↔ 0 < k ∧ k < n) ∧
  (classify k n = failed ↔ k = 0 ∧ 0 < n).
Proof.
  intros Hle. unfold classify.
  destruct (decide (k = n)) as [->|Hne].
  - split; [done|]. split; (split; [done | lia]).
  - destruct (decide (0 < k)) as [Hpos|Hz].
    + split; [split; [done | lia]|]. split; [split; [lia | done]|].
      split; [done | lia].
    + split; [split; [done | lia]|]. split; [split; [done | lia]|].
      split; [lia | done].
Qed.

Section Reconstruct.

Variable generateHash : bytes → string.

(** The handler when the lookup finds no manifest. *)
Lemma reconstruct_no_manifest (fileId : string) (d : Disk) :
  manifest_of d fileId = None →
  reconstruct generateHash fileId d
  = match metadata_of d with
    | JObject (Some files) =>
        if decide (fileId ∈ Object_prototype_keys)
        then (Json200 (Incomplete failed fileId None 0 None []), d)
        else (Error500 FileNotFound, d)
    | _ => (Error500 TypeError, d)
    end.
Proof.
  unfold manifest_of. intros Hnone.
  unfold reconstruct, respond, reconstruct_body. unfold bind at 1.
  rewrite readMetadata_run. unfold bind at 1.
  destruct (metadata_of d) as [|[files|]]; [done | | done].
  unfold metadata_files, ret at 1. unfold js_get. rewrite Hnone.
  destruct (decide (fileId ∈ Object_prototype_keys)); done.
Qed.

(** The handler on a complete manifest, in terms of what can be
    retrieved. *)
Lemma reconstruct_spec (fileId : string) (d : Disk) (m : FileManifest) :
  manifest_of d fileId = Some m →
  complete_manifest m →
  let got := retrieved_of generateHash d fileId m 0 (totalChunks m) in
  let miss := missing_of generateHash d fileId m 0 (totalChunks m) in
  reconstruct generateHash fileId d
  = if decide (length got = totalChunks m) then
      if decide (generateHash (concat got) ≠ fileHash m)
      then (Error500 FileHashMismatch, d)
      else (Json200 (Reconstructed fileId (originalName m)),
            mkDisk (metadata_json d) (status_json d) (node_files d)
                   (<["reconstructed_" +:+ originalName m := concat got]>
                      (upload_files d)))
    else (Json200 (Incomplete (classify (length got) (totalChunks m)) fileId
                     (Some (originalName m)) (length got)
                     (Some (totalChunks m)) miss), d).
Proof.
  intros (files & Hmeta & Hm)%manifest_of_Some Hcomplete got miss.
  unfold reconstruct, respond, reconstruct_body. unfold bind at 1.
  rewrite readMetadata_run. unfold bind at 1. rewrite Hmeta.
  unfold metadata_files, ret at 1. unfold js_get. rewrite Hm.
  unfold bind at 1.
  destruct (collect_spec generateHash fileId m d (totalChunks m) 0 [] [])
    as (got' & -> & Hgot & Hlen).
  { intros j _ Hj. by apply Hcomplete. }
  { done. }
  simpl in Hgot, Hlen. fold got in Hgot. fold miss.
  assert (Hcount : count_defined got' = length got)
    by (unfold count_defined; by rewrite Hgot).
  rewrite Hcount. unfold classify at 1.
  destruct (decide (length got = totalChunks m)) as [Hall|Hnot].
  - assert (Hfull : got' = Some <$> got).
    { rewrite <- Hgot. apply count_defined_full.
      pose proof (count_defined_le got'). lia. }
    unfold bind at 1. rewrite Hfull, Buffer_concat_full.
    destruct (decide (generateHash (concat got) ≠ fileHash m)); done.
  - unfold classify. destruct (decide (length got = totalChunks m)); [done|].
    destruct (decide (0 < length got)); done.
Qed.

End Reconstruct.

(** * The toggle handler *)

Lemma toggle_spec (now id : string) (req_status : option string)
    (d d' : Disk) (ok : ToggleOk) :
  toggle now id req_status d = (Json200 ok, d') →
  id ∈ NODES ∧
  metadata_json d' = metadata_json d ∧
  node_files d' = node_files d ∧
  upload_files d' = upload_files d ∧
  status (node_state d' id) = to_status ok ∧
  chunkCount (node_state d' id) = chunkCount (node_state d id) ∧
  (∀ id', id' ≠ id → node_state d' id' = node_state d id').
Proof.
  unfold toggle, respond, toggle_body.
  destruct (decide (id ∈ NODES)) as [Hin|Hout]; [|done].
  unfold bind at 1. rewrite getNodeStatus_run.
  unfold bind at 1. rewrite updateNodeStatus_run. simpl.
  intros [= <- <-]. split; [done|]. simpl.
  split; [done|]. split; [done|]. split; [done|].
  rewrite !node_state_insert. destruct (decide (id = id)); [|done].
  split; [done|]. split; [done|].
  intros id' Hne. rewrite node_state_insert.
  by destruct (decide (id = id')) as [->|].
Qed.


(** * Reading back a stored file *)

Lemma omap_all_Some {A B} (f : A → option B) (g : A → B) (l : list A) :
  (∀ x, x ∈ l → f x = Some (g x)) → omap f l = map g l.
Proof.
  induction l as [|x l IH]; intros Hf; [done|].
  rewrite omap_cons_match, (Hf x) by apply list_elem_of_here.
  simpl. f_equal. apply IH. intros y Hy. apply Hf. by apply list_elem_of_further.
Qed.

Lemma omap_all_None {A B} (f : A → option B) (l : list A) :
  (∀ x, x ∈ l → f x = None) → omap f l = [].
Proof.
  induction l as [|x l IH]; intros Hf; [done|].
  rewrite omap_cons_match, (Hf x) by apply list_elem_of_here.
  apply IH. intros y Hy. apply Hf. by apply list_elem_of_further.
Qed.

Lemma length_omap_le {A B} (f : A → option B) (l : list A) :
  length (omap f l) ≤ length l.
Proof.
  induction l as [|x l IH]; [done|].
  rewrite omap_cons_match. destruct (f x); simpl; lia.
Qed.

(** When nothing is dropped, [omap] is a [map]. *)
Lemma omap_full {A B} (f : A → option B) (g : A → B) (l : list A) :
  length (omap f l) = length l →
  (∀ x y, x ∈ l → f x = Some y → y = g x) →
  omap f l = map g l.
Proof.
  induction l as [|x l IH]; intros Hlen Hf; [done|].
  rewrite omap_cons_match in *. pose proof (length_omap_le f l) as Hle.
  destruct (f x) as [y|] eqn:Hx; simpl in Hlen; [|lia].
  simpl. f_equal.
  - apply Hf; [apply list_elem_of_here | done].
  - apply IH; [lia|]. intros z w Hz. apply Hf. by apply list_elem_of_further.
Qed.

Section Stored.

Variable generateHash : bytes → string.
Variable CHUNK_SIZE : nat.
Variable req : UploadRequest.

Lemma stored_complete (d : Disk) (nodes : list string) (m : FileManifest) :
  stored generateHash CHUNK_SIZE req d nodes m → complete_manifest m.
Proof.
  intros (_ & _ & _ & _ & Hlen & _ & Hrec) j Hj.
  destruct (lookup_lt_is_Some_2 nodes j ltac:(lia)) as [x Hx].
  destruct (Hrec j x Hx) as [-> _]. by eauto.
Qed.

(** Moving to a disk with the same manifest and the same chunk files. *)
Lemma stored_transfer (d d' : Disk) (nodes : list string) (m : FileManifest) :
  stored generateHash CHUNK_SIZE req d nodes m →
  manifest_of d' (up_fileId req) = manifest_of d (up_fileId req) →
  node_files d' = node_files d →
  stored generateHash CHUNK_SIZE req d' nodes m.
Proof.
  intros (Hm & Ht & Hh & Hn & Hlen & Hnone & Hrec) Hm' Hnf.
  unfold stored. rewrite Hm', Hnf. done.
Qed.

(** A stored chunk is retrieved exactly when its node is online, and is
    otherwise reported with the reason 'Node offline'. *)
Lemma stored_retrieve (d : Disk) (nodes : list string) (m : FileManifest)
    (j : nat) (x : string) :
  stored generateHash CHUNK_SIZE req d nodes m →
  nodes !! j = Some x →
  retrieve generateHash d (up_fileId req) m j
  = (if decide (is_online d x)
     then Some (chunkBuffer CHUNK_SIZE (up_fileBuffer req) j) else None) ∧
  report generateHash d (up_fileId req) m j
  = (if decide (is_online d x) then None
     else Some (mkMissingChunk j x NodeOffline)).
Proof.
  intros (_ & _ & _ & _ & _ & _ & Hrec) Hx.
  destruct (Hrec j x Hx) as [Hr Hfile].
  unfold retrieve, report, chunk_outcome. rewrite Hr. simpl. rewrite Hfile.
  destruct (decide (is_online d x)); [|done].
  destruct (decide (generateHash _ ≠ generateHash _)); done.
Qed.

(** With every recording node online, everything is retrieved. *)
Lemma stored_all_online (d : Disk) (nodes : list string) (m : FileManifest) :
  stored generateHash CHUNK_SIZE req d nodes m →
  (∀ x, x ∈ nodes → is_online d x) →
  retrieved_of generateHash d (up_fileId req) m 0 (totalChunks m)
  = map (chunkBuffer CHUNK_SIZE (up_fileBuffer req)) (seq 0 (totalChunks m)) ∧
  missing_of generateHash d (up_fileId req) m 0 (totalChunks m) = [].
Proof.
  intros Hst Hon.
  assert (Hlen : length nodes = totalChunks m) by apply Hst.
  assert (Hj : ∀ j, j ∈ seq 0 (totalChunks m) →
                    ∃ x, nodes !! j = Some x ∧ is_online d x).
  { intros j [_ Hj]%elem_of_seq.
    destruct (lookup_lt_is_Some_2 nodes j ltac:(lia)) as [x Hx].
    exists x. split; [done|]. apply Hon. by eapply list_elem_of_lookup_2. }
  split.
  - apply omap_all_Some. intros j (x & Hx & Hox)%Hj.
    destruct (stored_retrieve d nodes m j x Hst Hx) as [-> _].
    by destruct (decide (is_online d x)).
  - apply omap_all_None. intros j (x & Hx & Hox)%Hj.
    destruct (stored_retrieve d nodes m j x Hst Hx) as [_ ->].
    by destruct (decide (is_online d x)).
Qed.

Hypothesis CHUNK_SIZE_pos : 0 < CHUNK_SIZE.

(** Reconstruction of a stored file with every recording node online
    succeeds and writes the uploaded bytes. *)
Lemma stored_reconstruct (d : Disk) (nodes : list string) (m : FileManifest) :
  stored generateHash CHUNK_SIZE req d nodes m →
  (∀ x, x ∈ nodes → is_online d x) →
  reconstruct generateHash (up_fileId req) d
  = (Json200 (Reconstructed (up_fileId req) (up_originalname req)),
     mkDisk (metadata_json d) (status_json d) (node_files d)
            (<["reconstructed_" +:+ up_originalname req := up_fileBuffer req]>
               (upload_files d))).
Proof.
  intros Hst Hon.
  destruct (stored_all_online d nodes m Hst Hon) as [Hgot Hmiss].
  pose proof (stored_complete d nodes m Hst) as Hcomplete.
  destruct Hst as (Hm & Ht & Hh & Hn & _).
  rewrite (reconstruct_spec generateHash _ d m Hm Hcomplete).
  rewrite Hgot, length_map, length_seq.
  destruct (decide (totalChunks m = totalChunks m)); [|done].
  rewrite Ht, concat_all_chunks by done.
  rewrite Hh, Hn.
  destruct (decide (generateHash _ ≠ generateHash _)); done.
Qed.

End Stored.

Lemma manifest_of_ext (d d' : Disk) (fileId : string) :
  metadata_json d' = metadata_json d →
  manifest_of d' fileId = manifest_of d fileId.
Proof. intros Heq. unfold manifest_of, metadata_of. by rewrite Heq. Qed.

Lemma node_state_ext (d d' : Disk) (id : string) :
  status_json d' = status_json d → node_state d' id = node_state d id.
Proof. intros Heq. unfold node_state. by rewrite Heq. Qed.

(** Reconstruction writes nothing but the reconstructed file. *)
Lemma reconstruct_preserves (generateHash : bytes → string) (fileId : string)
    (d : Disk) (m : FileManifest) :
  manifest_of d fileId = Some m →
  complete_manifest m →
  metadata_json (reconstruct generateHash fileId d).2 = metadata_json d ∧
  status_json (reconstruct generateHash fileId d).2 = status_json d ∧
  node_files (reconstruct generateHash fileId d).2 = node_files d.
Proof.
  intros Hm Hcomplete. rewrite (reconstruct_spec generateHash fileId d m Hm Hcomplete).
  destruct (decide (length _ = totalChunks m)); [|done].
  destruct (decide (generateHash _ ≠ fileHash m)); done.
Qed.

(** * The upload handler between its awaits *)

Lemma exec_abind {A B} (p : Async A) (k : A → Async B) :
  ∀ (others : Others) (d : Disk),
  exec (abind p k) others d
  = match exec p others d with
    | (Ok a, d', others') => exec (k a) others' d'
    | (Throw e, d', others') => (Throw e, d', others')
    end.
Proof.
  induction p as [a|e|X op k' IH]; intros others d; [done | done |].
  cbn [abind exec]. destruct (op (hd id others d)) as [[x|e] d']; [apply IH | done].
Qed.

(** An await with nothing else going on. *)
Lemma exec_Await_alone {A X} (op : M X) (k : X → Async A) (d : Disk) :
  exec (Await op k) [] d
  = match op d with
    | (Ok x, d') => exec (k x) [] d'
    | (Throw e, d') => (Throw e, d', [])
    end.
Proof. reflexivity. Qed.

Lemma same_catalog_refl (d : Disk) : same_catalog d d.
Proof. by split. Qed.

Lemma same_catalog_trans (d1 d2 d3 : Disk) :
  same_catalog d1 d2 → same_catalog d2 d3 → same_catalog d1 d3.
Proof. intros [? ?] [? ?]. split; congruence. Qed.

Lemma chunks_added_refl (fileId : string) (chunk : nat → bytes) (d : Disk) :
  chunks_added fileId chunk d d.
Proof. split; [apply same_catalog_refl|]. intros x f j. by left. Qed.

Lemma chunks_added_trans (fileId : string) (chunk : nat → bytes) (d1 d2 d3 : Disk) :
  chunks_added fileId chunk d1 d2 → chunks_added fileId chunk d2 d3 →
  chunks_added fileId chunk d1 d3.
Proof.
  intros [Hc H12] [Hc' H23]. split; [by eapply same_catalog_trans|].
  intros x f j. destruct (H23 x f j) as [->|?]; [apply H12 | by right].
Qed.

Lemma writes_status_only_catalog (others : Others) :
  Forall writes_status_only others → Forall keeps_catalog others.
Proof.
  intros Hall. eapply Forall_impl; [exact Hall|]. intros f Hf d. apply Hf.
Qed.

Lemma writes_status_only_chunks (fileId : string) (chunk : nat → bytes)
    (others : Others) :
  Forall writes_status_only others →
  Forall (keeps (chunks_added fileId chunk)) others.
Proof.
  intros Hall. eapply Forall_impl; [exact Hall|].
  intros f Hf d. destruct (Hf d) as [Hc Hn].
  split; [done|]. intros x g j. left. by rewrite Hn.
Qed.

Lemma toggle_writes_status_only (now id : string) (req_status : option string) :
  writes_status_only (λ d, (toggle now id req_status d).2).
Proof.
  intros d. unfold toggle, respond, toggle_body.
  destruct (decide (id ∈ NODES)); [|by split].
  unfold bind at 1 3. rewrite getNodeStatus_run.
  unfold bind at 1 2. rewrite updateNodeStatus_run. by split.
Qed.

Lemma toggle_keeps_catalog (now id : string) (req_status : option string) :
  keeps_catalog (λ d, (toggle now id req_status d).2).
Proof. intros d. apply toggle_writes_status_only. Qed.

(** ** Runs that stay within a relation *)

Section Within.

Variable R : Disk → Disk → Prop.
Hypothesis R_refl : ∀ d, R d d.
Hypothesis R_trans : ∀ d1 d2 d3, R d1 d2 → R d2 d3 → R d1 d3.

Lemma keeps_hd (others : Others) :
  Forall (keeps R) others → keeps R (hd id others).
Proof. destruct 1 as [|f others Hf _]; [|exact Hf]. intros d. apply R_refl. Qed.

Lemma keeps_tl (others : Others) :
  Forall (keeps R) others → Forall (keeps R) (tl others).
Proof. destruct 1; [constructor | done]. Qed.

(** A function whose operations stay within [R], run among requests that
    do the same, leaves a disk related by [R] to the one it started on. *)
Lemma exec_within {A} (p : Async A) :
  within R p →
  ∀ (others : Others) (d : Disk),
  Forall (keeps R) others →
  R d (exec p others d).1.2 ∧ Forall (keeps R) (exec p others d).2.
Proof.
  induction 1 as [a|e|X op k Hop _ IH]; intros others d Hothers;
    [by split; [apply R_refl|].. |].
  cbn [exec].
  pose proof (keeps_hd others Hothers d) as Hd0.
  pose proof (Hop (hd id others d)) as Hd1.
  destruct (op (hd id others d)) as [[x|e] d1]; cbn [fst snd] in *.
  - destruct (IH x (tl others) d1 (keeps_tl _ Hothers)) as [Hd2 Hrest].
    split; [|done]. eauto.
  - split; [|by apply keeps_tl]. eauto.
Qed.

Lemma within_abind {A B} (p : Async A) (k : A → Async B) :
  within R p → (∀ a, within R (k a)) → within R (abind p k).
Proof.
  induction 1 as [a|e|X op k' Hop _ IH]; intros Hk; cbn [abind].
  - apply Hk.
  - constructor.
  - constructor; [done|]. intros x. by apply IH.
Qed.

(** The relation admits the writes of status files, and the writes of the
    chunk files of one upload. *)
Hypothesis R_status : ∀ id st d, R d (write_status_file id st d).2.

Variable generateHash : bytes → string.
Variable CHUNK_SIZE : nat.
Variable now : string.
Variable req : UploadRequest.
Hypothesis R_chunk :
  ∀ x i d, R d (write_node_file (x, up_fileId req, i)
                                (chunkBuffer CHUNK_SIZE (up_fileBuffer req) i) d).2.

Lemma getNodeStatus_within (id : string) (d : Disk) : R d (getNodeStatus id d).2.
Proof. rewrite getNodeStatus_run. apply R_refl. Qed.

Lemma updateNodeStatus_async_within (id s : string) :
  within R (updateNodeStatus_async now id s).
Proof.
  constructor; [apply getNodeStatus_within|]. intros st.
  constructor; [apply R_status|]. intros _. constructor.
Qed.

Lemma find_node_async_within (attempts : nat) :
  ∀ nodeIndex, within R (find_node_async attempts nodeIndex).
Proof.
  induction attempts as [|a IH]; intros c; cbn [find_node_async]; [constructor|].
  constructor; [apply getNodeStatus_within|]. intros st.
  destruct (decide (status st = "online")); [constructor | apply IH].
Qed.

Lemma place_chunks_async_within (todo : nat) :
  ∀ i nodeIndex chunks,
  within R (place_chunks_async generateHash CHUNK_SIZE now req todo i nodeIndex chunks).
Proof.
  induction todo as [|t IH]; intros i c chunks; cbn [place_chunks_async];
    [constructor|].
  apply within_abind; [apply find_node_async_within|].
  intros [[x|] c']; [|constructor].
  constructor; [apply R_chunk|]. intros _.
  constructor; [apply getNodeStatus_within|]. intros st.
  apply within_abind; [apply updateNodeStatus_async_within|]. intros _. apply IH.
Qed.

End Within.

Section AsyncUpload.

Variable generateHash : bytes → string.
Variable CHUNK_SIZE : nat.
Variable now : string.

(** The placement loop leaves the catalog and the uploads directory
    alone, and adds chunk files of its file only. *)
Lemma place_chunks_async_chunks_added (req : UploadRequest) (todo i c : nat)
    (chunks : gmap nat ChunkRecord) :
  within (chunks_added (up_fileId req) (chunkBuffer CHUNK_SIZE (up_fileBuffer req)))
         (place_chunks_async generateHash CHUNK_SIZE now req todo i c chunks).
Proof.
  apply place_chunks_async_within.
  - apply chunks_added_refl.
  - intros id st d. split; [by split|]. intros x f j. by left.
  - intros x j d. split; [by split|]. intros y f k.
    unfold write_node_file. cbn [snd node_files].
    destruct (decide ((x, up_fileId req, j) = (y, f, k))) as [[= -> -> ->]|Hne].
    + right. split; [done|]. apply lookup_insert_eq.
    + left. by apply lookup_insert_ne.
Qed.

(** With nothing else going on, the scan, the status update and the
    placement loop are the uninterrupted ones. *)
Lemma exec_find_node_alone (attempts : nat) :
  ∀ nodeIndex d,
  exec (find_node_async attempts nodeIndex) [] d
  = (find_node attempts nodeIndex d, []).
Proof.
  induction attempts as [|a IH]; intros c d; [done|].
  cbn [find_node_async find_node]. rewrite exec_Await_alone.
  unfold bind. rewrite getNodeStatus_run.
  destruct (decide (status (node_state d _) = "online")); [done | apply IH].
Qed.

Lemma exec_updateNodeStatus_alone (id s : string) (d : Disk) :
  exec (updateNodeStatus_async now id s) [] d = (updateNodeStatus now id s d, []).
Proof.
  unfold updateNodeStatus_async, updateNodeStatus. rewrite exec_Await_alone.
  unfold bind. by rewrite getNodeStatus_run.
Qed.

Lemma exec_place_chunks_alone (req : UploadRequest) (todo : nat) :
  ∀ i nodeIndex chunks d,
  exec (place_chunks_async generateHash CHUNK_SIZE now req todo i nodeIndex chunks) [] d
  = (place_chunks generateHash CHUNK_SIZE now req todo i nodeIndex chunks d, []).
Proof.
  induction todo as [|t IH]; intros i c chunks d; [done|].
  rewrite place_chunks_S. cbn [place_chunks_async].
  rewrite exec_abind, exec_find_node_alone, find_node_run.
  destruct (scan d (length NODES) c) as [[x|] c']; [|done].
  rewrite exec_Await_alone. unfold write_node_file at 1.
  rewrite exec_Await_alone, getNodeStatus_run.
  rewrite exec_abind, exec_updateNodeStatus_alone, updateNodeStatus_run.
  cbv beta iota zeta. rewrite IH. reflexivity.
Qed.

Lemma place_chunks_same_catalog (req : UploadRequest) (todo i c : nat)
    (chunks : gmap nat ChunkRecord) (d : Disk) :
  same_catalog d (place_chunks generateHash CHUNK_SIZE now req todo i c chunks d).2.
Proof.
  destruct (exec_within _ (chunks_added_refl _ _) (chunks_added_trans _ _) _
              (place_chunks_async_chunks_added req todo i c chunks) [] d
              ltac:(constructor)) as [[H _] _].
  by rewrite exec_place_chunks_alone in H.
Qed.

(** With nothing else going on, the handler answers as the uninterrupted
    one does on the staged bytes, and has removed the staged file exactly
    when it answers with success. *)
Lemma upload_among_alone (file : StagedFile) (fileBuffer : bytes) (d : Disk) :
  upload_files d !! sf_filename file = Some fileBuffer →
  upload_among generateHash CHUNK_SIZE now (Some file) [] d
  = match upload generateHash CHUNK_SIZE now (request_of file fileBuffer) d with
    | (Json200 ok, d') => (Json200 ok, unstaged file d')
    | (Error500 e, d') => (Error500 e, d')
    end.
Proof.
  intros Hfile. rewrite upload_unfold.
  unfold upload_among, upload_async. rewrite exec_Await_alone.
  unfold read_upload_file at 1. rewrite Hfile.
  rewrite exec_Await_alone, readMetadata_run.
  destruct (metadata_of d) as [|[files|]]; [done | | done].
  rewrite exec_abind, exec_place_chunks_alone.
  pose proof (place_chunks_same_catalog (request_of file fileBuffer)
                (total_chunks CHUNK_SIZE (request_of file fileBuffer)) 0 0 ∅ d)
    as [_ Hup].
  unfold total_chunks in *. cbn [up_fileBuffer request_of] in *.
  destruct (place_chunks _ _ _ _ _ _ _ _ _) as [[chunks'|e] d1]; [|done].
  cbn [snd] in Hup.
  rewrite exec_Await_alone. unfold writeMetadata, write_metadata_file at 1.
  rewrite exec_Await_alone. unfold unlink_upload_file at 1.
  cbn [upload_files]. rewrite Hup, Hfile. reflexivity.
Qed.

(** A call that answers with an error among requests that stay within a
    relation [R] has stayed within [R] itself, when [R] keeps the catalog
    file and the uploads directory and admits the writes of the placement
    loop: the call has failed before it wrote the catalog. *)
Lemma upload_among_failure_within (R : Disk → Disk → Prop)
    (file : option StagedFile) (others : Others) (d d' : Disk) (e : Error) :
  (∀ d, R d d) →
  (∀ d1 d2 d3, R d1 d2 → R d2 d3 → R d1 d3) →
  (∀ d1 d2, R d1 d2 → same_catalog d1 d2) →
  (∀ f fileBuffer todo i c chunks,
     file = Some f → upload_files d !! sf_filename f = Some fileBuffer →
     within R (place_chunks_async generateHash CHUNK_SIZE now
                 (request_of f fileBuffer) todo i c chunks)) →
  Forall (keeps R) others →
  upload_among generateHash CHUNK_SIZE now file others d = (Error500 e, d') →
  R d d'.
Proof.
  intros R_refl R_trans R_catalog Hplace Hothers.
  unfold upload_among, upload_async.
  destruct file as [file|]; [|intros [= _ <-]; apply R_refl].
  cbn [exec]. unfold read_upload_file at 1.
  pose proof (keeps_hd R R_refl others Hothers d) as Hd0.
  set (d0 := hd id others d) in *.
  destruct (upload_files d0 !! sf_filename file) as [fileBuffer|] eqn:Hfile;
    [|by intros [= _ <-]].
  assert (Hstaged : upload_files d !! sf_filename file = Some fileBuffer).
  { destruct (R_catalog _ _ Hd0) as [_ <-]. exact Hfile. }
  rewrite readMetadata_run.
  pose proof (keeps_tl R _ Hothers) as Hothers1.
  pose proof (keeps_hd R R_refl _ Hothers1 d0) as Hd1.
  set (d1 := hd id (tl others) d0) in *.
  assert (H01 : R d d1) by eauto.
  destruct (metadata_of d1) as [|[files|]];
    [by intros [= _ <-] | | by intros [= _ <-]].
  rewrite exec_abind.
  destruct (exec_within R R_refl R_trans _
              (Hplace file fileBuffer
                 (Math_ceil_div (length fileBuffer) CHUNK_SIZE) 0 0 ∅
                 eq_refl Hstaged)
              (tl (tl others)) d1 (keeps_tl R _ Hothers1))
    as [Hd2 Hothers2].
  destruct (exec _ (tl (tl others)) d1) as [[[chunks'|e'] d2] others2];
    cbn [fst snd] in Hd2, Hothers2.
  2: { intros [= _ <-]. eauto. }
  cbn [exec]. unfold writeMetadata, write_metadata_file at 1.
  unfold unlink_upload_file at 1.
  pose proof (keeps_hd R R_refl _ Hothers2 d2) as Hd3.
  set (d3 := hd id others2 d2) in *.
  pose proof (R_catalog _ _
                (keeps_hd R R_refl _ (keeps_tl R _ Hothers2)
                   (mkDisk (Some (Json (JObject (Some
                              (js_set files (sf_fileId file)
                                 (mkFileManifest (sf_fileId file)
                                    (sf_originalname file) (sf_size file)
                                    (Math_ceil_div (length fileBuffer) CHUNK_SIZE)
                                    now (generateHash fileBuffer) chunks'))))))
                           (status_json d3) (node_files d3) (upload_files d3))))
    as [_ Hd4].
  cbn [upload_files] in Hd4. rewrite Hd4.
  assert (Hstill : upload_files d3 !! sf_filename file = Some fileBuffer).
  { destruct (R_catalog _ _ Hd1) as [_ H1], (R_catalog _ _ Hd2) as [_ H2],
             (R_catalog _ _ Hd3) as [_ H3].
    rewrite H3, H2, H1. exact Hfile. }
  rewrite Hstill. discriminate.
Qed.

(** Whatever the other requests do, short of writing the catalog file or
    the uploads directory, a call that answers with an error has left
    both as they were. *)
Lemma upload_among_failure (file : option StagedFile) (others : Others)
    (d d' : Disk) (e : Error) :
  Forall keeps_catalog others →
  upload_among generateHash CHUNK_SIZE now file others d = (Error500 e, d') →
  same_catalog d d'.
Proof.
  apply upload_among_failure_within.
  - apply same_catalog_refl.
  - apply same_catalog_trans.
  - done.
  - intros f fileBuffer todo i c chunks _ _.
    apply place_chunks_async_within.
    + apply same_catalog_refl.
    + by split.
    + by split.
Qed.

(** Among requests that write status files only, what such a call has
    changed among the chunk files are chunk files of its own file, which
    hold the staged chunk of their index. *)
Lemma upload_among_failure_chunks (file : StagedFile) (fileBuffer : bytes)
    (others : Others) (d d' : Disk) (e : Error) :
  Forall writes_status_only others →
  upload_files d !! sf_filename file = Some fileBuffer →
  upload_among generateHash CHUNK_SIZE now (Some file) others d = (Error500 e, d') →
  chunks_added (sf_fileId file) (chunkBuffer CHUNK_SIZE fileBuffer) d d'.
Proof.
  intros Hothers Hfile.
  apply upload_among_failure_within.
  - apply chunks_added_refl.
  - apply chunks_added_trans.
  - by intros d1 d2 [? _].
  - intros f b todo i c chunks [= <-] Hb.
    rewrite Hfile in Hb. injection Hb as <-.
    apply (place_chunks_async_chunks_added (request_of file fileBuffer)).
  - by apply writes_status_only_chunks.
Qed.

(** A call that gets as far as the placement loop has found its staged
    file. *)
Lemma upload_among_staged (file : StagedFile) (others : Others)
    (d d' : Disk) (e : Error) :
  Forall keeps_catalog others →
  upload_among generateHash CHUNK_SIZE now (Some file) others d = (Error500 e, d') →
  e ≠ ENOENT →
  is_Some (upload_files d !! sf_filename file).
Proof.
  intros Hothers Hrun He.
  destruct (upload_files d !! sf_filename file) as [b|] eqn:Hfile; [by eauto|].
  exfalso. revert Hrun. unfold upload_among, upload_async. cbn [exec].
  unfold read_upload_file at 1.
  destruct (keeps_hd _ same_catalog_refl others Hothers d) as [_ ->]. rewrite Hfile.
  by intros [= <- _].
Qed.

End AsyncUpload.

(** * Properties of the specification *)

Lemma NODES_first_elem : nth 0 NODES "" ∈ NODES.
Proof. apply (NODES_nth_elem 0). Qed.

#[local] Transparent NODES.

(** Discharges "every node of the population is online" and similar
    statements on a concrete disk. *)
Ltac check_population :=
  let id := fresh "id" in
  let Hin := fresh "Hin" in
  intros id Hin; unfold NODES in Hin;
  repeat (apply elem_of_cons in Hin as [->|Hin]; [vm_compute; done|]);
  by apply elem_of_nil in Hin.

(** C1 (round trip): on a disk whose catalog is readable as a catalog and
    on which every node is online, uploading any byte sequence succeeds,
    reconstructing the returned fileId then answers 'success', and the
    reconstructed file holds exactly the uploaded bytes. *)
Theorem upload_reconstruct_roundtrip (generateHash : bytes → string)
    (CHUNK_SIZE : nat) (now : string) (req : UploadRequest) (d : Disk) :
  0 < CHUNK_SIZE →
  (∃ files, metadata_of d = JObject (Some files)) →
  up_fileId req ≠ "__proto__" →
  (∀ id, id ∈ NODES → is_online d id) →
  ∃ d1 d2,
    upload generateHash CHUNK_SIZE now req d
    = (Json200 (mkUploadOk (up_fileId req) (up_originalname req)
                  (Math_ceil_div (length (up_fileBuffer req)) CHUNK_SIZE)), d1) ∧
    reconstruct generateHash (up_fileId req) d1
    = (Json200 (Reconstructed (up_fileId req) (up_originalname req)), d2) ∧
    upload_files d2 !! ("reconstructed_" +:+ up_originalname req)
    = Some (up_fileBuffer req).
Proof.
  intros Hpos [files Hmeta] Hproto Hon.
  destruct (upload_spec generateHash CHUNK_SIZE now req d files Hmeta Hproto)
    as (d1 & Hup & [m Hst] & Hreg & _).
  { right. exists (nth 0 NODES ""). split; [apply NODES_first_elem|].
    apply Hon, NODES_first_elem. }
  eexists d1, _. split; [exact Hup|]. split.
  - apply (stored_reconstruct generateHash CHUNK_SIZE req Hpos d1 _ m Hst).
    intros x [Hx Hxon]%assignment_elem. unfold is_online.
    by destruct (Hreg x) as [-> _].
  - simpl. apply lookup_insert_eq.
Qed.

Lemma upload_reconstruct_roundtrip_witness :
  ∃ d1 d2,
    upload demo_hash 2 "t1" hello_request (initial_disk "t0")
    = (Json200 (mkUploadOk "1700000000000-k3j9x2q1z" "hello.txt" 3), d1) ∧
    reconstruct demo_hash "1700000000000-k3j9x2q1z" d1
    = (Json200 (Reconstructed "1700000000000-k3j9x2q1z" "hello.txt"), d2) ∧
    upload_files d2 !! "reconstructed_hello.txt" = Some hello.
Proof.
  apply (upload_reconstruct_roundtrip demo_hash 2 "t1" hello_request
           (initial_disk "t0")).
  - lia.
  - eexists. reflexivity.
  - discriminate.
  - check_population.
Defined.

Lemma Math_ceil_div_0 (C : nat) : 0 < C → Math_ceil_div 0 C = 0.
Proof. intros HC. destruct (Math_ceil_div_spec C HC 0). nia. Qed.

(** C2 (chunking exactness): with chunk size C > 0, an upload of L bytes
    (on a readable catalog, with some node online unless L = 0) succeeds
    with [totalChunks = ceil(L / C)]: the manifest records exactly the
    chunk indices below it, each recorded chunk is on disk with the
    recorded size, every chunk but the last has C bytes, and the last has
    [L mod C] bytes, or C when [L mod C = 0]. *)
Theorem chunking_exactness (generateHash : bytes → string)
    (CHUNK_SIZE : nat) (now : string) (req : UploadRequest) (d : Disk) :
  0 < CHUNK_SIZE →
  (∃ files, metadata_of d = JObject (Some files)) →
  up_fileId req ≠ "__proto__" →
  (up_fileBuffer req = [] ∨ ∃ id, id ∈ NODES ∧ is_online d id) →
  let L := length (up_fileBuffer req) in
  ∃ n d1 m,
    upload generateHash CHUNK_SIZE now req d
    = (Json200 (mkUploadOk (up_fileId req) (up_originalname req) n), d1) ∧
    L ≤ n * CHUNK_SIZE ∧ n * CHUNK_SIZE < L + CHUNK_SIZE ∧
    manifest_of d1 (up_fileId req) = Some m ∧
    totalChunks m = n ∧
    (∀ j, n ≤ j → chunks m !! j = None) ∧
    ∀ j, j < n →
      ∃ r chunk,
        chunks m !! j = Some r ∧
        node_files d1 !! (node r, up_fileId req, j) = Some chunk ∧
        size r = length chunk ∧
        (S j < n → length chunk = CHUNK_SIZE) ∧
        (S j = n → length chunk = if L mod CHUNK_SIZE =? 0 then CHUNK_SIZE
                                  else L mod CHUNK_SIZE).
Proof.
  intros Hpos [files Hmeta] Hproto Hcan L.
  destruct (upload_spec generateHash CHUNK_SIZE now req d files Hmeta Hproto)
    as (d1 & Hup & [m Hst] & _).
  { destruct Hcan as [Hnil|Hex]; [left | by right].
    unfold total_chunks. rewrite Hnil. by apply Math_ceil_div_0. }
  destruct Hst as (Hm & Ht & _ & _ & Hlen & Hnone & Hrec).
  unfold total_chunks in *. exists (Math_ceil_div L CHUNK_SIZE), d1, m.
  destruct (Math_ceil_div_spec CHUNK_SIZE Hpos L) as [Hlo Hhi].
  split; [done|]. split; [done|]. split; [done|]. split; [done|].
  split; [done|]. split; [intros j Hj; apply Hnone; unfold L in *; lia|].
  intros j Hj.
  destruct (lookup_lt_is_Some_2 (assignment d (Math_ceil_div L CHUNK_SIZE) 0) j)
    as [x Hx]; [unfold L in *; lia|].
  destruct (Hrec j x Hx) as [Hr Hfile].
  eexists _, _. split; [exact Hr|]. split; [exact Hfile|]. split; [done|].
  split; intros Hlast.
  - by apply length_chunkBuffer_full.
  - by apply length_chunkBuffer_last.
Qed.

Lemma chunking_exactness_witness :
  ∃ n d1 m,
    upload demo_hash 2 "t1" hello_request (initial_disk "t0")
    = (Json200 (mkUploadOk "1700000000000-k3j9x2q1z" "hello.txt" n), d1) ∧
    5 ≤ n * 2 ∧ n * 2 < 5 + 2 ∧
    manifest_of d1 "1700000000000-k3j9x2q1z" = Some m ∧
    totalChunks m = n ∧
    (∀ j, n ≤ j → chunks m !! j = None) ∧
    ∀ j, j < n →
      ∃ r chunk,
        chunks m !! j = Some r ∧
        node_files d1 !! (node r, "1700000000000-k3j9x2q1z", j) = Some chunk ∧
        size r = length chunk ∧
        (S j < n → length chunk = 2) ∧
        (S j = n → length chunk = 1).
Proof.
  apply (chunking_exactness demo_hash 2 "t1" hello_request (initial_disk "t0")).
  - lia.
  - eexists. reflexivity.
  - discriminate.
  - right. exists "node1". split; [|by vm_compute].
    unfold NODES. apply list_elem_of_here.
Defined.

(** The chunk counts after an upload are the chunk counts before it,
    whatever the upload answers. *)
Lemma upload_chunkCount_unchanged (generateHash : bytes → string)
    (CHUNK_SIZE : nat) (now : string) (req : UploadRequest) (d : Disk)
    (id : string) :
  chunkCount (node_state (upload generateHash CHUNK_SIZE now req d).2 id)
  = chunkCount (node_state d id).
Proof.
  rewrite upload_unfold.
  destruct (metadata_of d) as [|[files|]]; [done | | done].
  destruct (total_chunks CHUNK_SIZE req) as [|t]; [done|].
  destruct (scan d (length NODES) 0) as [[x|] c'] eqn:Hs.
  - destruct (scan_Some _ _ _ _ _ Hs) as (Hin & Hon & _).
    destruct (place_chunks_spec generateHash CHUNK_SIZE now req (S t) 0 0 ∅ d)
      as (chunks' & d1 & -> & (_ & _ & Hreg) & _); [by eauto|].
    simpl. unfold node_state in *. simpl. apply Hreg.
  - by rewrite place_chunks_S, Hs.
Qed.

(** C4 (chunk count): the upload of the five bytes of [hello] in chunks of
    two, on the initial disk, records chunk 0 on node1, and node1's
    persisted chunk count is 0 before the upload and still 0 after it:
    the increment is made on an object that [updateNodeStatus] does not
    write. *)
Theorem chunkCount_not_incremented :
  let d1 := (upload demo_hash 2 "t1" hello_request (initial_disk "t0")).2 in
  (∃ m r, manifest_of d1 "1700000000000-k3j9x2q1z" = Some m ∧
          chunks m !! 0 = Some r ∧ node r = "node1") ∧
  chunkCount (node_state (initial_disk "t0") "node1") = 0 ∧
  chunkCount (node_state d1 "node1") = 0.
Proof.
  split; [|split; [reflexivity | by rewrite upload_chunkCount_unchanged]].
  vm_compute. eexists _, _. split; [reflexivity|]. split; reflexivity.
Qed.

(** C6 (no online nodes), refuted as stated: node1 is the only node
    online and the five bytes of [hello] are staged for upload in chunks
    of two bytes.  Chunk 0 is placed on node1; while the handler waits
    for the scan of chunk 1 a toggle request takes node1 offline, and the
    upload answers 'No online nodes available'.  The chunk file of
    chunk 0 is then on node1, where no chunk file was before, the staged
    file is still in the uploads directory, and the catalog has no
    manifest for the file. *)
Lemma interleaved_failure_leaves_chunk_file :
  let d := staged only_node1_disk in
  let answer := upload_among demo_hash 2 "t1" (Some hello_file)
                             node1_goes_offline d in
  answer.1 = Error500 NoOnlineNodes ∧
  node_files d = ∅ ∧
  node_files answer.2 !! ("node1", "1700000000000-k3j9x2q1z", 0)
  = Some ["h"; "e"]%byte ∧
  upload_files answer.2 !! "1700000000000-k3j9x2q1z.txt" = Some hello ∧
  manifest_of answer.2 "1700000000000-k3j9x2q1z" = None.
Proof. vm_compute. repeat split. Qed.

(** C6 (no online nodes), amended: take an upload that answers 'No online
    nodes available', whatever requests that write status files only, as
    toggles do, are served while it waits at its awaits.  The catalog
    file is as it was, so that no manifest of the call is visible.
    Nothing is rolled back: the staged file is still in the uploads
    directory, which is as it was, and the chunk files that differ from
    before the call are chunk files of this upload, holding the staged
    chunk of their index.  When no other request is served during the
    call, the disk is exactly what it was before the call, and no node of
    the population was online. *)
Theorem failed_upload_commits_no_manifest (generateHash : bytes → string)
    (CHUNK_SIZE : nat) (now : string) (file : StagedFile) (others : Others)
    (d d' : Disk) :
  Forall writes_status_only others →
  upload_among generateHash CHUNK_SIZE now (Some file) others d
  = (Error500 NoOnlineNodes, d') →
  metadata_json d' = metadata_json d ∧
  manifest_of d' (sf_fileId file) = manifest_of d (sf_fileId file) ∧
  upload_files d' = upload_files d ∧
  (∃ fileBuffer,
     upload_files d' !! sf_filename file = Some fileBuffer ∧
     ∀ x f j, node_files d' !! (x, f, j) = node_files d !! (x, f, j) ∨
              (f = sf_fileId file ∧
               node_files d' !! (x, f, j)
               = Some (chunkBuffer CHUNK_SIZE fileBuffer j))) ∧
  (others = [] → d' = d ∧ ∀ id, id ∈ NODES → ¬ is_online d id).
Proof.
  intros Hothers Hrun.
  pose proof (writes_status_only_catalog _ Hothers) as Hcat.
  destruct (upload_among_failure _ _ _ _ _ _ _ _ Hcat Hrun) as [Hmeta Hup].
  destruct (upload_among_staged _ _ _ _ _ _ _ _ Hcat Hrun ltac:(done))
    as [fileBuffer Hfile].
  destruct (upload_among_failure_chunks _ _ _ _ _ _ _ _ _ Hothers Hfile Hrun)
    as [_ Hchunks].
  split; [done|]. split; [by apply manifest_of_ext|]. split; [done|].
  split; [exists fileBuffer; split; [by rewrite Hup | done]|].
  intros ->. rewrite (upload_among_alone _ _ _ _ fileBuffer) in Hrun by done.
  destruct (upload generateHash CHUNK_SIZE now (request_of file fileBuffer) d)
    as [[ok|e] d1] eqn:Hseq; [done|].
  injection Hrun as -> ->.
  by apply (upload_NoOnlineNodes_inv generateHash CHUNK_SIZE now
              (request_of file fileBuffer)).
Qed.

Lemma failed_upload_commits_no_manifest_witness :
  let d := staged only_node1_disk in
  let d' := (upload_among demo_hash 2 "t1" (Some hello_file)
                          node1_goes_offline d).2 in
  metadata_json d' = metadata_json d ∧
  manifest_of d' (sf_fileId hello_file) = manifest_of d (sf_fileId hello_file) ∧
  upload_files d' = upload_files d ∧
  (∃ fileBuffer,
     upload_files d' !! sf_filename hello_file = Some fileBuffer ∧
     ∀ x f j, node_files d' !! (x, f, j) = node_files d !! (x, f, j) ∨
              (f = sf_fileId hello_file ∧
               node_files d' !! (x, f, j) = Some (chunkBuffer 2 fileBuffer j))) ∧
  (node1_goes_offline = [] → d' = d ∧ ∀ id, id ∈ NODES → ¬ is_online d id).
Proof.
  intros d d'.
  apply (failed_upload_commits_no_manifest demo_hash 2 "t1" hello_file
           node1_goes_offline d d').
  - unfold node1_goes_offline. apply Forall_app. split.
    + apply Forall_replicate. intros d0. by split.
    + apply Forall_singleton, toggle_writes_status_only.
  - vm_compute. reflexivity.
Defined.

(** C10 (reading the catalog), refuted as stated: with the metadata file
    holding the JSON text [null], [readMetadata] returns [null], which is
    not a catalog, and a lookup answers with the TypeError of reading
    [files] of [null], not with 'File not found'. *)
Lemma readMetadata_null_not_a_catalog :
  readMetadata null_metadata_disk = (Ok JNull, null_metadata_disk) ∧
  reconstruct demo_hash "1700000000000-k3j9x2q1z" null_metadata_disk
  = (Error500 TypeError, null_metadata_disk).
Proof. split; reflexivity. Qed.

(** C10 (reading the catalog), amended: [readMetadata] never throws and
    leaves the disk as it is.  When the metadata file is absent,
    unreadable or not JSON it returns the empty catalog, and every lookup
    of a fileId that is not a property name inherited from
    [Object.prototype] answers 'File not found'.  When the file holds
    JSON, it returns the parsed value as it is, catalog or not. *)
Theorem readMetadata_total (generateHash : bytes → string) (d : Disk) :
  (∃ v, readMetadata d = (Ok v, d)) ∧
  ((∀ v, metadata_json d ≠ Some (Json v)) →
   readMetadata d = (Ok (JObject (Some ∅)), d) ∧
   ∀ fileId, fileId ∉ Object_prototype_keys →
     reconstruct generateHash fileId d = (Error500 FileNotFound, d)) ∧
  (∀ v, metadata_json d = Some (Json v) → readMetadata d = (Ok v, d)).
Proof.
  split; [exists (metadata_of d); apply readMetadata_run|]. split.
  - intros Hbad.
    assert (Hempty : metadata_of d = JObject (Some ∅)).
    { unfold metadata_of. destruct (metadata_json d) as [[| |v]|]; try done.
      by destruct (Hbad v). }
    split; [by rewrite readMetadata_run, Hempty|].
    intros fileId Hown. rewrite reconstruct_no_manifest.
    + rewrite Hempty. by destruct (decide (fileId ∈ Object_prototype_keys)).
    + unfold manifest_of. rewrite Hempty. apply lookup_empty.
  - intros v Hv. rewrite readMetadata_run. unfold metadata_of. by rewrite Hv.
Qed.

Lemma readMetadata_total_witness :
  readMetadata empty_disk = (Ok (JObject (Some ∅)), empty_disk) ∧
  reconstruct demo_hash "1700000000000-k3j9x2q1z" empty_disk
  = (Error500 FileNotFound, empty_disk).
Proof.
  destruct (readMetadata_total demo_hash empty_disk) as (_ & Hbad & _).
  destruct Hbad as [Hread Hlookup]; [intros v; discriminate|].
  split; [exact Hread|]. apply Hlookup.
  vm_compute. intros H. repeat (inversion H as [|? ? ? H']; clear H; rename H' into H).
Defined.

(** C3 (rotation cursor), refuted as stated: on the initial disk, with
    every node online, an upload of one byte puts its chunk on node1 and
    leaves the cursor on node2; the next upload of one byte puts its
    first chunk on node1 again. *)
Lemma second_upload_restarts_rotation :
  let id1 := "1700000000002-aaaaaaaaa" in
  let id2 := "1700000000003-bbbbbbbbb" in
  let d1 := (upload demo_hash 2 "t1" (one_byte_request id1) (initial_disk "t0")).2 in
  let d2 := (upload demo_hash 2 "t2" (one_byte_request id2) d1).2 in
  scan (initial_disk "t0") (length NODES) 0 = (Some "node1", 1) ∧
  nth (1 mod length NODES) NODES "" = "node2" ∧
  (∃ m r, manifest_of d1 id1 = Some m ∧
          chunks m !! 0 = Some r ∧ node r = "node1") ∧
  (∃ m r, manifest_of d2 id2 = Some m ∧
          chunks m !! 0 = Some r ∧ node r = "node1").
Proof.
  split; [reflexivity|]. split; [reflexivity|].
  split; vm_compute; eexists _, _; (split; [reflexivity|]); split; reflexivity.
Qed.

(** C3 (rotation cursor), amended: the cursor advances across the chunks
    of one upload and starts again at the first node on every upload.
    For an upload that follows another one, the first chunk is on the
    first online node in population order, whatever the earlier upload
    did; each later chunk is on the first online node met when the
    population is scanned cyclically from the position after the node of
    the chunk before it, offline nodes being skipped; and when every node
    is online, chunk j of the upload is on the node at position
    [j mod |NODES|]. *)
Theorem rotation_restarts_each_upload (generateHash : bytes → string)
    (CHUNK_SIZE : nat) (now1 now2 : string) (req1 req2 : UploadRequest)
    (d d1 d2 : Disk) (ok1 ok2 : UploadOk) :
  upload generateHash CHUNK_SIZE now1 req1 d = (Json200 ok1, d1) →
  upload generateHash CHUNK_SIZE now2 req2 d1 = (Json200 ok2, d2) →
  up_fileId req2 ≠ "__proto__" →
  ∃ m, manifest_of d2 (up_fileId req2) = Some m ∧
    (∀ r, chunks m !! 0 = Some r →
       ∃ i, NODES !! i = Some (node r) ∧ is_online d1 (node r) ∧
            ∀ k id', k < i → NODES !! k = Some id' → ¬ is_online d1 id') ∧
    (∀ j r r' p, chunks m !! j = Some r → chunks m !! S j = Some r' →
       NODES !! p = Some (node r) →
       ∃ k, k < length NODES ∧
            NODES !! ((p + 1 + k) mod length NODES) = Some (node r') ∧
            is_online d1 (node r') ∧
            ∀ k' id', k' < k →
              NODES !! ((p + 1 + k') mod length NODES) = Some id' →
              ¬ is_online d1 id') ∧
    ((∀ id, id ∈ NODES → is_online d1 id) →
     ∀ j r, chunks m !! j = Some r → node r = nth (j mod length NODES) NODES "").
Proof.
  intros _ Hup2 Hproto.
  destruct (upload_Json200_inv _ _ _ _ _ _ _ Hup2) as [[files Hmeta] Hcan].
  destruct (upload_spec generateHash CHUNK_SIZE now2 req2 d1 files Hmeta Hproto Hcan)
    as (d2' & Hup & [m Hst] & _).
  rewrite Hup in Hup2. injection Hup2 as _ <-.
  destruct Hst as (Hm & _ & _ & _ & Hlen & Hnone & Hrec).
  assert (Hnode : ∀ j r, chunks m !! j = Some r →
            assignment d1 (Math_ceil_div (length (up_fileBuffer req2)) CHUNK_SIZE) 0 !! j
            = Some (node r)).
  { intros j r Hr.
    destruct (decide (j < totalChunks m)) as [Hj|Hj];
      [|rewrite Hnone in Hr by lia; done].
    destruct (lookup_lt_is_Some_2 _ j ltac:(rewrite Hlen; exact Hj)) as [x Hx].
    destruct (Hrec j x Hx) as [Hr' _]. rewrite Hr' in Hr.
    injection Hr as <-. exact Hx. }
  exists m. split; [done|]. split.
  - intros r Hr. apply Hnode in Hr.
    destruct (assignment_head _ _ _ _ Hr) as [c' Hs].
    destruct (scan_first_online _ _ _ Hs) as (i & Hi & _ & Hoff).
    destruct (scan_Some _ _ _ _ _ Hs) as (_ & Hon & _).
    exists i. done.
  - split.
    + intros j r r' p Hr Hr' Hp. apply Hnode in Hr, Hr'.
      destruct (assignment_consecutive _ _ _ _ _ _ Hr Hr') as (c1 & c2 & Hx & Hs).
      destruct (scan_skips _ _ _ _ _ Hs) as (k & Hk & _ & Hy & Hon & Hoff).
      pose proof (position_of_cursor c1 p _ Hx Hp) as Hc1.
      assert (Hmod : ∀ k, (S c1 + k) mod length NODES
                          = (p + 1 + k) mod length NODES).
      { intros k0. rewrite <- Hc1.
        replace (c1 mod length NODES + 1 + k0)
          with (c1 mod length NODES + (1 + k0)) by lia.
        rewrite Nat.Div0.add_mod_idemp_l. f_equal. lia. }
      exists k. split; [done|]. split; [|split; [done|]].
      * rewrite <- Hmod, Hy. apply NODES_lookup_nth.
      * intros k' id' Hk' Hid'. rewrite <- Hmod, NODES_lookup_nth in Hid'.
        injection Hid' as <-. by apply Hoff.
    + intros Hon j r Hr. apply Hnode in Hr.
      by rewrite (assignment_all_online d1 _ Hon 0 j _ Hr).
Qed.

Lemma rotation_restarts_each_upload_witness :
  let id1 := "1700000000002-aaaaaaaaa" in
  let id2 := "1700000000000-k3j9x2q1z" in
  let d1 := (upload demo_hash 1 "t2" (one_byte_request id1) node1_off_disk).2 in
  let d2 := (upload demo_hash 1 "t3" hello_request d1).2 in
  ∃ m, manifest_of d2 id2 = Some m ∧
    (∀ r, chunks m !! 0 = Some r →
       ∃ i, NODES !! i = Some (node r) ∧ is_online d1 (node r) ∧
            ∀ k id', k < i → NODES !! k = Some id' → ¬ is_online d1 id') ∧
    (∀ j r r' p, chunks m !! j = Some r → chunks m !! S j = Some r' →
       NODES !! p = Some (node r) →
       ∃ k, k < length NODES ∧
            NODES !! ((p + 1 + k) mod length NODES) = Some (node r') ∧
            is_online d1 (node r') ∧
            ∀ k' id', k' < k →
              NODES !! ((p + 1 + k') mod length NODES) = Some id' →
              ¬ is_online d1 id') ∧
    ((∀ id, id ∈ NODES → is_online d1 id) →
     ∀ j r, chunks m !! j = Some r → node r = nth (j mod length NODES) NODES "").
Proof.
  intros id1 id2 d1 d2.
  apply (rotation_restarts_each_upload demo_hash 1 "t2" "t3"
           (one_byte_request id1) hello_request node1_off_disk d1 d2
           (mkUploadOk id1 "a.bin" 1)
           (mkUploadOk id2 "hello.txt" 5)).
  - vm_compute. reflexivity.
  - vm_compute. reflexivity.
  - discriminate.
Defined.

(** C5 (outcome classification), refuted as stated: the empty file is a
    stored file with zero chunks; reconstructing it retrieves zero chunks
    and the answer is 'success', not 'failed'. *)
Lemma empty_file_reconstructs :
  let fileId := up_fileId empty_request in
  let d1 := (upload demo_hash 2 "t1" empty_request (initial_disk "t0")).2 in
  ∃ m, manifest_of d1 fileId = Some m ∧
       totalChunks m = 0 ∧
       length (retrieved_of demo_hash d1 fileId m 0 (totalChunks m)) = 0 ∧
       (reconstruct demo_hash fileId d1).1 = Json200 (Reconstructed fileId "empty.bin").
Proof.
  vm_compute. eexists. split; [reflexivity|]. repeat split.
Qed.

(** The reason reported for a chunk that is not retrieved tells the three
    causes apart. *)
Lemma chunk_outcome_Throw (generateHash : bytes → string) (d : Disk)
    (fileId : string) (j : nat) (r : ChunkRecord) (e : Error) :
  chunk_outcome generateHash d fileId j r = Throw e →
  (e = NodeOffline ∧ ¬ is_online d (node r)) ∨
  (e = ENOENT ∧ is_online d (node r) ∧
   node_files d !! (node r, fileId, j) = None) ∨
  (e = ChunkHashMismatch j ∧ is_online d (node r) ∧
   ∃ b, node_files d !! (node r, fileId, j) = Some b ∧ generateHash b ≠ hash r).
Proof.
  unfold chunk_outcome.
  destruct (decide (is_online d (node r))) as [Hon|Hoff];
    [|intros [= <-]; by left].
  destruct (node_files d !! (node r, fileId, j)) as [b|];
    [|intros [= <-]; right; by left].
  destruct (decide (generateHash b ≠ hash r)); [|done].
  intros [= <-]. right. right. by eauto.
Qed.

(** C5 (outcome classification), amended: for a manifest that records
    all its chunks, with n = totalChunks and k the number of chunks
    retrieved (node online, chunk file read, digest equal to the recorded
    one), the handler classifies 'success' exactly when k = n, which
    includes the empty file (the answer is then 'success' unless the
    whole-file digest check throws), 'partial' exactly when 0 < k < n,
    and 'failed' exactly when k = 0 < n.  The missing list has exactly
    n - k entries; each carries a chunk index, the node recorded for it
    and a reason that tells node-offline, read failure and digest
    mismatch apart. *)
Theorem reconstruct_classification (generateHash : bytes → string)
    (fileId : string) (d : Disk) (m : FileManifest) :
  manifest_of d fileId = Some m →
  complete_manifest m →
  let n := totalChunks m in
  let k := length (retrieved_of generateHash d fileId m 0 n) in
  let miss := missing_of generateHash d fileId m 0 n in
  let answer := (reconstruct generateHash fileId d).1 in
  k ≤ n ∧
  length miss = n - k ∧
  (k = n ↔ answer = Json200 (Reconstructed fileId (originalName m)) ∨
           answer = Error500 FileHashMismatch) ∧
  (0 < k ∧ k < n ↔
   answer = Json200 (Incomplete partial fileId (Some (originalName m)) k
                       (Some n) miss)) ∧
  (k = 0 ∧ 0 < n ↔
   answer = Json200 (Incomplete failed fileId (Some (originalName m)) k
                       (Some n) miss)) ∧
  (∀ e, e ∈ miss →
     ∃ r, mc_chunkId e < n ∧ chunks m !! mc_chunkId e = Some r ∧
          mc_node e = node r ∧
          ((mc_error e = NodeOffline ∧ ¬ is_online d (node r)) ∨
           (mc_error e = ENOENT ∧ is_online d (node r) ∧
            node_files d !! (node r, fileId, mc_chunkId e) = None) ∨
           (mc_error e = ChunkHashMismatch (mc_chunkId e) ∧ is_online d (node r) ∧
            ∃ b, node_files d !! (node r, fileId, mc_chunkId e) = Some b ∧
                 generateHash b ≠ hash r))).
Proof.
  intros Hm Hcomplete n k miss answer.
  pose proof (retrieved_missing_length generateHash fileId m d n 0
                ltac:(intros j _ Hj; by apply Hcomplete)) as Hsum.
  fold k in Hsum. fold miss in Hsum.
  assert (Hle : k ≤ n) by lia.
  pose proof (reconstruct_spec generateHash fileId d m Hm Hcomplete) as Hrun.
  simpl in Hrun. fold n in Hrun. fold k in Hrun. fold miss in Hrun.
  destruct (classify_spec k n Hle) as (Hsuccess & Hpartial & Hfailed).
  split; [done|]. split; [lia|].
  assert (Hanswer :
    (k = n ∧ (answer = Json200 (Reconstructed fileId (originalName m)) ∨
              answer = Error500 FileHashMismatch)) ∨
    (k ≠ n ∧ answer = Json200 (Incomplete (classify k n) fileId
                                 (Some (originalName m)) k (Some n) miss))).
  { unfold answer. rewrite Hrun.
    destruct (decide (k = n)) as [Hall|Hnot]; [left | right; done].
    split; [done|]. destruct (decide (generateHash _ ≠ _)); [by right | by left]. }
  split; [|split; [|split]].
  - split; [intros Hk; destruct Hanswer as [[_ ?]|[? _]]; done|].
    intros Hans. destruct Hanswer as [[? _]|[_ Heq]]; [done|].
    rewrite Heq in Hans. by destruct Hans.
  - split.
    + intros Hk. destruct Hanswer as [[? _]|[_ ->]]; [lia|].
      by rewrite (proj2 Hpartial Hk).
    + intros Hans. destruct Hanswer as [[_ [Heq|Heq]]|[_ Heq]];
        rewrite Heq in Hans; try done.
      injection Hans as Hc. by apply Hpartial.
  - split.
    + intros Hk. destruct Hanswer as [[? _]|[_ ->]]; [lia|].
      by rewrite (proj2 Hfailed Hk).
    + intros Hans. destruct Hanswer as [[_ [Heq|Heq]]|[_ Heq]];
        rewrite Heq in Hans; try done.
      injection Hans as Hc. by apply Hfailed.
  - intros e He. unfold miss, missing_of in He.
    apply list_elem_of_omap in He as (j & [_ Hj]%elem_of_seq & Hrep).
    unfold report in Hrep.
    destruct (chunks m !! j) as [r|] eqn:Hr; [|done].
    destruct (chunk_outcome generateHash d fileId j r) as [b|err] eqn:Hout; [done|].
    injection Hrep as <-. simpl. exists r.
    split; [unfold n; lia|]. split; [done|]. split; [done|].
    by apply chunk_outcome_Throw.
Qed.

Lemma reconstruct_classification_witness :
  (reconstruct demo_hash "1700000000000-k3j9x2q1z" hello_disk_node2_off).1
  = Json200 (Incomplete partial "1700000000000-k3j9x2q1z" (Some "hello.txt")
               2 (Some 3) [mkMissingChunk 1 "node2" NodeOffline]).
Proof.
  destruct (reconstruct_classification demo_hash "1700000000000-k3j9x2q1z"
              hello_disk_node2_off hello_manifest)
    as (_ & _ & _ & Hpartial & _).
  - vm_compute. reflexivity.
  - intros j Hj. simpl in Hj.
    destruct j as [|[|[|j]]]; [vm_compute; eauto .. | lia].
  - apply (proj1 Hpartial). vm_compute. lia.
Defined.

(** C8 (liveness filtering).  First part: after a node has been set to a
    status other than online, an upload that succeeds records none of its
    chunks on that node.  Second part: let a file be uploaded with every
    node online, and a node x then be set offline.  The manifest stays as
    it was; reconstruction reports every chunk recorded on x as missing
    with the reason 'Node offline', and reports nothing else.  Once x is
    set online again, the manifest and the chunk files still being those
    of the upload, reconstruction answers 'success' and writes the
    uploaded bytes. *)
Theorem offline_node_filtering (generateHash : bytes → string) (CHUNK_SIZE : nat) :
  (∀ (d d0 d0' : Disk) (x t now : string) (rs : option string)
     (tk : ToggleOk) (req : UploadRequest) (ok : UploadOk),
     toggle t x rs d = (Json200 tk, d0) →
     to_status tk ≠ "online" →
     up_fileId req ≠ "__proto__" →
     upload generateHash CHUNK_SIZE now req d0 = (Json200 ok, d0') →
     ∃ m, manifest_of d0' (up_fileId req) = Some m ∧
          ∀ j r, chunks m !! j = Some r → node r ≠ x) ∧
  (∀ (d d1 d2 d3 : Disk) (x now t1 t2 : string) (rs1 rs2 : option string)
     (tk1 tk2 : ToggleOk) (req : UploadRequest) (ok : UploadOk),
     0 < CHUNK_SIZE →
     up_fileId req ≠ "__proto__" →
     (∀ id, id ∈ NODES → is_online d id) →
     upload generateHash CHUNK_SIZE now req d = (Json200 ok, d1) →
     toggle t1 x rs1 d1 = (Json200 tk1, d2) →
     to_status tk1 ≠ "online" →
     let answer := reconstruct generateHash (up_fileId req) d2 in
     toggle t2 x rs2 answer.2 = (Json200 tk2, d3) →
     to_status tk2 = "online" →
     ∃ m, manifest_of d1 (up_fileId req) = Some m ∧
          manifest_of d2 (up_fileId req) = Some m ∧
          manifest_of d3 (up_fileId req) = Some m ∧
          node_files d3 = node_files d1 ∧
          (∀ j r, chunks m !! j = Some r → node r = x →
                  mkMissingChunk j x NodeOffline ∈ missing_list answer.1) ∧
          (∀ e, e ∈ missing_list answer.1 →
                mc_node e = x ∧ mc_error e = NodeOffline) ∧
          ∃ d4, reconstruct generateHash (up_fileId req) d3
                = (Json200 (Reconstructed (up_fileId req) (up_originalname req)), d4) ∧
                upload_files d4 !! ("reconstructed_" +:+ up_originalname req)
                = Some (up_fileBuffer req)).
Proof.
  split.
  - intros d d0 d0' x t now rs tk req ok Htog Hoff Hproto Hup.
    destruct (toggle_spec _ _ _ _ _ _ Htog) as (_ & _ & _ & _ & Hst & _).
    destruct (upload_Json200_inv _ _ _ _ _ _ _ Hup) as [[files Hmeta] Hcan].
    destruct (upload_spec generateHash CHUNK_SIZE now req d0 files Hmeta Hproto Hcan)
      as (d' & Hup' & [m Hstored] & _).
    rewrite Hup' in Hup. injection Hup as _ <-.
    destruct Hstored as (Hm & _ & _ & _ & Hlen & Hnone & Hrec).
    exists m. split; [done|]. intros j r Hr Hrx.
    destruct (decide (j < totalChunks m)) as [Hj|Hj];
      [|rewrite Hnone in Hr by lia; done].
    destruct (lookup_lt_is_Some_2 _ j ltac:(rewrite Hlen; exact Hj)) as [y Hy].
    destruct (Hrec j y Hy) as [Hr' _]. rewrite Hr' in Hr. injection Hr as <-.
    simpl in Hrx. subst y.
    apply list_elem_of_lookup_2, assignment_elem in Hy as [_ Hon].
    unfold is_online in Hon. congruence.
  - intros d d1 d2 d3 x now t1 t2 rs1 rs2 tk1 tk2 req ok Hpos Hproto Hon
           Hup Htog1 Hoff answer Htog2 Hback.
    destruct (upload_Json200_inv _ _ _ _ _ _ _ Hup) as [[files Hmeta] Hcan].
    destruct (upload_spec generateHash CHUNK_SIZE now req d files Hmeta Hproto Hcan)
      as (d' & Hup' & [m Hst1] & Hreg & _).
    rewrite Hup' in Hup. injection Hup as _ ->.
    set (nodes := assignment d _ 0) in *.
    assert (Hon1 : ∀ y, y ∈ nodes → is_online d1 y).
    { intros y [_ Hy]%assignment_elem. unfold is_online.
      by destruct (Hreg y) as [-> _]. }
    destruct (toggle_spec _ _ _ _ _ _ Htog1)
      as (Hx & Hmj2 & Hnf2 & _ & Hst2 & _ & Hother2).
    assert (Hst2' : stored generateHash CHUNK_SIZE req d2 nodes m).
    { apply (stored_transfer _ _ _ d1); [done | by apply manifest_of_ext | done]. }
    pose proof (stored_complete _ _ _ _ _ _ Hst2') as Hcomplete.
    assert (Hm2 : manifest_of d2 (up_fileId req) = Some m) by apply Hst2'.
    assert (Hoff2 : ¬ is_online d2 x) by (unfold is_online; congruence).
    assert (Hon2 : ∀ y, y ∈ nodes → y ≠ x → is_online d2 y).
    { intros y Hy Hne. unfold is_online. rewrite Hother2 by done. by apply Hon1. }
    destruct (reconstruct_preserves generateHash _ d2 m Hm2 Hcomplete)
      as (Hmj2' & Hsj2' & Hnf2'). fold answer in Hmj2', Hsj2', Hnf2'.
    destruct (toggle_spec _ _ _ _ _ _ Htog2)
      as (_ & Hmj3 & Hnf3 & _ & Hst3 & _ & Hother3).
    assert (Hst3' : stored generateHash CHUNK_SIZE req d3 nodes m).
    { apply (stored_transfer _ _ _ d2); [done | | congruence].
      apply manifest_of_ext. congruence. }
    assert (Hon3 : ∀ y, y ∈ nodes → is_online d3 y).
    { intros y Hy. destruct (decide (y = x)) as [->|Hne].
      - unfold is_online. congruence.
      - unfold is_online. rewrite Hother3 by done.
        rewrite (node_state_ext d2 answer.2) by done. by apply Hon2. }
    assert (Hreport : ∀ j y, nodes !! j = Some y →
              report generateHash d2 (up_fileId req) m j
              = if decide (y = x) then Some (mkMissingChunk j x NodeOffline)
                else None).
    { intros j y Hy. destruct (stored_retrieve _ _ _ _ _ _ j y Hst2' Hy) as [_ ->].
      destruct (decide (y = x)) as [->|Hne].
      - by destruct (decide (is_online d2 x)).
      - destruct (decide (is_online d2 y)) as [|Hn]; [done|].
        destruct Hn. apply Hon2; [by eapply list_elem_of_lookup_2 | done]. }
    pose proof (reconstruct_spec generateHash _ d2 m Hm2 Hcomplete) as Hrun.
    simpl in Hrun. fold answer in Hrun.
    pose proof (retrieved_missing_length generateHash (up_fileId req) m d2
                  (totalChunks m) 0 ltac:(intros j _ Hj; by apply Hcomplete)) as Hsum.
    destruct Hst1 as (Hm1 & _ & _ & _ & Hlen & Hnone & Hrec).
    exists m. split; [done|]. split; [done|]. split; [apply Hst3'|].
    split; [congruence|]. split; [|split].
    + intros j r Hr Hrx.
      destruct (decide (j < totalChunks m)) as [Hj|Hj];
        [|rewrite Hnone in Hr by lia; done].
      destruct (lookup_lt_is_Some_2 nodes j ltac:(rewrite Hlen; exact Hj)) as [y Hy].
      destruct (Hrec j y Hy) as [Hr' _]. rewrite Hr' in Hr. injection Hr as <-.
      simpl in Hrx. subst y.
      assert (Hin : mkMissingChunk j x NodeOffline
                    ∈ missing_of generateHash d2 (up_fileId req) m 0 (totalChunks m)).
      { apply list_elem_of_omap. exists j. split; [apply elem_of_seq; lia|].
        rewrite (Hreport j x Hy). by destruct (decide (x = x)). }
      rewrite Hrun.
      destruct (decide (length _ = totalChunks m)) as [Hall|Hnot]; [|done].
      exfalso. rewrite Hall in Hsum.
      destruct (missing_of generateHash d2 (up_fileId req) m 0 (totalChunks m));
        [by apply elem_of_nil in Hin | simpl in Hsum; lia].
    + intros e He. rewrite Hrun in He.
      destruct (decide (length _ = totalChunks m)) as [Hall|Hnot].
      { destruct (decide (generateHash _ ≠ fileHash m));
          simpl in He; by apply elem_of_nil in He. }
      simpl in He.
      apply list_elem_of_omap in He as (j & [_ Hj]%elem_of_seq & Hrep).
      destruct (lookup_lt_is_Some_2 nodes j ltac:(rewrite Hlen; lia)) as [y Hy].
      rewrite (Hreport j y Hy) in Hrep.
      destruct (decide (y = x)); [|done]. by injection Hrep as <-.
    + eexists. split.
      * by apply (stored_reconstruct generateHash CHUNK_SIZE req Hpos d3 nodes m).
      * simpl. apply lookup_insert_eq.
Qed.

Lemma offline_node_filtering_witness :
  (∃ m, manifest_of (upload demo_hash 2 "t2" hello_request node1_off_disk).2
                    "1700000000000-k3j9x2q1z" = Some m ∧
        ∀ j r, chunks m !! j = Some r → node r ≠ "node1") ∧
  (∃ m, manifest_of hello_disk "1700000000000-k3j9x2q1z" = Some m ∧
        manifest_of hello_disk_node2_off "1700000000000-k3j9x2q1z" = Some m ∧
        manifest_of hello_disk_node2_back "1700000000000-k3j9x2q1z" = Some m ∧
        node_files hello_disk_node2_back = node_files hello_disk ∧
        (∀ j r, chunks m !! j = Some r → node r = "node2" →
                mkMissingChunk j "node2" NodeOffline
                ∈ missing_list (reconstruct demo_hash "1700000000000-k3j9x2q1z"
                                  hello_disk_node2_off).1) ∧
        (∀ e, e ∈ missing_list (reconstruct demo_hash "1700000000000-k3j9x2q1z"
                                  hello_disk_node2_off).1 →
              mc_node e = "node2" ∧ mc_error e = NodeOffline) ∧
        ∃ d4, reconstruct demo_hash "1700000000000-k3j9x2q1z" hello_disk_node2_back
              = (Json200 (Reconstructed "1700000000000-k3j9x2q1z" "hello.txt"), d4) ∧
              upload_files d4 !! "reconstructed_hello.txt" = Some hello).
Proof.
  destruct (offline_node_filtering demo_hash 2) as [Hplace Hread].
  split.
  - apply (Hplace (initial_disk "t0") node1_off_disk _ "node1" "t1" "t2" None
             (mkToggleOk "node1" "offline") hello_request
             (mkUploadOk "1700000000000-k3j9x2q1z" "hello.txt" 3)).
    + vm_compute. reflexivity.
    + discriminate.
    + discriminate.
    + vm_compute. reflexivity.
  - apply (Hread (initial_disk "t0") hello_disk hello_disk_node2_off
             hello_disk_node2_back "node2" "t1" "t2" "t3" None None
             (mkToggleOk "node2" "offline") (mkToggleOk "node2" "online")
             hello_request (mkUploadOk "1700000000000-k3j9x2q1z" "hello.txt" 3)).
    + lia.
    + discriminate.
    + check_population.
    + vm_compute. reflexivity.
    + vm_compute. reflexivity.
    + discriminate.
    + vm_compute. reflexivity.
    + reflexivity.
Defined.

(** * Further properties of the server *)

(** ** The event log *)

Lemma take_app_take {A} (l k : list A) (n m : nat) :
  n ≤ m → take n (l ++ take m k) = take n (l ++ k).
Proof.
  intros Hnm. rewrite !take_app, take_take. do 2 f_equal. lia.
Qed.

(** One call on a log of at most 100 entries. *)
Lemma logEvent_take (now message : string) (type : option string)
    (logs : list LogEntry) :
  length logs ≤ 100 →
  logEvent now message type (Some logs)
  = Some (take 100 (mkLogEntry now (default "info" type) message :: logs)).
Proof.
  intros Hlen. unfold logEvent. f_equal.
  change (default [] (Some logs)) with logs.
  destruct (decide (100 < length (mkLogEntry now (default "info" type) message
                                    :: logs))) as [Hfull|Hroom].
  - rewrite removelast_firstn_len. f_equal. simpl in *. lia.
  - rewrite take_ge; [done | simpl in *; lia].
Qed.

Lemma log_events_cons (call : string * string * option string)
    (calls : list (string * string * option string))
    (logs : option (list LogEntry)) :
  log_events (call :: calls) logs
  = log_events calls (logEvent call.1.1 call.1.2 call.2 logs).
Proof. reflexivity. Qed.

Lemma log_events_take (calls : list (string * string * option string)) :
  ∀ logs, length logs ≤ 100 →
  api_logs (log_events calls (Some logs))
  = take 100 (reverse (entry_of <$> calls) ++ logs).
Proof.
  induction calls as [|call calls IH]; intros logs Hlen.
  - simpl. by rewrite take_ge.
  - rewrite log_events_cons, logEvent_take by done.
    rewrite IH by (rewrite length_take; lia).
    rewrite take_app_take by done.
    rewrite fmap_cons, reverse_cons, <- app_assoc. done.
Qed.

(** X1 (event log): whatever calls of [logEvent] a process has made since
    it started, [GET /api/logs] returns the entries of the 100 most
    recent calls, the newest first. *)
Theorem logs_are_the_latest_hundred
    (calls : list (string * string * option string)) :
  api_logs (log_events calls None) = take 100 (reverse (entry_of <$> calls)).
Proof.
  destruct calls as [|call calls]; [done|].
  rewrite log_events_cons.
  change (logEvent call.1.1 call.1.2 call.2 None)
    with (logEvent call.1.1 call.1.2 call.2 (Some [])).
  rewrite <- log_events_cons.
  rewrite log_events_take by (simpl; lia). by rewrite app_nil_r.
Qed.

(** ** Start-up *)

#[local] Opaque NODES.

Lemma init_nodes_spec (now : string) (nodes : list string) :
  ∀ d, ∃ d',
    init_nodes now nodes d = (Ok tt, d') ∧
    metadata_json d' = metadata_json d ∧
    node_files d' = node_files d ∧
    upload_files d' = upload_files d ∧
    ∀ id, status_json d' !! id
          = match status_json d !! id with
            | Some f => Some f
            | None => if decide (id ∈ nodes)
                      then Some (Json (mkNodeState id "online" 0 (Some now)))
                      else None
            end.
Proof.
  induction nodes as [|node rest IH]; intros d.
  - exists d. split; [done|]. split; [done|]. split; [done|]. split; [done|].
    intros id. destruct (status_json d !! id); [done|].
    destruct (decide (id ∈ [])) as [Hin|]; [|done]. by apply elem_of_nil in Hin.
  - cbn [init_nodes]. unfold bind at 1, fileExists at 1.
    destruct (status_json d !! node) as [f|] eqn:Hnode.
    + unfold bind at 1, ret at 1.
      destruct (IH d) as (d' & -> & Hm & Hn & Hu & Hs).
      exists d'. split; [done|]. split; [done|]. split; [done|]. split; [done|].
      intros id. rewrite Hs. destruct (status_json d !! id) eqn:Hid; [done|].
      destruct (decide (id ∈ rest)) as [Hin|Hout].
      * rewrite decide_True; [done | by apply list_elem_of_further].
      * rewrite decide_False; [done|].
        intros [->|?]%elem_of_cons; [congruence | done].
    + unfold bind at 1, write_status_file at 1.
      set (d1 := mkDisk _ _ _ _).
      destruct (IH d1) as (d' & -> & Hm & Hn & Hu & Hs).
      exists d'. split; [done|]. split; [done|]. split; [done|]. split; [done|].
      intros id. rewrite Hs. unfold d1. simpl. rewrite lookup_insert.
      destruct (decide (node = id)) as [->|Hne].
      * rewrite Hnode. rewrite decide_True; [done | apply list_elem_of_here].
      * destruct (status_json d !! id); [done|].
        destruct (decide (id ∈ rest)) as [Hin|Hout].
        -- rewrite decide_True; [done | by apply list_elem_of_further].
        -- rewrite decide_False; [done|].
           intros [->|?]%elem_of_cons; [congruence | done].
Qed.

Lemma initializeSystem_spec (now : string) (d : Disk) :
  ∃ d',
    initializeSystem now d = (Ok tt, d') ∧
    (∀ id, status_json d' !! id
           = match status_json d !! id with
             | Some f => Some f
             | None => if decide (id ∈ NODES)
                       then Some (Json (mkNodeState id "online" 0 (Some now)))
                       else None
             end) ∧
    metadata_json d'
    = match metadata_json d with
      | Some f => Some f
      | None => Some (Json (JObject (Some ∅)))
      end ∧
    node_files d' = node_files d ∧
    upload_files d' = upload_files d.
Proof.
  unfold initializeSystem, try_catch. unfold bind at 1.
  destruct (init_nodes_spec now NODES d) as (d1 & -> & Hm & Hn & Hu & Hs).
  unfold bind at 1, fileExists at 1. rewrite Hm.
  destruct (metadata_json d) as [f|] eqn:Hmeta.
  - exists d1. unfold ret. split; [done|]. split; [done|]. by rewrite Hm.
  - eexists. unfold write_metadata_file. split; [reflexivity|]. simpl. done.
Qed.

(** X2 (start-up): [initializeSystem] never fails; it creates the status
    file of every node of the population that has none (online, chunk
    count 0) and the metadata file when there is none (the empty
    catalog), and leaves every file that exists as it is, be it
    unreadable or not JSON: a restart neither resets a node nor repairs a
    file. *)
Theorem initializeSystem_creates_only_missing (now : string) (d : Disk) :
  ∃ d',
    initializeSystem now d = (Ok tt, d') ∧
    (∀ id, status_json d' !! id
           = match status_json d !! id with
             | Some f => Some f
             | None => if decide (id ∈ NODES)
                       then Some (Json (mkNodeState id "online" 0 (Some now)))
                       else None
             end) ∧
    metadata_json d'
    = match metadata_json d with
      | Some f => Some f
      | None => Some (Json (JObject (Some ∅)))
      end ∧
    node_files d' = node_files d ∧
    upload_files d' = upload_files d.
Proof. apply initializeSystem_spec. Qed.

Lemma Disk_eq (d d' : Disk) :
  metadata_json d' = metadata_json d →
  status_json d' = status_json d →
  node_files d' = node_files d →
  upload_files d' = upload_files d →
  d' = d.
Proof. destruct d, d'. simpl. by intros -> -> -> ->. Qed.

(** X3 (restart): running [initializeSystem] again, at any later time,
    changes nothing. *)
Theorem initializeSystem_idempotent (now now' : string) (d : Disk) :
  (initializeSystem now' (initializeSystem now d).2).2 = (initializeSystem now d).2.
Proof.
  destruct (initializeSystem_spec now d) as (d1 & -> & Hs & Hm & Hn & Hu).
  cbn [snd].
  destruct (initializeSystem_spec now' d1) as (d2 & -> & Hs' & Hm' & Hn' & Hu').
  cbn [snd]. apply Disk_eq; [| |done|done].
  - rewrite Hm', Hm. by destruct (metadata_json d).
  - apply map_eq. intros id. rewrite Hs', Hs.
    destruct (status_json d !! id); [done|].
    by destruct (decide (id ∈ NODES)).
Qed.

(** ** The toggle route *)

Lemma toggle_flip_run (now id : string) (d : Disk) :
  id ∈ NODES →
  toggle now id None d
  = let st := node_state d id in
    let s := if decide (is_online d id) then "offline" else "online" in
    (Json200 (mkToggleOk id s),
     mkDisk (metadata_json d)
            (<[id := Json (mkNodeState (nodeId st) s (chunkCount st) (Some now))]>
               (status_json d))
            (node_files d) (upload_files d)).
Proof.
  intros Hin. unfold toggle, respond, toggle_body.
  destruct (decide (id ∈ NODES)); [|done].
  unfold bind at 1. rewrite getNodeStatus_run.
  unfold bind at 1. rewrite updateNodeStatus_run. unfold is_online.
  destruct (decide (status (node_state d id) = "online")); reflexivity.
Qed.

(** X4 (toggle twice): for a node of the population, a toggle request
    without a status answers with the flipped liveness, and two such
    requests in a row bring the node back to the liveness it had: it is
    online after them exactly when it was online before, its chunk count
    is unchanged, and nothing else on the disk has changed but its
    lastSeen stamp. *)
Theorem toggle_twice_restores (t1 t2 id : string) (d : Disk) :
  id ∈ NODES →
  let r1 := toggle t1 id None d in
  let r2 := toggle t2 id None r1.2 in
  r1.1 = Json200 (mkToggleOk id (if decide (is_online d id)
                                 then "offline" else "online")) ∧
  (is_online r1.2 id ↔ ¬ is_online d id) ∧
  (is_online r2.2 id ↔ is_online d id) ∧
  chunkCount (node_state r2.2 id) = chunkCount (node_state d id) ∧
  (∀ id', id' ≠ id → node_state r2.2 id' = node_state d id') ∧
  metadata_json r2.2 = metadata_json d ∧
  node_files r2.2 = node_files d ∧
  upload_files r2.2 = upload_files d.
Proof.
  intros Hin r1 r2.
  pose proof (toggle_flip_run t1 id d Hin) as H1. cbn zeta in H1. fold r1 in H1.
  destruct r1 as [a1 d1]. injection H1 as -> Hd1.
  assert (Hrun1 : toggle t1 id None d
                  = (Json200 (mkToggleOk id (if decide (is_online d id)
                                             then "offline" else "online")), d1))
    by (rewrite Hd1; apply toggle_flip_run, Hin).
  destruct (toggle_spec _ _ _ _ _ _ Hrun1) as (_ & Hm1 & Hn1 & Hu1 & Hs1 & Hc1 & Ho1).
  cbn [fst snd] in *.
  pose proof (toggle_flip_run t2 id d1 Hin) as H2. cbn zeta in H2. fold r2 in H2.
  destruct r2 as [a2 d2]. injection H2 as -> Hd2.
  assert (Hrun2 : toggle t2 id None d1
                  = (Json200 (mkToggleOk id (if decide (is_online d1 id)
                                             then "offline" else "online")), d2))
    by (rewrite Hd2; apply toggle_flip_run, Hin).
  destruct (toggle_spec _ _ _ _ _ _ Hrun2) as (_ & Hm2 & Hn2 & Hu2 & Hs2 & Hc2 & Ho2).
  cbn [fst snd to_status] in *. clear Hd1 Hd2 Hrun1 Hrun2.
  assert (Hflip1 : is_online d1 id ↔ ¬ is_online d id).
  { unfold is_online at 1. rewrite Hs1.
    destruct (decide (is_online d id)); split; done. }
  assert (Hflip2 : is_online d2 id ↔ is_online d id).
  { unfold is_online at 1. rewrite Hs2.
    destruct (decide (is_online d1 id)) as [H1|H1].
    - apply Hflip1 in H1. split; [discriminate | done].
    - split; [|done]. intros _. destruct (decide (is_online d id)); [done|].
      destruct H1. by apply Hflip1. }
  split; [done|]. split; [done|]. split; [done|].
  split; [congruence|]. split; [|split; [congruence | split; congruence]].
  intros id' Hne. rewrite Ho2, Ho1 by done. done.
Qed.

Lemma toggle_twice_restores_witness :
  let r1 := toggle "t1" "node3" None (initial_disk "t0") in
  let r2 := toggle "t2" "node3" None r1.2 in
  r1.1 = Json200 (mkToggleOk "node3"
                    (if decide (is_online (initial_disk "t0") "node3")
                     then "offline" else "online")) ∧
  (is_online r1.2 "node3" ↔ ¬ is_online (initial_disk "t0") "node3") ∧
  (is_online r2.2 "node3" ↔ is_online (initial_disk "t0") "node3") ∧
  chunkCount (node_state r2.2 "node3")
  = chunkCount (node_state (initial_disk "t0") "node3") ∧
  (∀ id', id' ≠ "node3" →
          node_state r2.2 id' = node_state (initial_disk "t0") id') ∧
  metadata_json r2.2 = metadata_json (initial_disk "t0") ∧
  node_files r2.2 = node_files (initial_disk "t0") ∧
  upload_files r2.2 = upload_files (initial_disk "t0").
Proof.
  apply (toggle_twice_restores "t1" "t2" "node3" (initial_disk "t0")).
  apply (bool_decide_unpack _). vm_compute. exact I.
Defined.

(** ** The upload route *)

Lemma stored_record (generateHash : bytes → string) (CHUNK_SIZE : nat)
    (req : UploadRequest) (d : Disk) (nodes : list string) (m : FileManifest)
    (j : nat) (r : ChunkRecord) :
  stored generateHash CHUNK_SIZE req d nodes m →
  chunks m !! j = Some r →
  j < totalChunks m ∧
  ∃ x, nodes !! j = Some x ∧ r = chunk_record generateHash CHUNK_SIZE req j x.
Proof.
  intros (_ & _ & _ & _ & Hlen & Hnone & Hrec) Hr.
  destruct (decide (j < totalChunks m)) as [Hj|Hj];
    [|rewrite Hnone in Hr by lia; done].
  split; [done|].
  destruct (lookup_lt_is_Some_2 nodes j ltac:(rewrite Hlen; exact Hj)) as [x Hx].
  destruct (Hrec j x Hx) as [Hr' _]. rewrite Hr' in Hr. injection Hr as <-.
  by exists x.
Qed.

(** Moving to a disk with the same manifest and the same chunk files of
    this file. *)
Lemma stored_frame (generateHash : bytes → string) (CHUNK_SIZE : nat)
    (req : UploadRequest) (d d' : Disk) (nodes : list string) (m : FileManifest) :
  stored generateHash CHUNK_SIZE req d nodes m →
  manifest_of d' (up_fileId req) = manifest_of d (up_fileId req) →
  (∀ x j, node_files d' !! (x, up_fileId req, j)
          = node_files d !! (x, up_fileId req, j)) →
  stored generateHash CHUNK_SIZE req d' nodes m.
Proof.
  intros (Hm & Ht & Hh & Hn & Hlen & Hnone & Hrec) Hm' Hnf.
  unfold stored. rewrite Hm'. repeat (split; [done|]).
  intros k id Hk. rewrite Hnf. by apply Hrec.
Qed.

(** The loop runs to its end when there is nothing to place or some node
    is online. *)
Lemma place_chunks_runs (generateHash : bytes → string) (CHUNK_SIZE : nat)
    (now : string) (req : UploadRequest) (todo : nat) (d : Disk) :
  todo = 0 ∨ (∃ id, id ∈ NODES ∧ is_online d id) →
  ∃ chunks' d',
    place_chunks generateHash CHUNK_SIZE now req todo 0 0 ∅ d = (Ok chunks', d') ∧
    same_registry d d' ∧
    (∀ x f j, f ≠ up_fileId req →
       node_files d' !! (x, f, j) = node_files d !! (x, f, j)).
Proof.
  intros [->|Hex].
  - exists ∅, d. split; [done|]. split; [apply same_registry_refl | done].
  - destruct (place_chunks_spec generateHash CHUNK_SIZE now req todo 0 0 ∅ d Hex)
      as (chunks' & d' & Hrun & Hreg & _ & _ & _ & Hframe).
    exists chunks', d'. split; [done|]. split; [done|].
    intros x f j Hf. apply Hframe. by left.
Qed.

Lemma upload_Error500_inv (generateHash : bytes → string)
    (CHUNK_SIZE : nat) (now : string) (req : UploadRequest) (d d' : Disk)
    (e : Error) :
  upload generateHash CHUNK_SIZE now req d = (Error500 e, d') →
  d' = d ∧
  ((e = TypeError ∧ ∀ files, metadata_of d ≠ JObject (Some files)) ∨
   (e = NoOnlineNodes ∧ 0 < total_chunks CHUNK_SIZE req ∧
    ∀ id, id ∈ NODES → ¬ is_online d id)).
Proof.
  rewrite upload_unfold.
  destruct (metadata_of d) as [|[files|]];
    [intros [= <- <-]; split; [done|]; left; by split | |
     intros [= <- <-]; split; [done|]; left; by split].
  destruct (total_chunks CHUNK_SIZE req) as [|t]; [done|].
  destruct (scan d (length NODES) 0) as [[x|] c'] eqn:Hs.
  - destruct (scan_Some _ _ _ _ _ Hs) as (Hin & Hon & _).
    destruct (place_chunks_spec generateHash CHUNK_SIZE now req (S t) 0 0 ∅ d)
      as (chunks' & d1 & -> & _); [by eauto|]. done.
  - rewrite place_chunks_S, Hs. intros [= <- <-]. split; [done|]. right.
    split; [done|]. split; [lia|]. intros id Hin Hon.
    destruct (scan_finds_online d 0 id Hin Hon) as (? & ? & Hs').
    by rewrite Hs' in Hs.
Qed.

(** X5 (failed upload): an upload call that answers with an error,
    whatever the error and whatever requests are served while the call
    waits at its awaits, short of requests that write the catalog file or
    the uploads directory, has written neither: the catalog is the one
    from before the call and the uploads directory still holds what it
    held, the staged file included. *)
Theorem upload_failure_keeps_catalog (generateHash : bytes → string)
    (CHUNK_SIZE : nat) (now : string) (file : option StagedFile)
    (others : Others) (d d' : Disk) (e : Error) :
  Forall keeps_catalog others →
  upload_among generateHash CHUNK_SIZE now file others d = (Error500 e, d') →
  metadata_json d' = metadata_json d ∧ upload_files d' = upload_files d.
Proof. apply upload_among_failure. Qed.

Lemma upload_failure_keeps_catalog_witness :
  let others := [λ d, (toggle "t2" "node1" None d).2] in
  let d := staged null_metadata_disk in
  let d' := (upload_among demo_hash 2 "t1" (Some hello_file) others d).2 in
  metadata_json d' = metadata_json d ∧ upload_files d' = upload_files d.
Proof.
  intros others d d'.
  apply (upload_failure_keeps_catalog demo_hash 2 "t1" (Some hello_file)
           others d d' TypeError).
  - apply Forall_singleton, toggle_keeps_catalog.
  - vm_compute. reflexivity.
Defined.

(** X6 (an upload on its own): when no other request is served during the
    call, the handler cut at its awaits answers as the uninterrupted
    handler does on the staged bytes and leaves the disk that one leaves,
    except that the staged file is removed when the answer is success;
    when the answer is an error the staged file stays. *)
Theorem upload_alone_unstages_on_success (generateHash : bytes → string)
    (CHUNK_SIZE : nat) (now : string) (file : StagedFile) (fileBuffer : bytes)
    (d : Disk) :
  upload_files d !! sf_filename file = Some fileBuffer →
  upload_among generateHash CHUNK_SIZE now (Some file) [] d
  = match upload generateHash CHUNK_SIZE now (request_of file fileBuffer) d with
    | (Json200 ok, d') => (Json200 ok, unstaged file d')
    | (Error500 e, d') => (Error500 e, d')
    end.
Proof. apply upload_among_alone. Qed.

Lemma upload_alone_unstages_on_success_witness :
  upload_among demo_hash 2 "t1" (Some hello_file) [] (staged (initial_disk "t0"))
  = (Json200 (mkUploadOk "1700000000000-k3j9x2q1z" "hello.txt" 3), hello_disk).
Proof.
  etrans.
  - apply (upload_alone_unstages_on_success demo_hash 2 "t1" hello_file hello).
    vm_compute. reflexivity.
  - vm_compute. reflexivity.
Defined.



(** X8 (even spread): when every node is online, two chunks of an upload
    are recorded on the same node exactly when their indices are
    congruent modulo the number of nodes; so consecutive chunks go to
    different nodes and no node holds more than one chunk more than
    another. *)
Theorem upload_spreads_round_robin (generateHash : bytes → string)
    (CHUNK_SIZE : nat) (now : string) (req : UploadRequest) (d d' : Disk)
    (ok : UploadOk) :
  up_fileId req ≠ "__proto__" →
  (∀ id, id ∈ NODES → is_online d id) →
  upload generateHash CHUNK_SIZE now req d = (Json200 ok, d') →
  ∃ m, manifest_of d' (up_fileId req) = Some m ∧
       ∀ j1 j2 r1 r2, chunks m !! j1 = Some r1 → chunks m !! j2 = Some r2 →
         (node r1 = node r2 ↔ j1 mod length NODES = j2 mod length NODES).
Proof.
  intros Hproto Hon Hup.
  destruct (upload_Json200_inv _ _ _ _ _ _ _ Hup) as [[files Hmeta] Hcan].
  destruct (upload_spec generateHash CHUNK_SIZE now req d files Hmeta Hproto Hcan)
    as (d2 & Hup' & [m Hst] & _).
  rewrite Hup' in Hup. injection Hup as _ ->.
  exists m. split; [apply Hst|]. intros j1 j2 r1 r2 Hr1 Hr2.
  destruct (stored_record _ _ _ _ _ _ _ _ Hst Hr1) as (_ & x1 & Hx1 & ->).
  destruct (stored_record _ _ _ _ _ _ _ _ Hst Hr2) as (_ & x2 & Hx2 & ->).
  apply (assignment_all_online d _ Hon) in Hx1, Hx2. simpl in Hx1, Hx2.
  cbn [node chunk_record]. subst x1 x2. apply NODES_nth_inj.
Qed.

Lemma upload_spreads_round_robin_witness :
  ∃ m, manifest_of hello_disk (up_fileId hello_request) = Some m ∧
       ∀ j1 j2 r1 r2, chunks m !! j1 = Some r1 → chunks m !! j2 = Some r2 →
         (node r1 = node r2 ↔ j1 mod length NODES = j2 mod length NODES).
Proof.
  apply (upload_spreads_round_robin demo_hash 2 "t1" hello_request
           (initial_disk "t0") hello_disk
           (mkUploadOk "1700000000000-k3j9x2q1z" "hello.txt" 3)).
  - discriminate.
  - intros id Hin. apply list_elem_of_In in Hin.
    repeat (destruct Hin as [<-|Hin]; [by vm_compute|]). destruct Hin.
  - vm_compute. reflexivity.
Defined.

Lemma sum_list_length_concat {A} (ls : list (list A)) :
  sum_list (length <$> ls) = length (concat ls).
Proof.
  induction ls as [|l ls IH]; [done|].
  rewrite fmap_cons. change (concat (l :: ls)) with (l ++ concat ls).
  rewrite length_app, <- IH. reflexivity.
Qed.

(** X9 (sizes add up): with a positive chunk size, the chunk sizes a
    successful upload records, taken in index order, add up to the
    length of the uploaded bytes. *)
Theorem upload_sizes_add_up (generateHash : bytes → string)
    (CHUNK_SIZE : nat) (now : string) (req : UploadRequest) (d d' : Disk)
    (ok : UploadOk) :
  0 < CHUNK_SIZE →
  up_fileId req ≠ "__proto__" →
  upload generateHash CHUNK_SIZE now req d = (Json200 ok, d') →
  ∃ m sizes,
    manifest_of d' (up_fileId req) = Some m ∧
    length sizes = totalChunks m ∧
    (∀ j s, sizes !! j = Some s → ∃ r, chunks m !! j = Some r ∧ size r = s) ∧
    sum_list sizes = length (up_fileBuffer req).
Proof.
  intros Hpos Hproto Hup.
  destruct (upload_Json200_inv _ _ _ _ _ _ _ Hup) as [[files Hmeta] Hcan].
  destruct (upload_spec generateHash CHUNK_SIZE now req d files Hmeta Hproto Hcan)
    as (d2 & Hup' & [m Hst] & _).
  rewrite Hup' in Hup. injection Hup as _ ->.
  destruct Hst as (Hm & Ht & _ & _ & Hlen & _ & Hrec).
  exists m, (length <$> (chunkBuffer CHUNK_SIZE (up_fileBuffer req)
                           <$> seq 0 (totalChunks m))).
  split; [done|]. split; [by rewrite !length_fmap, length_seq|]. split.
  - intros j s Hs. rewrite !list_lookup_fmap in Hs.
    destruct (seq 0 (totalChunks m) !! j) as [j'|] eqn:Hj; [|done].
    apply lookup_seq in Hj as [-> Hj]. simpl in Hs. injection Hs as <-.
    destruct (lookup_lt_is_Some_2 _ j ltac:(rewrite Hlen; exact Hj)) as [x Hx].
    destruct (Hrec j x Hx) as [-> _]. by eexists.
  - rewrite sum_list_length_concat, Ht. unfold total_chunks.
    by rewrite concat_all_chunks.
Qed.

Lemma upload_sizes_add_up_witness :
  ∃ m sizes,
    manifest_of hello_disk (up_fileId hello_request) = Some m ∧
    length sizes = totalChunks m ∧
    (∀ j s, sizes !! j = Some s → ∃ r, chunks m !! j = Some r ∧ size r = s) ∧
    sum_list sizes = length (up_fileBuffer hello_request).
Proof.
  apply (upload_sizes_add_up demo_hash 2 "t1" hello_request
           (initial_disk "t0") hello_disk
           (mkUploadOk "1700000000000-k3j9x2q1z" "hello.txt" 3)).
  - lia.
  - discriminate.
  - vm_compute. reflexivity.
Defined.

(** X10 (uploads do not interfere): with every node online, after a file
    has been uploaded and then a second file under another id, the first
    file still reconstructs to exactly its own bytes. *)
Theorem uploads_do_not_interfere (generateHash : bytes → string)
    (CHUNK_SIZE : nat) (now1 now2 : string) (req1 req2 : UploadRequest)
    (d : Disk) :
  0 < CHUNK_SIZE →
  (∃ files, metadata_of d = JObject (Some files)) →
  (∀ id, id ∈ NODES → is_online d id) →
  up_fileId req1 ≠ "__proto__" →
  up_fileId req2 ≠ "__proto__" →
  up_fileId req1 ≠ up_fileId req2 →
  ∃ d1 d2 d3 ok1 ok2,
    upload generateHash CHUNK_SIZE now1 req1 d = (Json200 ok1, d1) ∧
    upload generateHash CHUNK_SIZE now2 req2 d1 = (Json200 ok2, d2) ∧
    reconstruct generateHash (up_fileId req1) d2
    = (Json200 (Reconstructed (up_fileId req1) (up_originalname req1)), d3) ∧
    upload_files d3 !! ("reconstructed_" +:+ up_originalname req1)
    = Some (up_fileBuffer req1).
Proof.
  intros Hpos [files Hmeta] Hon Hp1 Hp2 Hne.
  assert (Hex : ∃ id, id ∈ NODES ∧ is_online d id).
  { exists (nth 0 NODES ""). split; [apply NODES_first_elem|].
    apply Hon, NODES_first_elem. }
  destruct (upload_spec generateHash CHUNK_SIZE now1 req1 d files Hmeta Hp1)
    as (d1 & Hup1 & [m1 Hst1] & Hreg1 & _); [by right|].
  assert (Hon1 : ∀ id, is_online d1 id ↔ is_online d id).
  { intros id. unfold is_online. by destruct (Hreg1 id) as [-> _]. }
  assert (Hmeta1 : ∃ files1, metadata_of d1 = JObject (Some files1)).
  { destruct Hst1 as [Hm _]. apply manifest_of_Some in Hm as (f1 & ? & _).
    by eauto. }
  destruct Hmeta1 as [files1 Hmeta1].
  destruct (upload_spec generateHash CHUNK_SIZE now2 req2 d1 files1 Hmeta1 Hp2)
    as (d2 & Hup2 & _ & Hreg2 & Hkeep & Hframe & _).
  { right. destruct Hex as (id & ? & ?). exists id. split; [done|]. by apply Hon1. }
  assert (Hst2 : stored generateHash CHUNK_SIZE req1 d2
                   (assignment d (total_chunks CHUNK_SIZE req1) 0) m1).
  { apply (stored_frame _ _ _ d1); [done | by apply Hkeep |].
    intros x j. by apply Hframe. }
  eexists d1, d2, _, _, _. split; [exact Hup1|]. split; [exact Hup2|]. split.
  - apply (stored_reconstruct generateHash CHUNK_SIZE req1 Hpos d2 _ m1 Hst2).
    intros x [Hx Hxon]%assignment_elem. unfold is_online.
    destruct (Hreg2 x) as [-> _]. by apply Hon1.
  - simpl. apply lookup_insert_eq.
Qed.

Lemma uploads_do_not_interfere_witness :
  ∃ d1 d2 d3 ok1 ok2,
    upload demo_hash 2 "t1" hello_request (initial_disk "t0") = (Json200 ok1, d1) ∧
    upload demo_hash 2 "t2" (one_byte_request one_byte_id) d1 = (Json200 ok2, d2) ∧
    reconstruct demo_hash (up_fileId hello_request) d2
    = (Json200 (Reconstructed (up_fileId hello_request)
                  (up_originalname hello_request)), d3) ∧
    upload_files d3 !! ("reconstructed_" +:+ up_originalname hello_request)
    = Some (up_fileBuffer hello_request).
Proof.
  apply (uploads_do_not_interfere demo_hash 2 "t1" "t2" hello_request
           (one_byte_request one_byte_id) (initial_disk "t0")).
  - lia.
  - eexists. reflexivity.
  - intros id Hin. apply list_elem_of_In in Hin.
    repeat (destruct Hin as [<-|Hin]; [by vm_compute|]). destruct Hin.
  - discriminate.
  - discriminate.
  - discriminate.
Defined.

(** X11 (a damaged catalog is replaced): when the metadata file is
    absent, unreadable or not JSON, a successful upload writes a catalog
    that holds the uploaded file and nothing else: whatever the file held
    before is gone. *)
Theorem upload_replaces_damaged_catalog (generateHash : bytes → string)
    (CHUNK_SIZE : nat) (now : string) (req : UploadRequest) (d d' : Disk)
    (ok : UploadOk) :
  (∀ v, metadata_json d ≠ Some (Json v)) →
  up_fileId req ≠ "__proto__" →
  upload generateHash CHUNK_SIZE now req d = (Json200 ok, d') →
  ∃ m, metadata_json d' = Some (Json (JObject (Some {[up_fileId req := m]}))) ∧
       totalChunks m = uo_totalChunks ok.
Proof.
  intros Hbad Hproto. rewrite upload_unfold.
  assert (Hempty : metadata_of d = JObject (Some ∅)).
  { unfold metadata_of. destruct (metadata_json d) as [[| |v]|]; try done.
    by destruct (Hbad v). }
  rewrite Hempty.
  destruct (place_chunks _ _ _ _ _ _ _ _ _) as [[chunks'|e] d1]; [|done].
  intros [= <- <-]. eexists. cbn [metadata_json]. split.
  - unfold js_set. rewrite decide_False by (by intros [? _]).
    rewrite insert_empty. reflexivity.
  - reflexivity.
Qed.

Lemma upload_replaces_damaged_catalog_witness :
  ∃ m, metadata_json (upload demo_hash 2 "t1" hello_request garbled_metadata_disk).2
       = Some (Json (JObject (Some {[up_fileId hello_request := m]}))) ∧
       totalChunks m = 3.
Proof.
  apply (upload_replaces_damaged_catalog demo_hash 2 "t1" hello_request
           garbled_metadata_disk _
           (mkUploadOk "1700000000000-k3j9x2q1z" "hello.txt" 3)).
  - intros v. discriminate.
  - discriminate.
  - vm_compute. reflexivity.
Defined.

(** ** The reconstruction route *)

Section ReconstructMore.

Variable generateHash : bytes → string.

(** The collecting loop reads only. *)
Lemma collect_disk (fileId : string) (m : FileManifest) (todo : nat) :
  ∀ i got missing d, (collect generateHash fileId m todo i got missing d).2 = d.
Proof.
  induction todo as [|t IH]; intros i got missing d; [done|].
  destruct (chunks m !! i) as [r|] eqn:Hr.
  - rewrite (collect_S _ _ _ _ _ _ _ _ _ Hr).
    destruct (chunk_outcome generateHash d fileId i r); apply IH.
  - cbn [collect]. by rewrite Hr.
Qed.

(** The loop throws a TypeError when it reaches an index the manifest
    does not record. *)
Lemma collect_TypeError (fileId : string) (m : FileManifest) (d : Disk)
    (todo : nat) :
  ∀ i got missing j,
  i ≤ j → j < i + todo → chunks m !! j = None →
  collect generateHash fileId m todo i got missing d = (Throw TypeError, d).
Proof.
  induction todo as [|t IH]; intros i got missing j Hij Hj Hnone; [lia|].
  destruct (chunks m !! i) as [r|] eqn:Hr.
  - assert (i ≠ j) by congruence.
    rewrite (collect_S _ _ _ _ _ _ _ _ _ Hr).
    destruct (chunk_outcome generateHash d fileId i r);
      apply (IH _ _ _ j); (lia || done).
  - cbn [collect]. by rewrite Hr.
Qed.

Lemma reconstruct_incomplete (fileId : string) (d : Disk) (m : FileManifest)
    (j : nat) :
  manifest_of d fileId = Some m →
  j < totalChunks m → chunks m !! j = None →
  reconstruct generateHash fileId d = (Error500 TypeError, d).
Proof.
  intros (files & Hmeta & Hm)%manifest_of_Some Hj Hnone.
  unfold reconstruct, respond, reconstruct_body. unfold bind at 1.
  rewrite readMetadata_run. unfold bind at 1. rewrite Hmeta.
  unfold metadata_files, ret at 1. unfold js_get. rewrite Hm.
  unfold bind at 1.
  by rewrite (collect_TypeError fileId m d (totalChunks m) 0 [] [] j) by (lia || done).
Qed.

(** Either the disk is left as it is, or the manifest is complete. *)
Lemma reconstruct_cases (fileId : string) (d : Disk) :
  (reconstruct generateHash fileId d).2 = d ∨
  ∃ m, manifest_of d fileId = Some m ∧ complete_manifest m.
Proof.
  destruct (manifest_of d fileId) as [m|] eqn:Hm.
  - destruct (decide (Forall (λ j, is_Some (chunks m !! j))
                             (seq 0 (totalChunks m)))) as [Hall|Hnot].
    + right. exists m. split; [done|]. intros j Hj.
      rewrite Forall_forall in Hall. apply Hall, elem_of_seq. lia.
    + left. apply not_Forall_Exists, Exists_exists in Hnot as (j & Hj & Hnone).
      apply elem_of_seq in Hj as [_ Hj]. simpl in Hnone.
      rewrite (reconstruct_incomplete fileId d m j Hm); [done | lia |].
      2: { intros x. apply _. }
      destruct (chunks m !! j) as [r|] eqn:Hr; [|done].
      exfalso. apply Hnone. by eexists.
  - left. rewrite (reconstruct_no_manifest generateHash fileId d Hm).
    destruct (metadata_of d) as [|[files|]]; [done | | done].
    by destruct (decide (fileId ∈ Object_prototype_keys)).
Qed.


Lemma reconstruct_keeps_store (fileId : string) (d : Disk) :
  metadata_json (reconstruct generateHash fileId d).2 = metadata_json d ∧
  status_json (reconstruct generateHash fileId d).2 = status_json d ∧
  node_files (reconstruct generateHash fileId d).2 = node_files d.
Proof.
  destruct (reconstruct_cases fileId d) as [->|(m & Hm & Hcomplete)]; [done|].
  by apply (reconstruct_preserves generateHash fileId d m).
Qed.



(** X14 (incomplete manifest): when the manifest announces more chunks
    than it records, so that some index below [totalChunks] has no chunk
    record, the request is answered with the 500 of a TypeError and
    nothing is written, whatever the state of the nodes. *)
Theorem reconstruct_incomplete_manifest (fileId : string) (d : Disk)
    (m : FileManifest) (j : nat) :
  manifest_of d fileId = Some m →
  j < totalChunks m →
  chunks m !! j = None →
  reconstruct generateHash fileId d = (Error500 TypeError, d).
Proof. apply reconstruct_incomplete. Qed.

(** X15 (all recording nodes offline): for a complete manifest of n ≥ 1
    chunks none of whose recording nodes is online, the answer is
    'failed' with 0 of n chunks available and n missing entries, one per
    chunk in index order, each naming the recording node with the reason
    'Node offline'; nothing is written. *)
Theorem reconstruct_all_offline (fileId : string) (d : Disk) (m : FileManifest) :
  manifest_of d fileId = Some m →
  complete_manifest m →
  0 < totalChunks m →
  (∀ j r, chunks m !! j = Some r → ¬ is_online d (node r)) →
  ∃ miss,
    reconstruct generateHash fileId d
    = (Json200 (Incomplete failed fileId (Some (originalName m)) 0
                  (Some (totalChunks m)) miss), d) ∧
    length miss = totalChunks m ∧
    ∀ j e, miss !! j = Some e →
      mc_chunkId e = j ∧ mc_error e = NodeOffline ∧
      ∃ r, chunks m !! j = Some r ∧ mc_node e = node r.
Proof.
  intros Hm Hcomplete Hpos Hoff.
  set (entry := λ j, mkMissingChunk j (from_option node "" (chunks m !! j))
                                    NodeOffline).
  assert (Hrep : ∀ j, j ∈ seq 0 (totalChunks m) →
            report generateHash d fileId m j = Some (entry j) ∧
            retrieve generateHash d fileId m j = None).
  { intros j [_ Hj]%elem_of_seq. destruct (Hcomplete j ltac:(lia)) as [r Hr].
    unfold report, retrieve, chunk_outcome, entry. rewrite Hr.
    by rewrite decide_False by (by apply (Hoff j)). }
  assert (Hmiss : missing_of generateHash d fileId m 0 (totalChunks m)
                  = map entry (seq 0 (totalChunks m)))
    by (apply omap_all_Some; intros j Hj; by apply Hrep).
  assert (Hgot : retrieved_of generateHash d fileId m 0 (totalChunks m) = [])
    by (apply omap_all_None; intros j Hj; by apply Hrep).
  exists (map entry (seq 0 (totalChunks m))).
  rewrite (reconstruct_spec generateHash fileId d m Hm Hcomplete), Hgot, Hmiss.
  cbn [length]. rewrite decide_False by lia.
  split; [|split; [by rewrite length_map, length_seq|]].
  - unfold classify. rewrite decide_False by lia. by rewrite decide_False by lia.
  - intros j e He. change (map entry) with (fmap (M:=list) entry) in He.
    rewrite list_lookup_fmap in He.
    destruct (seq 0 (totalChunks m) !! j) as [j'|] eqn:Hj; [|done].
    apply lookup_seq in Hj as [-> Hj]. injection He as <-.
    destruct (Hcomplete j Hj) as [r Hr]. unfold entry. rewrite Hr.
    split; [done|]. split; [done|]. by exists r.
Qed.

(** X16 (one lost chunk is enough): for a complete manifest, when the
    chunk of some index j cannot be retrieved, because its node is not
    online, or its chunk file is gone, or the file's digest is not the
    recorded one, then whatever the state of the other nodes and chunks
    the answer is not 'success': it is 'partial' or 'failed' with fewer
    than [totalChunks] chunks available, the missing list names chunk j
    with its node and that reason, and nothing is written. *)
Theorem reconstruct_one_chunk_lost (fileId : string) (d : Disk)
    (m : FileManifest) (j : nat) (r : ChunkRecord) (e : Error) :
  manifest_of d fileId = Some m →
  complete_manifest m →
  j < totalChunks m →
  chunks m !! j = Some r →
  (e = NodeOffline ∧ ¬ is_online d (node r)) ∨
  (e = ENOENT ∧ is_online d (node r) ∧
   node_files d !! (node r, fileId, j) = None) ∨
  (e = ChunkHashMismatch j ∧ is_online d (node r) ∧
   ∃ b, node_files d !! (node r, fileId, j) = Some b ∧ generateHash b ≠ hash r) →
  ∃ st k miss,
    reconstruct generateHash fileId d
    = (Json200 (Incomplete st fileId (Some (originalName m)) k
                  (Some (totalChunks m)) miss), d) ∧
    st ≠ success ∧ k < totalChunks m ∧
    mkMissingChunk j (node r) e ∈ miss.
Proof.
  intros Hm Hcomplete Hj Hr Hwhy.
  assert (Hrep : report generateHash d fileId m j
                 = Some (mkMissingChunk j (node r) e)).
  { unfold report, chunk_outcome. rewrite Hr.
    destruct Hwhy as [[-> Hoff]|[(-> & Hon & Hnone)|(-> & Hon & b & Hb & Hbad)]].
    - by rewrite decide_False.
    - by rewrite decide_True, Hnone.
    - by rewrite decide_True, Hb, decide_True. }
  assert (Hin : mkMissingChunk j (node r) e
                ∈ missing_of generateHash d fileId m 0 (totalChunks m)).
  { apply list_elem_of_omap. exists j. split; [apply elem_of_seq; lia | done]. }
  pose proof (retrieved_missing_length generateHash fileId m d (totalChunks m) 0
                ltac:(intros i _ Hi; by apply Hcomplete)) as Hsum.
  assert (Hless : length (retrieved_of generateHash d fileId m 0 (totalChunks m))
                  < totalChunks m).
  { destruct (missing_of generateHash d fileId m 0 (totalChunks m));
      [by apply elem_of_nil in Hin | simpl in Hsum; lia]. }
  eexists _, _, _.
  rewrite (reconstruct_spec generateHash fileId d m Hm Hcomplete).
  rewrite decide_False by lia. split; [reflexivity|].
  split; [|split; [exact Hless | exact Hin]].
  unfold classify. rewrite decide_False by lia. by destruct (decide _).
Qed.

End ReconstructMore.

Lemma hello_manifest_complete : complete_manifest hello_manifest.
Proof.
  intros j Hj. simpl in Hj.
  destruct j as [|[|[|j]]]; [vm_compute; eauto .. | lia].
Qed.

(** The records of [hello_manifest]. *)
Lemma hello_manifest_records (j : nat) (r : ChunkRecord) :
  chunks hello_manifest !! j = Some r →
  (j = 0 ∧ node r = "node1") ∨ (j = 1 ∧ node r = "node2") ∨
  (j = 2 ∧ node r = "node3").
Proof.
  intros Hr. apply elem_of_list_to_map_2 in Hr.
  repeat (apply elem_of_cons in Hr as [[= -> ->]|Hr]; [by eauto|]).
  by apply elem_of_nil in Hr.
Qed.




Lemma reconstruct_incomplete_manifest_witness :
  reconstruct demo_hash "1700000000004-ccccccccc" truncated_manifest_disk
  = (Error500 TypeError, truncated_manifest_disk).
Proof.
  apply (reconstruct_incomplete_manifest demo_hash "1700000000004-ccccccccc"
           truncated_manifest_disk truncated_manifest 1).
  - vm_compute. reflexivity.
  - simpl. lia.
  - vm_compute. reflexivity.
Defined.

Lemma reconstruct_all_offline_witness :
  ∃ miss,
    reconstruct demo_hash "1700000000000-k3j9x2q1z" hello_disk_all_off
    = (Json200 (Incomplete failed "1700000000000-k3j9x2q1z"
                  (Some (originalName hello_manifest)) 0
                  (Some (totalChunks hello_manifest)) miss), hello_disk_all_off) ∧
    length miss = totalChunks hello_manifest ∧
    ∀ j e, miss !! j = Some e →
      mc_chunkId e = j ∧ mc_error e = NodeOffline ∧
      ∃ r, chunks hello_manifest !! j = Some r ∧ mc_node e = node r.
Proof.
  apply (reconstruct_all_offline demo_hash "1700000000000-k3j9x2q1z"
           hello_disk_all_off hello_manifest).
  - vm_compute. reflexivity.
  - exact hello_manifest_complete.
  - simpl. lia.
  - intros j r Hr.
    destruct (hello_manifest_records j r Hr) as [[_ ->]|[[_ ->]|[_ ->]]];
      by vm_compute.
Defined.

Lemma reconstruct_one_chunk_lost_witness :
  ∃ st k miss,
    reconstruct demo_hash "1700000000000-k3j9x2q1z" hello_disk_chunk1_lost
    = (Json200 (Incomplete st "1700000000000-k3j9x2q1z"
                  (Some (originalName hello_manifest)) k
                  (Some (totalChunks hello_manifest)) miss),
       hello_disk_chunk1_lost) ∧
    st ≠ success ∧ k < totalChunks hello_manifest ∧
    mkMissingChunk 1 "node2" ENOENT ∈ miss.
Proof.
  apply (reconstruct_one_chunk_lost demo_hash "1700000000000-k3j9x2q1z"
           hello_disk_chunk1_lost hello_manifest 1
           (mkChunkRecord 1 "node2" "ll" 2 ("node2", "1700000000000-k3j9x2q1z", 1))
           ENOENT).
  - vm_compute. reflexivity.
  - exact hello_manifest_complete.
  - simpl. lia.
  - vm_compute. reflexivity.
  - right. left. split; [done|]. split; by vm_compute.
Defined.

(** ** The download route *)

Lemma download_unfold (fileId : string) (d : Disk) :
  download fileId d
  = match metadata_of d with
    | JObject (Some files) =>
        match js_get files fileId with
        | Undefined => (Error404 FileNotFound, d)
        | Inherited =>
            match upload_files d !! "reconstructed_undefined" with
            | None => (NotReconstructedYet, d)
            | Some content => (Sent None content, d)
            end
        | Own m =>
            match upload_files d !! ("reconstructed_" +:+ originalName m) with
            | None => (NotReconstructedYet, d)
            | Some content => (Sent (Some (originalName m)) content, d)
            end
        end
    | _ => (Error404 TypeError, d)
    end.
Proof.
  unfold download. unfold bind at 1. rewrite readMetadata_run.
  unfold bind at 1.
  destruct (metadata_of d) as [|[files|]]; [done | | done].
  unfold metadata_files, ret at 1.
  destruct (js_get files fileId) as [| |m]; done.
Qed.

Lemma download_of_manifest (fileId : string) (d : Disk) (m : FileManifest) :
  manifest_of d fileId = Some m →
  download fileId d
  = match upload_files d !! ("reconstructed_" +:+ originalName m) with
    | None => (NotReconstructedYet, d)
    | Some content => (Sent (Some (originalName m)) content, d)
    end.
Proof.
  intros (files & Hmeta & Hm)%manifest_of_Some.
  rewrite download_unfold, Hmeta. unfold js_get. by rewrite Hm.
Qed.

Lemma download_disk (fileId : string) (d : Disk) : (download fileId d).2 = d.
Proof.
  rewrite download_unfold.
  destruct (metadata_of d) as [|[files|]]; [done | | done].
  destruct (js_get files fileId) as [| |m]; [done | |];
    by destruct (upload_files d !! _).
Qed.

(** X17 (first start to download): in a directory that has no status file
    of any node and no metadata file, after start-up, the upload of any
    byte sequence succeeds, its reconstruction answers 'success', and the
    download then sends exactly the uploaded bytes under the original
    name. *)
Theorem fresh_start_upload_reconstruct_download
    (generateHash : bytes → string) (CHUNK_SIZE : nat)
    (t0 now : string) (req : UploadRequest) (d : Disk) :
  0 < CHUNK_SIZE →
  up_fileId req ≠ "__proto__" →
  (∀ id, id ∈ NODES → status_json d !! id = None) →
  metadata_json d = None →
  ∃ d0 d1 d2 ok,
    initializeSystem t0 d = (Ok tt, d0) ∧
    upload generateHash CHUNK_SIZE now req d0 = (Json200 ok, d1) ∧
    reconstruct generateHash (up_fileId req) d1
    = (Json200 (Reconstructed (up_fileId req) (up_originalname req)), d2) ∧
    download (up_fileId req) d2
    = (Sent (Some (up_originalname req)) (up_fileBuffer req), d2).
Proof.
  intros Hpos Hproto Hfresh Hnometa.
  destruct (initializeSystem_spec t0 d) as (d0 & Hinit & Hs & Hm & _).
  rewrite Hnometa in Hm.
  assert (Hon : ∀ id, id ∈ NODES → is_online d0 id).
  { intros id Hin. unfold is_online, node_state.
    rewrite Hs, (Hfresh id Hin). by rewrite decide_True. }
  assert (Hmeta : metadata_of d0 = JObject (Some ∅))
    by (unfold metadata_of; by rewrite Hm).
  destruct (upload_spec generateHash CHUNK_SIZE now req d0 ∅ Hmeta Hproto)
    as (d1 & Hup & [m Hst] & Hreg & _).
  { right. exists (nth 0 NODES ""). split; [apply NODES_first_elem|].
    apply Hon, NODES_first_elem. }
  pose proof (stored_reconstruct generateHash CHUNK_SIZE req Hpos d1 _ m Hst)
    as Hrec.
  eexists d0, d1, _, _. split; [exact Hinit|]. split; [exact Hup|].
  split.
  - apply Hrec. intros x [Hx Hxon]%assignment_elem. unfold is_online.
    by destruct (Hreg x) as [-> _].
  - destruct Hst as (Hman & _ & _ & Hname & _).
    rewrite (download_of_manifest _ _ m);
      [|by rewrite <- Hman; apply manifest_of_ext].
    cbn [upload_files]. rewrite Hname. by rewrite lookup_insert_eq.
Qed.

Lemma fresh_start_upload_reconstruct_download_witness :
  ∃ d0 d1 d2 ok,
    initializeSystem "t0" empty_disk = (Ok tt, d0) ∧
    upload demo_hash 2 "t1" hello_request d0 = (Json200 ok, d1) ∧
    reconstruct demo_hash (up_fileId hello_request) d1
    = (Json200 (Reconstructed (up_fileId hello_request)
                  (up_originalname hello_request)), d2) ∧
    download (up_fileId hello_request) d2
    = (Sent (Some (up_originalname hello_request))
            (up_fileBuffer hello_request), d2).
Proof.
  apply (fresh_start_upload_reconstruct_download demo_hash 2 "t0" "t1"
           hello_request empty_disk).
  - lia.
  - discriminate.
  - intros id _. reflexivity.
  - reflexivity.
Defined.

(** X18 (download before reconstruction): after a successful upload of a
    file whose reconstructed name is not yet taken in the uploads
    directory, a download of the file is answered with the 404 'File not
    reconstructed yet'. *)
Theorem download_before_reconstruct (generateHash : bytes → string)
    (CHUNK_SIZE : nat) (now : string) (req : UploadRequest) (d d1 : Disk)
    (ok : UploadOk) :
  up_fileId req ≠ "__proto__" →
  upload_files d !! ("reconstructed_" +:+ up_originalname req) = None →
  upload generateHash CHUNK_SIZE now req d = (Json200 ok, d1) →
  download (up_fileId req) d1 = (NotReconstructedYet, d1).
Proof.
  intros Hproto Hfree Hup.
  destruct (upload_Json200_inv _ _ _ _ _ _ _ Hup) as [[files Hmeta] Hcan].
  destruct (upload_spec generateHash CHUNK_SIZE now req d files Hmeta Hproto Hcan)
    as (d2 & Hup' & [m Hst] & _ & _ & _ & Hu).
  rewrite Hup' in Hup. injection Hup as _ ->.
  destruct Hst as (Hman & _ & _ & Hname & _).
  rewrite (download_of_manifest _ _ m Hman), Hname, Hu. by rewrite Hfree.
Qed.

Lemma download_before_reconstruct_witness :
  download (up_fileId hello_request) hello_disk = (NotReconstructedYet, hello_disk).
Proof.
  apply (download_before_reconstruct demo_hash 2 "t1" hello_request
           (initial_disk "t0") hello_disk
           (mkUploadOk "1700000000000-k3j9x2q1z" "hello.txt" 3)).
  - discriminate.
  - reflexivity.
  - vm_compute. reflexivity.
Defined.

(** X19 (one reconstructed file per original name): the reconstructed
    file is named after the original name alone.  When two files with the
    same original name have been uploaded under different ids and the
    second one is reconstructed, a download of the first id sends the
    bytes of the second file. *)
Theorem download_serves_last_reconstruction_of_name
    (generateHash : bytes → string) (CHUNK_SIZE : nat) (now1 now2 : string)
    (req1 req2 : UploadRequest) (d : Disk) :
  0 < CHUNK_SIZE →
  (∃ files, metadata_of d = JObject (Some files)) →
  (∀ id, id ∈ NODES → is_online d id) →
  up_fileId req1 ≠ "__proto__" →
  up_fileId req2 ≠ "__proto__" →
  up_fileId req1 ≠ up_fileId req2 →
  up_originalname req1 = up_originalname req2 →
  ∃ d1 d2 d3 ok1 ok2,
    upload generateHash CHUNK_SIZE now1 req1 d = (Json200 ok1, d1) ∧
    upload generateHash CHUNK_SIZE now2 req2 d1 = (Json200 ok2, d2) ∧
    reconstruct generateHash (up_fileId req2) d2
    = (Json200 (Reconstructed (up_fileId req2) (up_originalname req2)), d3) ∧
    download (up_fileId req1) d3
    = (Sent (Some (up_originalname req1)) (up_fileBuffer req2), d3).
Proof.
  intros Hpos [files Hmeta] Hon Hp1 Hp2 Hne Hsame.
  assert (Hex : ∃ id, id ∈ NODES ∧ is_online d id).
  { exists (nth 0 NODES ""). split; [apply NODES_first_elem|].
    apply Hon, NODES_first_elem. }
  destruct (upload_spec generateHash CHUNK_SIZE now1 req1 d files Hmeta Hp1)
    as (d1 & Hup1 & [m1 Hst1] & Hreg1 & _); [by right|].
  assert (Hon1 : ∀ id, is_online d1 id ↔ is_online d id).
  { intros id. unfold is_online. by destruct (Hreg1 id) as [-> _]. }
  destruct Hst1 as (Hman1 & _ & _ & Hname1 & _).
  pose proof Hman1 as (files1 & Hmeta1 & _)%manifest_of_Some.
  destruct (upload_spec generateHash CHUNK_SIZE now2 req2 d1 files1 Hmeta1 Hp2)
    as (d2 & Hup2 & [m2 Hst2] & Hreg2 & Hkeep & _).
  { right. destruct Hex as (id & ? & ?). exists id. split; [done|]. by apply Hon1. }
  pose proof (stored_reconstruct generateHash CHUNK_SIZE req2 Hpos d2 _ m2 Hst2)
    as Hrec.
  eexists d1, d2, _, _, _. split; [exact Hup1|]. split; [exact Hup2|]. split.
  - apply Hrec. intros x [Hx Hxon]%assignment_elem. unfold is_online.
    by destruct (Hreg2 x) as [-> _].
  - rewrite (download_of_manifest _ _ m1).
    + cbn [upload_files]. rewrite Hname1, Hsame. by rewrite lookup_insert_eq.
    + rewrite <- Hman1, <- (Hkeep _ Hne). by apply manifest_of_ext.
Qed.

Lemma download_serves_last_reconstruction_of_name_witness :
  ∃ d1 d2 d3 ok1 ok2,
    upload demo_hash 2 "t1" hello_request (initial_disk "t0") = (Json200 ok1, d1) ∧
    upload demo_hash 2 "t2" hello_twin_request d1 = (Json200 ok2, d2) ∧
    reconstruct demo_hash (up_fileId hello_twin_request) d2
    = (Json200 (Reconstructed (up_fileId hello_twin_request)
                  (up_originalname hello_twin_request)), d3) ∧
    download (up_fileId hello_request) d3
    = (Sent (Some (up_originalname hello_request))
            (up_fileBuffer hello_twin_request), d3).
Proof.
  apply (download_serves_last_reconstruction_of_name demo_hash 2 "t1" "t2"
           hello_request hello_twin_request (initial_disk "t0")).
  - lia.
  - eexists. reflexivity.
  - intros id Hin. apply list_elem_of_In in Hin.
    repeat (destruct Hin as [<-|Hin]; [by vm_compute|]). destruct Hin.
  - discriminate.
  - discriminate.
  - discriminate.
  - reflexivity.
Defined.

Lemma toggle_keeps_files (now id : string) (req_status : option string)
    (d : Disk) :
  metadata_json (toggle now id req_status d).2 = metadata_json d ∧
  node_files (toggle now id req_status d).2 = node_files d ∧
  upload_files (toggle now id req_status d).2 = upload_files d.
Proof.
  destruct (toggle now id req_status d) as [[ok|e] d'] eqn:Hrun.
  - by destruct (toggle_spec _ _ _ _ _ _ Hrun) as (_ & ? & ? & ? & _).
  - revert Hrun. unfold toggle, respond, toggle_body.
    destruct (decide (id ∈ NODES)); [|by intros [= _ <-]].
    unfold bind at 1. rewrite getNodeStatus_run.
    unfold bind at 1. by rewrite updateNodeStatus_run.
Qed.

Lemma run_cons (generateHash : bytes → string) (CHUNK_SIZE : nat)
    (r : Request) (rs : list Request) (d : Disk) :
  run generateHash CHUNK_SIZE (r :: rs) d
  = run generateHash CHUNK_SIZE rs (handle generateHash CHUNK_SIZE r d).
Proof. reflexivity. Qed.




(** ** Invariants over runs of requests *)

Lemma Math_ceil_div_is_0 (L C : nat) : 0 < C → Math_ceil_div L C = 0 → L = 0.
Proof. intros HC H0. destruct (Math_ceil_div_spec C HC L) as [Hle _]. lia. Qed.

Lemma getAllNodesStatus_from_run (nodes : list string) :
  ∀ statuses d,
  getAllNodesStatus_from nodes statuses d
  = (Ok (statuses ++ map (node_state d) nodes), d).
Proof.
  induction nodes as [|node rest IH]; intros statuses d.
  - cbn [getAllNodesStatus_from map]. by rewrite app_nil_r.
  - cbn [getAllNodesStatus_from map]. unfold bind. rewrite getNodeStatus_run, IH.
    by rewrite <- app_assoc.
Qed.

Lemma dashboard_run (d : Disk) :
  dashboard d
  = match metadata_of d with
    | JObject (Some files) =>
        (Json200
           (mkDashboard (map (node_state d) NODES) (base.size files)
              (foldl (λ sum file, sum + totalChunks file) 0 (map_to_list files).*2)
              (foldl count_chunk
                     (foldl (λ dist node, <[node := Num 0]> dist) ∅ NODES)
                     (chunk_nodes files))), d)
    | _ => (Error500 TypeError, d)
    end.
Proof.
  unfold dashboard, respond, dashboard_body, getAllNodesStatus.
  unfold bind at 1. rewrite getAllNodesStatus_from_run.
  unfold bind at 1. rewrite readMetadata_run. unfold bind at 1.
  destruct (metadata_of d) as [|[files|]]; done.
Qed.

Lemma dashboard_disk (d : Disk) : (dashboard d).2 = d.
Proof. rewrite dashboard_run. by destruct (metadata_of d) as [|[files|]]. Qed.

Lemma toggle_chunkCount (now id : string) (req_status : option string)
    (d : Disk) (id' : string) :
  chunkCount (node_state (toggle now id req_status d).2 id')
  = chunkCount (node_state d id').
Proof.
  destruct (toggle now id req_status d) as [[ok|e] d'] eqn:Hrun.
  - destruct (toggle_spec _ _ _ _ _ _ Hrun) as (_ & _ & _ & _ & _ & Hc & Ho).
    cbn [snd]. destruct (decide (id' = id)) as [->|Hne]; [done|].
    by rewrite Ho.
  - revert Hrun. unfold toggle, respond, toggle_body.
    destruct (decide (id ∈ NODES)); [|by intros [= _ <-]].
    unfold bind at 1. rewrite getNodeStatus_run.
    unfold bind at 1. by rewrite updateNodeStatus_run.
Qed.

Section Invariant.

Variable generateHash : bytes → string.
Variable CHUNK_SIZE : nat.
Hypothesis CHUNK_SIZE_pos : 0 < CHUNK_SIZE.

Lemma intact_frame (d d' : Disk) (fileId : string) (m : FileManifest) :
  intact generateHash d fileId m →
  (∀ x j, node_files d' !! (x, fileId, j) = node_files d !! (x, fileId, j)) →
  intact generateHash d' fileId m.
Proof.
  intros (bs & Hlen & Hh & Hnone & Hbs) Hnf. exists bs.
  split; [done|]. split; [done|]. split; [done|].
  intros j b Hb. destruct (Hbs j b Hb) as (r & ? & ? & ? & ?).
  exists r. by rewrite Hnf.
Qed.

(** A disk with the same catalog, the same chunk files and the same chunk
    counts is as healthy. *)
Lemma healthy_frame (d d' : Disk) :
  healthy generateHash d →
  metadata_of d' = metadata_of d →
  node_files d' = node_files d →
  (∀ id, chunkCount (node_state d' id) = chunkCount (node_state d id)) →
  healthy generateHash d'.
Proof.
  intros (Hmeta & Hproto & Hint & Hcount) Hm Hnf Hc.
  assert (Hman : ∀ f, manifest_of d' f = manifest_of d f)
    by (intros f; unfold manifest_of; by rewrite Hm).
  split; [by rewrite Hm|]. split; [by rewrite Hman|]. split.
  - intros f m Hf. rewrite Hman in Hf.
    apply (intact_frame d); [by apply Hint | intros; by rewrite Hnf].
  - intros id. by rewrite Hc.
Qed.

Lemma stored_intact (req : UploadRequest) (d : Disk) (nodes : list string)
    (m : FileManifest) :
  stored generateHash CHUNK_SIZE req d nodes m →
  (∀ x, x ∈ nodes → x ∈ NODES) →
  intact generateHash d (up_fileId req) m.
Proof.
  intros (_ & Ht & Hh & _ & Hlen & Hnone & Hrec) Hin.
  exists (chunkBuffer CHUNK_SIZE (up_fileBuffer req) <$> seq 0 (totalChunks m)).
  split; [by rewrite length_fmap, length_seq|]. split.
  { rewrite Ht. unfold total_chunks.
    change (fmap (M:=list) ?f) with (map f).
    by rewrite concat_all_chunks, Hh. }
  split; [done|]. intros j b Hb. rewrite list_lookup_fmap in Hb.
  destruct (seq 0 (totalChunks m) !! j) as [j'|] eqn:Hj; [|done].
  apply lookup_seq in Hj as [-> Hj]. injection Hb as <-.
  destruct (lookup_lt_is_Some_2 nodes j ltac:(rewrite Hlen; exact Hj)) as [x Hx].
  destruct (Hrec j x Hx) as [Hr Hfile].
  eexists. split; [exact Hr|]. cbn [node hash chunk_record].
  split; [by eapply Hin, list_elem_of_lookup_2|]. done.
Qed.

Lemma initializeSystem_healthy (now : string) (d : Disk) :
  healthy generateHash d → healthy generateHash (initializeSystem now d).2.
Proof.
  intros Hd. destruct (initializeSystem_spec now d) as (d' & -> & Hs & Hm & Hn & _).
  cbn [snd]. apply (healthy_frame d); [done | | done |].
  - unfold metadata_of. rewrite Hm. by destruct (metadata_json d) as [[| |v]|].
  - intros id. destruct Hd as (_ & _ & _ & Hcount).
    specialize (Hcount id). unfold node_state in *. rewrite Hs.
    destruct (status_json d !! id) as [[| |v]|]; try done.
    by destruct (decide (id ∈ NODES)).
Qed.

Lemma empty_disk_healthy : healthy generateHash empty_disk.
Proof.
  split; [by eexists|]. split; [done|]. split; [|done].
  intros f m Hf. unfold manifest_of, metadata_of in Hf. simpl in Hf.
  by rewrite lookup_empty in Hf.
Qed.

Lemma upload_healthy (now : string) (req : UploadRequest) (d : Disk) :
  healthy generateHash d →
  healthy generateHash (upload generateHash CHUNK_SIZE now req d).2.
Proof.
  intros Hd. destruct (upload generateHash CHUNK_SIZE now req d) as [[ok|e] d']
    eqn:Hup; cbn [snd].
  2: { by destruct (upload_Error500_inv _ _ _ _ _ _ _ Hup) as [-> _]. }
  destruct (upload_Json200_inv _ _ _ _ _ _ _ Hup) as [[files Hmeta] Hcan].
  destruct Hd as (_ & Hnoproto & Hint & Hcount).
  destruct (decide (up_fileId req = "__proto__")) as [Hproto|Hproto].
  - (* the assignment to __proto__ leaves the catalog as it is *)
    rewrite upload_unfold, Hmeta in Hup.
    destruct (place_chunks_runs generateHash CHUNK_SIZE now req _ d Hcan)
      as (chunks' & d1 & Hrun & (_ & _ & Hreg) & Hframe).
    rewrite Hrun in Hup. injection Hup as _ <-.
    assert (Hfiles : files !! "__proto__" = None)
      by (unfold manifest_of in Hnoproto; by rewrite Hmeta in Hnoproto).
    assert (Hset : ∀ v, js_set files (up_fileId req) v = files).
    { intros v. unfold js_set. rewrite Hproto. by rewrite decide_True. }
    rewrite Hset.
    assert (Hman : ∀ f, manifest_of
              (mkDisk (Some (Json (JObject (Some files)))) (status_json d1)
                      (node_files d1) (upload_files d1)) f = manifest_of d f)
      by (intros f; unfold manifest_of at 2; by rewrite Hmeta).
    split; [by eexists|]. split; [by rewrite Hman|]. split.
    + intros f m Hf. rewrite Hman in Hf.
      apply (intact_frame d); [by apply Hint|].
      intros x j. cbn [node_files]. apply Hframe.
      intros ->. rewrite Hproto in Hf. congruence.
    + intros id. destruct (Hreg id) as [_ Hc].
      unfold node_state in *. cbn [status_json]. by rewrite Hc.
  - destruct (upload_spec generateHash CHUNK_SIZE now req d files Hmeta Hproto Hcan)
      as (d2 & Hup' & [m Hst] & Hreg & Hkeep & Hframe & _).
    rewrite Hup' in Hup. injection Hup as _ ->.
    pose proof Hst as (Hman & _).
    split; [apply manifest_of_Some in Hman as (? & ? & _); by eauto|].
    split; [by rewrite Hkeep|]. split.
    + intros f m' Hf. destruct (decide (f = up_fileId req)) as [->|Hne].
      * rewrite Hman in Hf. injection Hf as <-.
        apply (stored_intact req d' _ m Hst).
        by intros x [? _]%assignment_elem.
      * rewrite Hkeep in Hf by done. apply (intact_frame d); [by apply Hint|].
        intros x j. by apply Hframe.
    + intros id. destruct (Hreg id) as [_ ->]. apply Hcount.
Qed.

Lemma handle_healthy (r : Request) (d : Disk) :
  healthy generateHash d → healthy generateHash (handle generateHash CHUNK_SIZE r d).
Proof.
  intros Hd.
  destruct r as [now|now req|fid|now id req_status|fid|]; cbn [handle].
  - by apply initializeSystem_healthy.
  - by apply upload_healthy.
  - destruct (reconstruct_keeps_store generateHash fid d) as (Hm & Hs & Hn).
    apply (healthy_frame d); [done | | done |].
    + unfold metadata_of. by rewrite Hm.
    + intros id. unfold node_state. by rewrite Hs.
  - destruct (toggle_keeps_files now id req_status d) as (Hm & Hn & _).
    apply (healthy_frame d); [done | | done |].
    + unfold metadata_of. by rewrite Hm.
    + intros id'. apply toggle_chunkCount.
  - by rewrite download_disk.
  - by rewrite dashboard_disk.
Qed.

Lemma run_healthy (rs : list Request) :
  ∀ d, healthy generateHash d → healthy generateHash (run generateHash CHUNK_SIZE rs d).
Proof.
  induction rs as [|r rs IH]; intros d Hd; [done|].
  rewrite run_cons. by apply IH, handle_healthy.
Qed.

Lemma reachable_healthy (d : Disk) :
  reachable generateHash CHUNK_SIZE d → healthy generateHash d.
Proof.
  intros (now & rs & ->).
  apply run_healthy, initializeSystem_healthy, empty_disk_healthy.
Qed.

End Invariant.

Lemma served_disk_reachable : reachable demo_hash 2 served_disk.
Proof. exists "t0", served_requests. reflexivity. Qed.

(** X21 (chunk counts stay 0): on every disk the server reaches, through
    whatever uploads, reconstructions, toggles, downloads, dashboard
    requests and restarts, [getNodeStatus] reports a chunk count of 0 for
    every node. *)
Theorem reachable_chunk_counts_are_zero (generateHash : bytes → string)
    (CHUNK_SIZE : nat) (d : Disk) (id : string) :
  0 < CHUNK_SIZE →
  reachable generateHash CHUNK_SIZE d →
  ∃ st, getNodeStatus id d = (Ok st, d) ∧ chunkCount st = 0.
Proof.
  intros Hpos Hd. exists (node_state d id). split; [apply getNodeStatus_run|].
  by destruct (reachable_healthy generateHash CHUNK_SIZE Hpos d Hd) as (_ & _ & _ & ?).
Qed.

Lemma reachable_chunk_counts_are_zero_witness :
  ∃ st, getNodeStatus "node1" served_disk = (Ok st, served_disk) ∧
        chunkCount st = 0.
Proof.
  apply (reachable_chunk_counts_are_zero demo_hash 2 served_disk "node1").
  - lia.
  - exists "t0", served_requests. reflexivity.
Defined.

(** X22 (the catalog stays intact): on every disk the server reaches,
    every catalogued manifest records exactly the chunk indices below its
    [totalChunks], and every recorded chunk is on a node of the
    population, with its chunk file on disk and the digest of that file
    equal to the recorded one: no request loses or damages a chunk. *)
Theorem reachable_catalog_intact (generateHash : bytes → string)
    (CHUNK_SIZE : nat) (d : Disk) (fileId : string) (m : FileManifest) :
  0 < CHUNK_SIZE →
  reachable generateHash CHUNK_SIZE d →
  manifest_of d fileId = Some m →
  ∀ j, (totalChunks m ≤ j → chunks m !! j = None) ∧
       (j < totalChunks m →
        ∃ r b, chunks m !! j = Some r ∧ node r ∈ NODES ∧
               node_files d !! (node r, fileId, j) = Some b ∧
               generateHash b = hash r).
Proof.
  intros Hpos Hd Hm.
  destruct (reachable_healthy generateHash CHUNK_SIZE Hpos d Hd) as (_ & _ & Hint & _).
  destruct (Hint fileId m Hm) as (bs & Hlen & _ & Hnone & Hbs).
  intros j. split; [apply Hnone|]. intros Hj.
  destruct (lookup_lt_is_Some_2 bs j ltac:(lia)) as [b Hb].
  destruct (Hbs j b Hb) as (r & ? & ? & ? & ?). by exists r, b.
Qed.

Lemma reachable_catalog_intact_witness :
  ∃ r b, chunks hello_manifest !! 1 = Some r ∧ node r ∈ NODES ∧
         node_files served_disk !! (node r, "1700000000000-k3j9x2q1z", 1)
         = Some b ∧
         demo_hash b = hash r.
Proof.
  refine (proj2 (reachable_catalog_intact demo_hash 2 served_disk
                   "1700000000000-k3j9x2q1z" hello_manifest _ _ _ 1) _).
  - lia.
  - exists "t0", served_requests. reflexivity.
  - vm_compute. reflexivity.
  - cbn. lia.
Defined.

(** What the collecting loop makes of a chunk of an intact manifest. *)
Lemma intact_retrieve (generateHash : bytes → string) (d : Disk)
    (fileId : string) (m : FileManifest) (bs : list bytes) (j : nat) (b : bytes) :
  (∀ j b, bs !! j = Some b →
     ∃ r, chunks m !! j = Some r ∧ node r ∈ NODES ∧ hash r = generateHash b ∧
          node_files d !! (node r, fileId, j) = Some b) →
  bs !! j = Some b →
  ∃ r, chunks m !! j = Some r ∧
       retrieve generateHash d fileId m j
       = (if decide (is_online d (node r)) then Some b else None) ∧
       report generateHash d fileId m j
       = (if decide (is_online d (node r)) then None
          else Some (mkMissingChunk j (node r) NodeOffline)).
Proof.
  intros Hbs Hb. destruct (Hbs j b Hb) as (r & Hr & _ & Hh & Hfile).
  exists r. split; [done|]. unfold retrieve, report, chunk_outcome.
  rewrite Hr, Hfile. destruct (decide (is_online d (node r))); [|done].
  by rewrite decide_False by (rewrite Hh; by intros []).
Qed.

(** X23 (reconstruction on a reached disk): on every disk the server
    reaches, the reconstruction of a catalogued file never answers with
    an error; a chunk is reported missing only for the reason 'Node
    offline', and its node is then not online; and when every recording
    node is online the answer is 'success'. *)
Theorem reachable_reconstruct (generateHash : bytes → string)
    (CHUNK_SIZE : nat) (d : Disk) (fileId : string) (m : FileManifest) :
  0 < CHUNK_SIZE →
  reachable generateHash CHUNK_SIZE d →
  manifest_of d fileId = Some m →
  let answer := (reconstruct generateHash fileId d).1 in
  (∀ e, answer ≠ Error500 e) ∧
  (∀ e, e ∈ missing_list answer →
        mc_error e = NodeOffline ∧ ¬ is_online d (mc_node e)) ∧
  ((∀ j r, chunks m !! j = Some r → is_online d (node r)) →
   answer = Json200 (Reconstructed fileId (originalName m))).
Proof.
  intros Hpos Hd Hm answer.
  destruct (reachable_healthy generateHash CHUNK_SIZE Hpos d Hd) as (_ & _ & Hint & _).
  destruct (Hint fileId m Hm) as (bs & Hlen & Hh & Hnone & Hbs).
  assert (Hcomplete : complete_manifest m).
  { intros j Hj. destruct (lookup_lt_is_Some_2 bs j ltac:(lia)) as [b Hb].
    destruct (Hbs j b Hb) as (r & -> & _). by eexists. }
  set (got := retrieved_of generateHash d fileId m 0 (totalChunks m)).
  assert (Hfull : length got = totalChunks m → got = bs).
  { intros Hall. unfold got, retrieved_of.
    etrans; [apply (omap_full _ (λ j, default ([] : bytes) (bs !! j)))|].
    - by rewrite length_seq.
    - intros j y [_ Hj]%elem_of_seq.
      destruct (lookup_lt_is_Some_2 bs j ltac:(lia)) as [b Hb].
      destruct (intact_retrieve generateHash d fileId m bs j b Hbs Hb)
        as (r & _ & -> & _).
      cbv beta. rewrite Hb. destruct (decide (is_online d (node r))); [|done].
      by intros [= <-].
    - apply list_eq. intros j.
      change (map ?f) with (fmap (M:=list) f). rewrite list_lookup_fmap.
      destruct (decide (j < totalChunks m)) as [Hj|Hj].
      + rewrite lookup_seq_lt by done. simpl.
        destruct (lookup_lt_is_Some_2 bs j ltac:(lia)) as [b Hb]. by rewrite Hb.
      + rewrite lookup_seq_ge by lia. symmetry. apply lookup_ge_None. lia. }
  pose proof (reconstruct_spec generateHash fileId d m Hm Hcomplete) as Hrun.
  cbn zeta in Hrun. fold got in Hrun.
  split; [|split].
  - intros e. unfold answer. rewrite Hrun.
    destruct (decide (length got = totalChunks m)) as [Hall|]; [|done].
    rewrite (Hfull Hall). by rewrite decide_False by (rewrite Hh; by intros []).
  - intros e. unfold answer. rewrite Hrun.
    destruct (decide (length got = totalChunks m)) as [Hall|].
    { destruct (decide (generateHash _ ≠ fileHash m));
        intros He; by apply elem_of_nil in He. }
    cbn [fst missing_list].
    intros (j & [_ Hj]%elem_of_seq & Hrep)%list_elem_of_omap.
    destruct (lookup_lt_is_Some_2 bs j ltac:(lia)) as [b Hb].
    destruct (intact_retrieve generateHash d fileId m bs j b Hbs Hb)
      as (r & _ & _ & Hreport).
    rewrite Hreport in Hrep.
    destruct (decide (is_online d (node r))); [done|]. by injection Hrep as <-.
  - intros Hon. unfold answer. rewrite Hrun.
    assert (Hall : length got = totalChunks m).
    { unfold got, retrieved_of.
      erewrite (omap_all_Some _ (λ j, default ([] : bytes) (bs !! j)));
        [by rewrite length_map, length_seq|].
      intros j [_ Hj]%elem_of_seq.
      destruct (lookup_lt_is_Some_2 bs j ltac:(lia)) as [b Hb].
      destruct (intact_retrieve generateHash d fileId m bs j b Hbs Hb)
        as (r & Hr & -> & _).
      cbv beta. rewrite Hb. by rewrite decide_True by (by apply (Hon j)). }
    rewrite decide_True by done. rewrite (Hfull Hall).
    by rewrite decide_False by (rewrite Hh; by intros []).
Qed.

Lemma reachable_reconstruct_witness :
  let answer := (reconstruct demo_hash "1700000000000-k3j9x2q1z" served_disk).1 in
  (∀ e, answer ≠ Error500 e) ∧
  (∀ e, e ∈ missing_list answer →
        mc_error e = NodeOffline ∧ ¬ is_online served_disk (mc_node e)) ∧
  ((∀ j r, chunks hello_manifest !! j = Some r → is_online served_disk (node r)) →
   answer = Json200 (Reconstructed "1700000000000-k3j9x2q1z"
                       (originalName hello_manifest))).
Proof.
  apply (reachable_reconstruct demo_hash 2 served_disk
           "1700000000000-k3j9x2q1z" hello_manifest).
  - lia.
  - exists "t0", served_requests. reflexivity.
  - vm_compute. reflexivity.
Defined.



(** ** The dashboard *)

Lemma sum_list_fmap_cons (f : string → nat) (k : string) (l : list string) :
  sum_list (f <$> (k :: l)) = f k + sum_list (f <$> l).
Proof. reflexivity. Qed.

Lemma sum_list_fmap_add (f g : string → nat) (l : list string) :
  sum_list ((λ k, f k + g k) <$> l) = sum_list (f <$> l) + sum_list (g <$> l).
Proof.
  induction l as [|k l IH]; [done|].
  rewrite !sum_list_fmap_cons, IH. lia.
Qed.

Lemma sum_list_fmap_ext (f g : string → nat) (l : list string) :
  (∀ k, k ∈ l → f k = g k) → sum_list (f <$> l) = sum_list (g <$> l).
Proof.
  induction l as [|k l IH]; intros Hfg; [done|].
  rewrite !sum_list_fmap_cons, (Hfg k) by apply list_elem_of_here.
  rewrite IH; [done|]. intros k' Hk'. apply Hfg. by apply list_elem_of_further.
Qed.

(** A name is found once in a list that holds it without repetition. *)
Lemma sum_list_indicator (x : string) (l : list string) :
  NoDup l →
  sum_list ((λ k, if decide (k = x) then 1 else 0) <$> l)
  = if decide (x ∈ l) then 1 else 0.
Proof.
  induction 1 as [|k l Hk Hnd IH]; [done|].
  rewrite sum_list_fmap_cons, IH.
  destruct (decide (k = x)) as [->|Hne].
  - rewrite (decide_True (P := x ∈ x :: l)) by apply list_elem_of_here.
    by rewrite decide_False.
  - destruct (decide (x ∈ l)) as [Hin|Hout].
    + by rewrite decide_True by (by apply list_elem_of_further).
    + rewrite decide_False; [done|].
      intros [->|?]%elem_of_cons; done.
Qed.

(** Counting, for every name of a duplicate-free list, its occurrences in
    a list of names drawn from it, counts every occurrence once. *)
Lemma sum_list_occurrences (l ks : list string) :
  NoDup l → (∀ x, x ∈ ks → x ∈ l) →
  sum_list ((λ k, length (filter (λ x, x = k) ks)) <$> l) = length ks.
Proof.
  intros Hnd. induction ks as [|x ks IH]; intros Hin.
  - clear. induction l as [|k l IHl]; [done|].
    by rewrite sum_list_fmap_cons, IHl.
  - rewrite (sum_list_fmap_ext _
      (λ k, (if decide (k = x) then 1 else 0) + length (filter (λ y, y = k) ks))).
    + rewrite sum_list_fmap_add, sum_list_indicator, IH by
        (done || (intros y Hy; apply Hin; by apply list_elem_of_further)).
      rewrite decide_True by (apply Hin, list_elem_of_here). simpl. lia.
    + intros k _. rewrite filter_cons.
      destruct (decide (x = k)) as [->|Hne].
      * by rewrite decide_True.
      * by rewrite decide_False by congruence.
Qed.

Lemma count_chunk_other (dist : gmap string JsCount) (k k' : string) :
  k ≠ k' → count_chunk dist k' !! k = dist !! k.
Proof.
  intros Hne. unfold count_chunk.
  destruct (dist !! k') as [[n|]|]; try by rewrite lookup_insert_ne.
  destruct (decide (k' ∈ Object_prototype_keys)); [|by rewrite lookup_insert_ne].
  destruct (decide (k' = "__proto__")); [done | by rewrite lookup_insert_ne].
Qed.

(** The counting loop, seen from a key that holds a number. *)
Lemma foldl_count_chunk (ks : list string) (k : string) :
  ∀ (dist : gmap string JsCount) (n : nat),
  dist !! k = Some (Num n) →
  foldl count_chunk dist ks !! k
  = Some (Num (n + length (filter (λ x, x = k) ks))).
Proof.
  induction ks as [|x ks IH]; intros dist n Hk.
  - simpl. rewrite Hk. do 2 f_equal. lia.
  - cbn [foldl]. rewrite filter_cons. destruct (decide (x = k)) as [->|Hne].
    + rewrite (IH _ (n + 1)).
      * do 2 f_equal. simpl. lia.
      * unfold count_chunk. rewrite Hk. apply lookup_insert_eq.
    + rewrite (IH _ n); [done|]. by rewrite count_chunk_other.
Qed.

Lemma foldl_insert_zero (l : list string) (k : string) :
  ∀ dist : gmap string JsCount,
  k ∈ l → foldl (λ dist node, <[node := Num 0]> dist) dist l !! k = Some (Num 0).
Proof.
  induction l as [|x l IH]; intros dist Hin; [by apply elem_of_nil in Hin|].
  cbn [foldl]. destruct (decide (k ∈ l)) as [Hl|Hl]; [by apply IH|].
  apply elem_of_cons in Hin as [->|?]; [|done].
  clear IH. revert dist. induction l as [|y l IHl]; intros dist.
  - apply lookup_insert_eq.
  - cbn [foldl]. rewrite insert_insert_ne.
    + apply IHl. intros ?. apply Hl. by apply list_elem_of_further.
    + intros ->. apply Hl. apply list_elem_of_here.
Qed.

Lemma foldl_add_totalChunks (l : list FileManifest) :
  ∀ a, foldl (λ sum file, sum + totalChunks file) a l
       = a + sum_list (totalChunks <$> l).
Proof.
  induction l as [|m l IH]; intros a; [simpl; lia|].
  cbn [foldl]. rewrite IH. rewrite fmap_cons.
  change (sum_list (totalChunks m :: (totalChunks <$> l)))
    with (totalChunks m + sum_list (totalChunks <$> l)). lia.
Qed.

(** A map that holds exactly the indices below [n] has [n] entries. *)
Lemma size_contiguous (M : gmap nat ChunkRecord) (n : nat) :
  (∀ j, j < n → is_Some (M !! j)) →
  (∀ j, n ≤ j → M !! j = None) →
  base.size M = n.
Proof.
  intros Hsome Hnone. rewrite <- (size_dom (D := gset nat)).
  rewrite <- (size_set_seq (C := gset nat) 0 n). f_equal.
  apply set_eq. intros j. rewrite elem_of_dom, elem_of_set_seq.
  split.
  - intros [r Hr]. destruct (decide (j < n)); [lia|].
    rewrite Hnone in Hr by lia. done.
  - intros [_ Hj]. apply Hsome. lia.
Qed.

(** What an intact manifest gives the dashboard: as many chunk records as
    [totalChunks] says, each on a node of the registry. *)
Lemma intact_chunk_nodes (generateHash : bytes → string) (d : Disk)
    (fileId : string) (m : FileManifest) :
  intact generateHash d fileId m →
  base.size (chunks m) = totalChunks m ∧
  ∀ r, r ∈ (map_to_list (chunks m)).*2 → node r ∈ NODES.
Proof.
  intros (bs & Hlen & _ & Hnone & Hsome).
  assert (Hlt : ∀ j, j < totalChunks m →
                ∃ r, chunks m !! j = Some r ∧ node r ∈ NODES).
  { intros j Hj. destruct (lookup_lt_is_Some_2 bs j) as [b Hb]; [lia|].
    destruct (Hsome j b Hb) as (r & Hr & Hn & _). by exists r. }
  split.
  - apply size_contiguous; [|done].
    intros j Hj. destruct (Hlt j Hj) as (r & -> & _). by eexists.
  - intros r ([j r'] & -> & Hin%elem_of_map_to_list)%list_elem_of_fmap.
    cbn [snd]. cbn [snd] in Hin.
    destruct (decide (j < totalChunks m)) as [Hj|Hj].
    + destruct (Hlt j Hj) as (r & Hr & Hn). congruence.
    + rewrite Hnone in Hin by lia. done.
Qed.

Lemma chunk_nodes_of_list (l : list FileManifest) :
  Forall (λ m, base.size (chunks m) = totalChunks m ∧
               ∀ r, r ∈ (map_to_list (chunks m)).*2 → node r ∈ NODES) l →
  length (l ≫= λ file, node <$> (map_to_list (chunks file)).*2)
  = sum_list (totalChunks <$> l) ∧
  ∀ k, k ∈ (l ≫= λ file, node <$> (map_to_list (chunks file)).*2) → k ∈ NODES.
Proof.
  induction 1 as [|m l [Hsize Hnodes] _ [IHlen IHin]]; [split; [done|]|].
  { intros k Hk. by apply elem_of_nil in Hk. }
  rewrite bind_cons. split.
  - rewrite length_app, IHlen, !length_fmap, length_map_to_list, Hsize.
    reflexivity.
  - intros k [Hk|Hk]%elem_of_app; [|by apply IHin].
    apply list_elem_of_fmap in Hk as (r & -> & Hr). by apply Hnodes.
Qed.

Section Dashboard.

Variable generateHash : bytes → string.
Variable CHUNK_SIZE : nat.
Hypothesis CHUNK_SIZE_pos : 0 < CHUNK_SIZE.

Lemma healthy_dashboard (d : Disk) :
  healthy generateHash d →
  ∃ db, dashboard d = (Json200 db, d) ∧
        db_nodes db = map (node_state d) NODES ∧
        (∀ k, k ∈ NODES → ∃ n, db_chunkDistribution db !! k = Some (Num n)) ∧
        sum_list (shown_count db <$> NODES) = db_totalChunks db.
Proof.
  intros ((files & Hfiles) & _ & Hintact & _).
  rewrite dashboard_run, Hfiles. eexists. split; [reflexivity|].
  cbn [db_nodes db_chunkDistribution db_totalChunks].
  split; [reflexivity|].
  assert (Hall : Forall (λ m, base.size (chunks m) = totalChunks m ∧
                   ∀ r, r ∈ (map_to_list (chunks m)).*2 → node r ∈ NODES)
                   (map_to_list files).*2).
  { apply Forall_forall. intros m ([fileId m'] & -> & Hin%elem_of_map_to_list)%list_elem_of_fmap.
    cbn [snd]. apply (intact_chunk_nodes generateHash d fileId), Hintact.
    unfold manifest_of. by rewrite Hfiles. }
  destruct (chunk_nodes_of_list _ Hall) as [Hlen Hin].
  fold (chunk_nodes files) in Hlen, Hin.
  assert (Hk : ∀ k, k ∈ NODES →
    foldl count_chunk (foldl (λ dist node, <[node := Num 0]> dist) ∅ NODES)
          (chunk_nodes files) !! k
    = Some (Num (length (filter (λ x, x = k) (chunk_nodes files))))).
  { intros k Hk. by rewrite (foldl_count_chunk _ k _ 0) by by apply foldl_insert_zero. }
  split.
  - intros k Hk'. eexists. by apply Hk.
  - rewrite foldl_add_totalChunks, <- Hlen. cbn [Nat.add].
    rewrite <- (sum_list_occurrences NODES (chunk_nodes files) NODES_NoDup Hin).
    apply sum_list_fmap_ext. intros k Hk'.
    unfold shown_count. cbn [db_chunkDistribution]. by rewrite Hk.
Qed.

End Dashboard.

(** X25 (dashboard adds up): on every disk the server reaches, the
    dashboard answers 200 without touching the disk, lists the nodes in
    registry order, shows a number for every node in
    [chunkDistribution], and these numbers add up to [totalChunks]. *)
Theorem reachable_dashboard_adds_up (generateHash : bytes → string)
    (CHUNK_SIZE : nat) (d : Disk) :
  0 < CHUNK_SIZE →
  reachable generateHash CHUNK_SIZE d →
  ∃ db, dashboard d = (Json200 db, d) ∧
        db_nodes db = map (node_state d) NODES ∧
        (∀ k, k ∈ NODES → ∃ n, db_chunkDistribution db !! k = Some (Num n)) ∧
        sum_list (shown_count db <$> NODES) = db_totalChunks db.
Proof.
  intros Hpos Hd. apply (healthy_dashboard generateHash).
  by apply (reachable_healthy generateHash CHUNK_SIZE Hpos).
Qed.

Lemma reachable_dashboard_adds_up_witness :
  ∃ db, dashboard served_disk = (Json200 db, served_disk) ∧
        db_nodes db = map (node_state served_disk) NODES ∧
        (∀ k, k ∈ NODES → ∃ n, db_chunkDistribution db !! k = Some (Num n)) ∧
        sum_list (shown_count db <$> NODES) = db_totalChunks db.
Proof.
  apply (reachable_dashboard_adds_up demo_hash 2 served_disk).
  - lia.
  - exists "t0", served_requests. reflexivity.
Defined.

(** * The whole-file digest check *)

(** On a disk that satisfies the invariant of the reached disks, the
    whole-file comparison of a reconstruction never fails. *)
Lemma healthy_file_digest (generateHash : bytes → string) (d : Disk)
    (fileId : string) :
  healthy generateHash d →
  (reconstruct generateHash fileId d).1 ≠ Error500 FileHashMismatch.
Proof.
  intros (_ & _ & Hint & _).
  destruct (manifest_of d fileId) as [m|] eqn:Hm.
  2: { rewrite (reconstruct_no_manifest generateHash fileId d Hm).
       destruct (metadata_of d) as [|[files|]]; [done | | done].
       by destruct (decide (fileId ∈ Object_prototype_keys)). }
  destruct (Hint fileId m Hm) as (bs & Hlen & Hh & Hnone & Hbs).
  assert (Hcomplete : complete_manifest m).
  { intros j Hj. destruct (lookup_lt_is_Some_2 bs j ltac:(lia)) as [b Hb].
    destruct (Hbs j b Hb) as (r & -> & _). by eexists. }
  rewrite (reconstruct_spec generateHash fileId d m Hm Hcomplete).
  destruct (decide (length _ = totalChunks m)) as [Hall|]; [|done].
  assert (Hgot : retrieved_of generateHash d fileId m 0 (totalChunks m) = bs).
  { etrans; [apply (omap_full _ (λ j, default ([] : bytes) (bs !! j)))|].
    - by rewrite length_seq.
    - intros j y [_ Hj]%elem_of_seq.
      destruct (lookup_lt_is_Some_2 bs j ltac:(lia)) as [b Hb].
      destruct (intact_retrieve generateHash d fileId m bs j b Hbs Hb)
        as (r & _ & -> & _).
      cbv beta. rewrite Hb. destruct (decide (is_online d (node r))); [|done].
      by intros [= <-].
    - apply list_eq. intros j.
      change (map ?f) with (fmap (M:=list) f). rewrite list_lookup_fmap.
      destruct (decide (j < totalChunks m)) as [Hj|Hj].
      + rewrite lookup_seq_lt by done. simpl.
        destruct (lookup_lt_is_Some_2 bs j ltac:(lia)) as [b Hb]. by rewrite Hb.
      + rewrite lookup_seq_ge by lia. symmetry. apply lookup_ge_None. lia. }
  rewrite Hgot. by rewrite decide_False by (rewrite Hh; by intros []).
Qed.

(** C9 (whole-file digest check), for an arbitrary digest function.  In
    the operation of the server, that is on every disk it reaches from a
    first start through requests, a reconstruction never answers 'File
    hash mismatch'.  And when the files are changed behind its back:
    once an upload has succeeded, on any later disk that still has the
    manifest the upload wrote and on which no chunk file of the upload
    is a collision (other bytes than the uploaded chunk under the same
    digest), a reconstruction never answers 'File hash mismatch' either;
    and whenever every chunk is read back from an online node with its
    recorded digest, the joined chunks have the recorded file digest:
    the answer is 'success' and the reconstructed file holds the
    uploaded bytes. *)
Theorem file_digest_check_unreachable (generateHash : bytes → string)
    (CHUNK_SIZE : nat) :
  0 < CHUNK_SIZE →
  (∀ d fileId,
     reachable generateHash CHUNK_SIZE d →
     (reconstruct generateHash fileId d).1 ≠ Error500 FileHashMismatch) ∧
  (∀ now req d d1 d' ok,
     up_fileId req ≠ "__proto__" →
     upload generateHash CHUNK_SIZE now req d = (Json200 ok, d1) →
     manifest_of d' (up_fileId req) = manifest_of d1 (up_fileId req) →
     (∀ x j b, node_files d' !! (x, up_fileId req, j) = Some b →
        generateHash b
        = generateHash (chunkBuffer CHUNK_SIZE (up_fileBuffer req) j) →
        b = chunkBuffer CHUNK_SIZE (up_fileBuffer req) j) →
     (reconstruct generateHash (up_fileId req) d').1 ≠ Error500 FileHashMismatch ∧
     ∃ m, manifest_of d' (up_fileId req) = Some m ∧
       ((∀ j, j < totalChunks m →
           ∃ r b, chunks m !! j = Some r ∧ is_online d' (node r) ∧
                  node_files d' !! (node r, up_fileId req, j) = Some b ∧
                  generateHash b = hash r) →
        reconstruct generateHash (up_fileId req) d'
        = (Json200 (Reconstructed (up_fileId req) (up_originalname req)),
           mkDisk (metadata_json d') (status_json d') (node_files d')
                  (<["reconstructed_" +:+ up_originalname req := up_fileBuffer req]>
                     (upload_files d'))))).
Proof.
  intros Hpos. split.
  { intros d fileId Hd. apply healthy_file_digest.
    by apply (reachable_healthy generateHash CHUNK_SIZE Hpos). }
  intros now req d d1 d' ok Hproto Hup Hsame Hloc.
  destruct (upload_Json200_inv _ _ _ _ _ _ _ Hup) as [[files Hmeta] Hcan].
  destruct (upload_spec generateHash CHUNK_SIZE now req d files Hmeta Hproto Hcan)
    as (d1' & Hup' & [m Hst] & _).
  rewrite Hup' in Hup. injection Hup as _ <-.
  pose proof (stored_complete _ _ _ _ _ _ Hst) as Hcomplete.
  destruct Hst as (Hm & Ht & Hh & Hname & Hlen & _ & Hrec).
  rewrite Hm in Hsame.
  assert (Hchunk : ∀ j y, j < totalChunks m →
            retrieve generateHash d' (up_fileId req) m j = Some y →
            y = chunkBuffer CHUNK_SIZE (up_fileBuffer req) j).
  { intros j y Hj. unfold retrieve.
    destruct (lookup_lt_is_Some_2 _ j ltac:(rewrite Hlen; exact Hj)) as [x Hx].
    destruct (Hrec j x Hx) as [-> _]. unfold chunk_outcome. simpl.
    destruct (decide (is_online d' x)); [|done].
    destruct (node_files d' !! (x, up_fileId req, j)) as [b|] eqn:Hb; [|done].
    destruct (decide (generateHash b ≠ _)) as [|Heq]; [done|].
    intros [= <-]. apply (Hloc x j b Hb). by apply dec_stable. }
  assert (Hgot : length (retrieved_of generateHash d' (up_fileId req) m 0
                           (totalChunks m)) = totalChunks m →
                 retrieved_of generateHash d' (up_fileId req) m 0 (totalChunks m)
                 = map (chunkBuffer CHUNK_SIZE (up_fileBuffer req))
                       (seq 0 (totalChunks m))).
  { intros Hall. apply omap_full; [by rewrite length_seq|].
    intros j y [_ Hj]%elem_of_seq. apply Hchunk. lia. }
  rewrite (reconstruct_spec generateHash _ d' m Hsame Hcomplete).
  split.
  - destruct (decide (length _ = totalChunks m)) as [Hall|Hnot]; [|done].
    rewrite (Hgot Hall), Ht, concat_all_chunks, Hh by done.
    destruct (decide (generateHash _ ≠ generateHash _)); done.
  - exists m. split; [done|]. intros Hread.
    assert (Hall : retrieved_of generateHash d' (up_fileId req) m 0 (totalChunks m)
                   = map (chunkBuffer CHUNK_SIZE (up_fileBuffer req))
                         (seq 0 (totalChunks m))).
    { apply omap_all_Some. intros j [_ Hj]%elem_of_seq.
      destruct (Hread j ltac:(lia)) as (r & b & Hr & Hon & Hb & Hdig).
      assert (Hret : retrieve generateHash d' (up_fileId req) m j = Some b).
      { unfold retrieve, chunk_outcome. rewrite Hr, Hb.
        rewrite decide_True by done. by rewrite decide_False by (by intros ?). }
      rewrite Hret. f_equal. apply Hchunk; [lia | done]. }
    rewrite Hall, length_map, length_seq.
    rewrite decide_True by done.
    rewrite Ht, concat_all_chunks, Hh, Hname by done.
    by rewrite decide_False by (by intros ?).

Qed.

Lemma demo_hash_inj (a b : bytes) : demo_hash a = demo_hash b → a = b.
Proof.
  unfold demo_hash. intros Heq.
  rewrite <- (list_byte_of_string_of_list_byte a),
          <- (list_byte_of_string_of_list_byte b).
  by rewrite Heq.
Qed.

Lemma file_digest_check_unreachable_witness :
  (reconstruct demo_hash "1700000000000-k3j9x2q1z" hello_disk_node2_back).1
  ≠ Error500 FileHashMismatch ∧
  (reconstruct demo_hash "1700000000000-k3j9x2q1z" hello_disk_node2_back).1
  = Json200 (Reconstructed "1700000000000-k3j9x2q1z" "hello.txt").
Proof.
  destruct (file_digest_check_unreachable demo_hash 2 ltac:(lia))
    as [Hreached Htampered].
  split.
  - apply Hreached.
    exists "t0", [ReqUpload "t1" hello_request; ReqToggle "t2" "node2" None;
                  ReqReconstruct "1700000000000-k3j9x2q1z";
                  ReqToggle "t3" "node2" None].
    vm_compute. reflexivity.
  - destruct (Htampered "t1" hello_request (initial_disk "t0") hello_disk
                hello_disk_node2_back
                (mkUploadOk "1700000000000-k3j9x2q1z" "hello.txt" 3))
      as [_ (m & Hm & Hsuccess)].
    + discriminate.
    + vm_compute. reflexivity.
    + vm_compute. reflexivity.
    + intros x j b _ Heq. by apply demo_hash_inj.
    + refine (f_equal fst (Hsuccess _)).
      vm_compute in Hm. injection Hm as <-.
      intros [|[|[|j]]] Hj; [| | |simpl in Hj; lia];
        eexists _, _; vm_compute; (split; [reflexivity|]);
        (split; [reflexivity|]); split; reflexivity.
Defined.
